(** * WeakPasswordTest: the SSH credential-trial engine and its orchestrator

    A shallow embedding of [detectors/ssh_detector.py], [utils/result_handler.py]
    and the detection part of [main.py], and the properties of the
    credential-trial engine checked against it; then of [utils/config.py],
    [utils/dictionary_loader.py], [detectors/rdp_detector.py], the report of
    [utils/result_handler.py] and the rest of [main.py], with further
    properties of the whole.

    Conventions of the embedding.
    - Python [int] is [Z]; the [float] delays are rationals [Q].
    - Python [str] is [string]; a dictionary with string keys is a
      [gmap string pyval].
    - The transport library (paramiko), the random generator, the clock and
      the file system are outside the repository: they are oracles, the
      variables of the sections below.  Every call made to them is recorded
      in a trace of events, in program order.
    - [async]/[await] code of one task is sequential; it is written in a
      state-and-exception monad over the trace. *)

From Stdlib Require Import QArith Ascii Lqa.
From stdpp Require Import gmap strings list fin_maps pretty.


Open Scope Z_scope.

(** ** Python values and exceptions *)

Module Py.

(** The values stored in the result dictionaries. *)
Inductive pyval :=
| VNone
| VBool (b : bool)
| VInt (z : Z)
| VStr (s : string).

#[global] Instance pyval_eq_dec : EqDecision pyval.
Proof. solve_decision. Defined.

(** [str(v)], as an f-string renders it. *)
Definition str (v : pyval) : string :=
  match v with
  | VNone => "None"
  | VBool true => "True"
  | VBool false => "False"
  | VInt z => pretty z
  | VStr s => s
  end.

(** Truthiness of a value ([if v:], [not v]). *)
Definition truthy (v : pyval) : bool :=
  match v with
  | VNone => false
  | VBool b => b
  | VInt z => negb (z =? 0)
  | VStr s => negb (String.eqb s "")
  end.

(** The exception classes the code distinguishes or raises.  In paramiko,
    [AuthenticationException] and [BadHostKeyException] derive from
    [SSHException]; [NoValidConnectionsError] derives from [OSError].
    [SSHException] below stands for the instances of that class that are of
    neither subclass, [OtherException] for every other subclass of
    [Exception] (socket timeouts, [OSError], ...).  Each carries [str(e)]. *)
Inductive exn :=
| AuthenticationException (msg : string)
| NoValidConnectionsError (msg : string)
| BadHostKeyException (msg : string)
| SSHException (msg : string)
| OtherException (msg : string)
| ValueError (msg : string)
| TypeError (msg : string)
| KeyError (key : string)
| TimeoutError.

Definition exn_str (e : exn) : string :=
  match e with
  | AuthenticationException m | NoValidConnectionsError m
  | BadHostKeyException m | SSHException m | OtherException m
  | ValueError m | TypeError m => m
  | KeyError k => "'" +:+ k +:+ "'"
  | TimeoutError => ""
  end.

(** [isinstance(e, AuthenticationException)] *)
Definition is_AuthenticationException (e : exn) : bool :=
  match e with AuthenticationException _ => true | _ => false end.

(** [random.uniform(a, b)] is [a + (b - a) * random()]; [r] is the value
    of [random()], a number of [[0, 1)]. *)
Definition uniform (r a b : Q) : Q := (a + (b - a) * r)%Q.

(** Truthiness of a list: [if l:]. *)
Definition nonempty {A} (l : list A) : bool :=
  match l with [] => false | _ :: _ => true end.

(** [range(n)] for an [int] [n]: empty when [n <= 0]. *)
Definition range (n : Z) : list Z := Z.of_nat <$> seq 0 (Z.to_nat n).

End Py.
Import Py.

(** ** Traces and the monad of one task *)

Inductive level := DEBUG | INFO | WARNING | ERROR.

(** A credential as it reaches [SSHClient.connect]: a password, or a loaded
    private key (named by the file it was loaded from). *)
Inductive credential :=
| Password (password : string)
| Key (key_path : string).

#[global] Instance credential_eq_dec : EqDecision credential.
Proof. solve_decision. Defined.

(** What one call of [SSHClient.connect] does: it returns, or raises. *)
Inductive connect_outcome :=
| Connected
| Raises (e : exn).

(** The arguments of one call of [SSHClient.connect]. *)
Record connect_call := {
  hostname : string;
  call_port : Z;
  call_username : string;
  call_credential : credential;
  call_timeout : Z
}.

Inductive event :=
| EConnect (c : connect_call) (o : connect_outcome)
| ERandom (r : Q)
| ESleep (seconds : Q)
| EClose
| ELog (logger : string) (lvl : level) (msg : string).

Definition trace := list event.

(** The result of a computation: a value, or a raised exception. *)
Inductive res (A : Type) :=
| Val (a : A)
| Exc (e : exn).
Arguments Val {A} a.
Arguments Exc {A} e.

Definition M (A : Type) : Type := trace → res A * trace.

#[global] Instance M_ret : MRet M := λ A a t, (Val a, t).
#[global] Instance M_bind : MBind M := λ A B f m t,
  match m t with
  | (Val a, t') => f a t'
  | (Exc e, t') => (Exc e, t')
  end.

Definition raise {A} (e : exn) : M A := λ t, (Exc e, t).
Definition emit (e : event) : M unit := λ t, (Val (), t ++ [e]).
Definition get_trace : M trace := λ t, (Val t, t).
Definition log (logger : string) (lvl : level) (msg : string) : M unit :=
  emit (ELog logger lvl msg).

(** [try: body except Exception as e: handler e] *)
Definition try_except {A} (body : M A) (handler : exn → M A) : M A := λ t,
  match body t with
  | (Val a, t') => (Val a, t')
  | (Exc e, t') => handler e t'
  end.

(** How one iteration of a [for] loop ends: it falls through to the next
    iteration, it executes [break], or it executes [return r].  [S] is the
    type of the local variables the loop body assigns. *)
Inductive flow (S R : Type) :=
| Next (s : S)
| Break (s : S)
| Return (r : R).
Arguments Next {S R} s.
Arguments Break {S R} s.
Arguments Return {S R} r.

(** [for x in xs: body]: the locals when the loop is left by exhaustion or
    [break], or the value of a [return] in the body. *)
Fixpoint for_in {X S R} (xs : list X) (body : X → S → M (flow S R)) (s : S)
  : M (S + R) :=
  match xs with
  | [] => mret (inl s)
  | x :: xs' =>
      f ← body x s;
      match f with
      | Next s' => for_in xs' body s'
      | Break s' => mret (inl s')
      | Return r => mret (inr r)
      end
  end.

(** Projections of a trace. *)
Definition connect_of (e : event) : option (connect_call * connect_outcome) :=
  match e with EConnect c o => Some (c, o) | _ => None end.
Definition sleep_of (e : event) : option Q :=
  match e with ESleep d => Some d | _ => None end.
Definition log_of (e : event) : option (string * level * string) :=
  match e with ELog l v m => Some (l, v, m) | _ => None end.

(** The calls of [connect], the sleeps and the log lines of a trace, in order. *)
Definition connects (t : trace) : list (connect_call * connect_outcome) :=
  omap connect_of t.
Definition sleeps (t : trace) : list Q := omap sleep_of t.
Definition draws (t : trace) : list Q :=
  omap (λ e, match e with ERandom r => Some r | _ => None end) t.
Definition logs (t : trace) : list (string * level * string) := omap log_of t.

(** The credentials tried, in order. *)
Definition attempts (t : trace) : list credential :=
  (λ co, call_credential co.1) <$> connects t.

(** ** [detectors/ssh_detector.py] *)

Module ssh_detector.

Record SSHDetector := {
  timeout : Z;
  max_retries : Z;
  min_delay : Q;
  max_delay : Q
}.

(** [SSHDetector.__init__]. *)
Definition __init__ (timeout max_retries : Z) (min_delay max_delay : Q)
  : res SSHDetector :=
  if max_retries <? 0 then Exc (ValueError "重试次数不能为负数")
  else if timeout <=? 0 then Exc (ValueError "超时时间必须大于0")
  else if Qlt_le_dec min_delay 0 then Exc (ValueError "最小延迟不能为负数")
  else if Qlt_le_dec max_delay min_delay
       then Exc (ValueError "最大延迟不能小于最小延迟")
  else Val {| timeout := timeout; max_retries := max_retries;
              min_delay := min_delay; max_delay := max_delay |}.

(** The default values of the parameters of [__init__]. *)
Definition default_timeout : Z := 10.
Definition default_max_retries : Z := 2.
Definition default_min_delay : Q := 1 # 2.
Definition default_max_delay : Q := 2.

Inductive key_type := RSAKey | DSSKey | ECDSAKey | Ed25519Key.

(** The seven keys of a full result dictionary. *)
Definition result_dict (target : string) (port : Z) (username : string)
    (success password key_used error : pyval) : gmap string pyval :=
  {[ "target" := VStr target; "port" := VInt port; "username" := VStr username;
     "success" := success; "password" := password; "key_used" := key_used;
     "error" := error ]}.

(** [d[k]] *)
Definition getitem (d : gmap string pyval) (k : string) : M pyval :=
  match d !! k with
  | Some v => mret v
  | None => raise (KeyError k)
  end.

Section detector.

(** The world outside the repository.
    - [from_private_key_file ty path password]: whether the key file loads
      as a key of type [ty] (otherwise paramiko raises [SSHException] or
      [IOError]).
    - [connect k c]: what the call [c] of [SSHClient.connect] does when [k]
      calls were made before it.
    - [transport_active k]: whether, after the call number [k] of [connect]
      raised, the client still has an active transport.
    - [random k]: the value of the call number [k] of [random()]. *)
Variable from_private_key_file : key_type → string → option string → bool.
Variable connect : nat → connect_call → connect_outcome.
Variable transport_active : nat → bool.
Variable random : nat → Q.

Variable self : SSHDetector.

Definition logger : string := "ssh_detector".

(** Whether the key file loads as a key of one of the four types
    [_load_private_key] tries. *)
Definition loadable (key_path : string) (password : option string) : bool :=
  from_private_key_file RSAKey key_path password
  || from_private_key_file DSSKey key_path password
  || from_private_key_file ECDSAKey key_path password
  || from_private_key_file Ed25519Key key_path password.

(** [SSHDetector._load_private_key] *)
Definition _load_private_key (key_path : string) (password : option string)
  : M credential :=
  let key_types := [RSAKey; DSSKey; ECDSAKey; Ed25519Key] in
  r ← for_in key_types
        (λ key_type (_ : unit),
           if from_private_key_file key_type key_path password
           then mret (Return (Key key_path))
           else mret (Next ()))
        ();
  match r with
  | inr key => mret key
  | inl _ =>
      log logger ERROR
        ("无法加载私钥文件: " +:+ key_path +:+ "，尝试了所有支持的密钥类型");;
      raise (SSHException
        ("无法加载私钥文件: " +:+ key_path +:+ "，不支持的密钥类型或文件格式"))
  end.

(** The call of [connect] that tries [cred]. *)
Definition call_of (target : string) (port : Z) (username : string)
    (cred : credential) : connect_call :=
  {| hostname := target; call_port := port; call_username := username;
     call_credential := cred; call_timeout := timeout self |}.

(** [await asyncio.to_thread(self.ssh_client.connect, ...)] *)
Definition ssh_connect (target : string) (port : Z) (username : string)
    (cred : credential) : M unit := λ t,
  let c := call_of target port username cred in
  let o := connect (length (connects t)) c in
  (match o with Connected => Val () | Raises e => Exc e end,
   t ++ [EConnect c o]).

(** [self.ssh_client.close()] *)
Definition ssh_close : M unit := emit EClose.

(** [random.uniform(a, b)] *)
Definition random_uniform (a b : Q) : M Q := λ t,
  let r := random (length (draws t)) in
  (Val (uniform r a b), t ++ [ERandom r]).

(** [await asyncio.sleep(d)] *)
Definition sleep (d : Q) : M unit := emit (ESleep d).

(** [self.ssh_client and self.ssh_client.get_transport() and
    self.ssh_client.get_transport().is_active()]: the state of the client
    handle, read off the trace.  There is no client before the first call of
    [connect]; a closed client is not active; after a call that raised, the
    library decides. *)
Fixpoint client_active_rev (rev_t : trace) : bool :=
  match rev_t with
  | [] => false
  | EClose :: _ => false
  | EConnect _ Connected :: _ => true
  | EConnect _ (Raises _) :: rest => transport_active (length (connects rest))
  | _ :: rest => client_active_rev rest
  end.
Definition client_active (t : trace) : bool := client_active_rev (reverse t).

(** One iteration of the retry loop of [_try_key_authentication]: the [try]
    statement with its two handlers. *)
Definition key_attempt (target : string) (port : Z) (username key_path : string)
    (key_password : option string) (attempt : Z) (result : gmap string pyval)
  : M (flow (gmap string pyval) (gmap string pyval)) :=
  try_except
    (private_key ← _load_private_key key_path key_password;
     ssh_connect target port username private_key;;
     let result := <["success" := VBool true]> result in
     log logger INFO
       ("SSH密钥认证成功 - 目标: " +:+ target +:+ ", 用户名: " +:+ username);;
     ssh_close;;
     mret (Return result))
    (λ e,
       if is_AuthenticationException e then
         let result := <["error" := VStr "密钥认证失败"]> result in
         log logger ERROR ("密钥认证失败: " +:+ exn_str e);;
         mret (Break result)
       else
         let error := "连接尝试 " +:+ pretty (attempt + 1) +:+ " 失败: "
                      +:+ exn_str e in
         let result := <["error" := VStr error]> result in
         log logger WARNING error;;
         (if attempt <? max_retries self - 1 then
            jitter ← random_uniform (min_delay self) (max_delay self);
            sleep jitter
          else mret ());;
         mret (Next result)).

(** [return result], after a loop left by exhaustion or [break], or from
    inside it. *)
Definition returned {A} (r : A + A) : A :=
  match r with inl result => result | inr result => result end.

(** [SSHDetector._try_key_authentication] *)
Definition _try_key_authentication (target : string) (port : Z)
    (username key_path : string) (key_password : option string)
  : M (gmap string pyval) :=
  let result :=
    result_dict target port username (VBool false) VNone (VStr key_path) VNone in
  r ← for_in (range (max_retries self))
        (key_attempt target port username key_path key_password) result;
  mret (returned r).

(** The [finally] clause of the password loop. *)
Definition finally_close : M unit := λ t,
  if client_active t then ssh_close t else (Val (), t).

(** [try: body finally: fin] *)
Definition try_finally {A} (body : M A) (fin : M unit) : M A := λ t,
  let '(r, t') := body t in
  match fin t' with
  | (Val _, t'') => (r, t'')
  | (Exc e, t'') => (Exc e, t'')
  end.

(** [masked_password = '*' * len(password)] *)
Definition masked (password : string) : string :=
  String.concat "" (replicate (String.length password) "*").

(** One iteration of the inner loop of [_try_password_authentication]: the
    [try] statement with its four handlers and its [finally] clause.  An
    exception of no handled class leaves the function. *)
Definition password_attempt (target : string) (port : Z) (username : string)
    (password : string) (attempt : Z) (result : gmap string pyval)
  : M (flow (gmap string pyval) (gmap string pyval)) :=
  try_finally
    (try_except
       (ssh_connect target port username (Password password);;
        let result := <["success" := VBool true]> result in
        let result := <["password" := VStr password]> result in
        let masked_password := masked password in
        log logger WARNING
          ("SSH弱口令检测成功 - 目标: " +:+ target +:+ ", 用户名: "
           +:+ username +:+ ", 密码: " +:+ masked_password);;
        ssh_close;;
        mret (Return result))
       (λ e,
          match e with
          | AuthenticationException _ =>
              let result := <["error" := VStr "身份验证失败"]> result in
              log logger ERROR ("身份验证失败: " +:+ exn_str e);;
              mret (Break result)
          | NoValidConnectionsError _ =>
              let error := "无法建立连接: " +:+ exn_str e in
              let result := <["error" := VStr error]> result in
              log logger ERROR error;;
              mret (Break result)
          | BadHostKeyException _ =>
              let error := "主机密钥验证失败: " +:+ exn_str e in
              let result := <["error" := VStr error]> result in
              log logger ERROR error;;
              mret (Break result)
          | SSHException _ =>
              let error := "SSH协议错误: " +:+ exn_str e in
              let result := <["error" := VStr error]> result in
              log logger ERROR error;;
              mret (Break result)
          | _ => raise e
          end))
    finally_close.

(** The inner loop of [_try_password_authentication] for one password, as an
    iteration of the outer loop. *)
Definition password_retries (target : string) (port : Z) (username : string)
    (password : string) (result : gmap string pyval)
  : M (flow (gmap string pyval) (gmap string pyval)) :=
  r ← for_in (range (max_retries self))
        (password_attempt target port username password) result;
  match r with
  | inl result => mret (Next result)
  | inr result => mret (Return result)
  end.

(** [SSHDetector._try_password_authentication] *)
Definition _try_password_authentication (target : string) (port : Z)
    (username : string) (passwords : list string) : M (gmap string pyval) :=
  let result :=
    result_dict target port username (VBool false) VNone VNone VNone in
  r ← for_in passwords (password_retries target port username) result;
  mret (returned r).

(** [SSHDetector.detect] *)
Definition detect (target : string) (port : Z) (username : string)
    (passwords : option (list string)) (private_key_path : option string)
    (private_key_password : option string) : M (gmap string pyval) :=
  if negb ((1 <=? port) && (port <=? 65535)) then
    let error_msg :=
      "无效的端口号: " +:+ pretty port +:+ "，必须在1-65535范围内" in
    log logger ERROR error_msg;;
    mret (result_dict target port username (VBool false) VNone VNone
            (VStr error_msg))
  else
    let result :=
      result_dict target port username (VBool false) VNone VNone VNone in
    if negb (truthy (VStr target)) || negb (truthy (VStr username)) then
      let error_msg := "目标地址和用户名不能为空" in
      log logger ERROR error_msg;;
      mret {[ "error" := VStr error_msg; "success" := VBool false ]}
    else
      key_return ←
        match private_key_path with
        | Some key_path =>
            if truthy (VStr key_path) then
              key_result ← _try_key_authentication target port username key_path
                             private_key_password;
              success ← getitem key_result "success";
              mret (if truthy success then Some key_result else None)
            else mret None
        | None => mret None
        end;
      match key_return with
      | Some key_result => mret key_result
      | None =>
          password_return ←
            match passwords with
            | Some passwords =>
                if nonempty passwords then
                  password_result ←
                    _try_password_authentication target port username passwords;
                  success ← getitem password_result "success";
                  mret (if truthy success then Some password_result else None)
                else mret None
            | None => mret None
            end;
          match password_return with
          | Some password_result => mret password_result
          | None =>
              success ← getitem result "success";
              (if truthy success then
                 log logger INFO
                   ("检测成功 - 目标: " +:+ target +:+ ":" +:+ pretty port
                    +:+ ", 用户名: " +:+ username)
               else
                 log logger DEBUG
                   ("检测失败 - 目标: " +:+ target +:+ ":" +:+ pretty port
                    +:+ ", 错误: " +:+ str (default VNone (result !! "error"))));;
              mret result
          end
      end.

End detector.

End ssh_detector.

(** ** [utils/result_handler.py] *)

Module result_handler.

Definition logger : string := "result_handler".

(** [ResultHandler.add_result]: [results] is [self.results] before the call,
    the value returned is [self.results] after it; [timestamp] is the
    formatted [datetime.now()]. *)
Definition add_result (timestamp : string) (protocol target : string)
    (port : pyval) (username : string) (password success error : pyval)
    (results : list (gmap string pyval)) : M (list (gmap string pyval)) :=
  let result : gmap string pyval :=
    {[ "timestamp" := VStr timestamp; "protocol" := VStr protocol;
       "target" := VStr target; "port" := port; "username" := VStr username;
       "password" := password; "success" := success; "error" := error ]} in
  let results := results ++ [result] in
  log logger INFO
    ("添加检测结果 - 协议: " +:+ protocol +:+ ", 目标: " +:+ target
     +:+ ", 成功: " +:+ str success);;
  mret results.

(** [result[k]] in an f-string of [_generate_table_rows]; the keys read there
    are those [add_result] writes. *)
Definition field (result : gmap string pyval) (k : string) : pyval :=
  default VNone (result !! k).

(** One row of [ResultHandler._generate_table_rows]. *)
Definition table_row (result : gmap string pyval) : string :=
  let status :=
    if truthy (field result "success") then "<span class='success'>成功</span>"
    else "<span class='failure'>失败</span>" in
  let password :=
    if truthy (field result "password") then str (field result "password")
    else "N/A" in
  "<tr><td>" +:+ str (field result "timestamp") +:+ "</td><td>"
  +:+ str (field result "protocol") +:+ "</td><td>"
  +:+ str (field result "target") +:+ "</td><td>"
  +:+ str (field result "port") +:+ "</td><td>"
  +:+ str (field result "username") +:+ "</td><td>"
  +:+ password +:+ "</td><td>" +:+ status +:+ "</td></tr>".

(** [ResultHandler._generate_table_rows] *)
Definition _generate_table_rows (results : list (gmap string pyval)) : string :=
  String.concat (String (Ascii.ascii_of_nat 10) "        ") (table_row <$> results).

End result_handler.

(** ** [utils/config.py] *)

Module config.

(** A loaded YAML document: integer and string scalars, and mappings.  The
    other scalars of YAML are not modelled. *)
#[warnings="-register-all"]
Inductive yaml :=
| YInt (z : Z)
| YStr (s : string)
| YMap (entries : list (string * yaml)).

(** [value[key_part]]: [None] stands for the [KeyError] of a missing key and
    the [TypeError] of a scalar. *)
Fixpoint subscript (entries : list (string * yaml)) (key_part : string)
  : option yaml :=
  match entries with
  | [] => None
  | (k, v) :: rest => if String.eqb k key_part then Some v
                      else subscript rest key_part
  end.

(** [key.split('.')] *)
Fixpoint split_dot_go (s acc : string) : list string :=
  match s with
  | EmptyString => [String.rev acc]
  | String c s' =>
      if Ascii.eqb c "."%char then String.rev acc :: split_dot_go s' EmptyString
      else split_dot_go s' (String c acc)
  end.
Definition split_dot (key : string) : list string := split_dot_go key EmptyString.

Fixpoint walk (keys : list string) (value : yaml) : option yaml :=
  match keys with
  | [] => Some value
  | key_part :: keys' =>
      match value with
      | YMap entries =>
          match subscript entries key_part with
          | Some v => walk keys' v
          | None => None
          end
      | _ => None
      end
  end.

(** [Config.get] *)
Definition get (config : yaml) (key : string) (default : yaml) : yaml :=
  match walk (split_dot key) config with
  | Some value => value
  | None => default
  end.

(** [Config.default_config], without the entries that are not integers. *)
Definition default_config : yaml :=
  YMap [("timeout", YInt 10); ("max_workers", YInt 5); ("log_level", YStr "INFO");
        ("protocols",
          YMap [("ssh", YMap [("port", YInt 22)]);
                ("rdp", YMap [("port", YInt 3389)]);
                ("web", YMap [("port", YInt 80)])])].

End config.

(** ** [main.py] *)

Module main.

Import config.

Definition logger : string := "weak_password_detector".

(** The regular expressions [is_valid_ip] needs, matched with derivatives. *)
Inductive regex :=
| Void
| Eps
| Chr (c : ascii)
| Class (lo hi : ascii)
| Cat (r1 r2 : regex)
| Alt (r1 r2 : regex).

(** [r?] *)
Definition Opt (r : regex) : regex := Alt r Eps.

Fixpoint nullable (r : regex) : bool :=
  match r with
  | Void | Chr _ | Class _ _ => false
  | Eps => true
  | Cat r1 r2 => nullable r1 && nullable r2
  | Alt r1 r2 => nullable r1 || nullable r2
  end.

Definition in_class (lo hi c : ascii) : bool :=
  ((N_of_ascii lo <=? N_of_ascii c) && (N_of_ascii c <=? N_of_ascii hi))%N.

Fixpoint deriv (c : ascii) (r : regex) : regex :=
  match r with
  | Void | Eps => Void
  | Chr c' => if Ascii.eqb c c' then Eps else Void
  | Class lo hi => if in_class lo hi c then Eps else Void
  | Cat r1 r2 =>
      if nullable r1 then Alt (Cat (deriv c r1) r2) (deriv c r2)
      else Cat (deriv c r1) r2
  | Alt r1 r2 => Alt (deriv c r1) (deriv c r2)
  end.

(** Whether [r] matches the whole of [s]. *)
Fixpoint fullmatch (r : regex) (s : string) : bool :=
  match s with
  | EmptyString => nullable r
  | String c s' => fullmatch (deriv c r) s'
  end.

(** [(?:25[0-5]|2[0-4][0-9]|[01]?[0-9][0-9]?)] *)
Definition octet : regex :=
  Alt (Cat (Chr "2") (Cat (Chr "5") (Class "0" "5")))
 (Alt (Cat (Chr "2") (Cat (Class "0" "4") (Class "0" "9")))
      (Cat (Opt (Class "0" "1")) (Cat (Class "0" "9") (Opt (Class "0" "9"))))).

(** [ip_pattern], between [^] and [$]. *)
Definition ip_pattern : regex :=
  Cat octet (Cat (Chr ".") (Cat octet (Cat (Chr ".")
 (Cat octet (Cat (Chr ".") octet))))).

(** [WeakPasswordDetector.is_valid_ip]: [re.match] anchors the pattern at the
    start, and [$] matches at the end of the string or before a newline that
    ends it. *)
Definition is_valid_ip (ip : string) : bool :=
  fullmatch (Cat ip_pattern (Opt (Chr (ascii_of_nat 10)))) ip.

(** The value of a configuration entry where the code needs a number. *)
Definition as_int (v : yaml) : option Z :=
  match v with YInt z => Some z | _ => None end.

(** [self.detectors[protocol](timeout=..., max_retries=...)]: the checks of
    [SSHDetector.__init__] in their order, a comparison of a value that is
    not a number raising [TypeError]. *)
Definition construct (timeout max_retries : yaml)
  : res ssh_detector.SSHDetector :=
  match as_int max_retries, as_int timeout with
  | Some r, Some t =>
      ssh_detector.__init__ t r ssh_detector.default_min_delay
        ssh_detector.default_max_delay
  | Some r, None =>
      if r <? 0 then Exc (ValueError "重试次数不能为负数")
      else Exc (TypeError "'<=' not supported")
  | None, _ => Exc (TypeError "'<' not supported")
  end.

(** An entry of the configuration as a value of a result dictionary. *)
Definition yaml_val (v : yaml) : pyval :=
  match v with YInt z => VInt z | YStr s => VStr s | YMap _ => VNone end.

Section orchestrator.

Variable from_private_key_file :
  ssh_detector.key_type → string → option string → bool.
Variable connect : nat → connect_call → connect_outcome.
Variable transport_active : nat → bool.
Variable random : nat → Q.

(** [deadline events]: where the 30 seconds of [asyncio.wait_for] expire in a
    detection whose events would be [events]: [None] when it completes in
    time, [Some n] when it is cancelled after [n] of them.  What a cancelled
    detection does after the deadline is not modelled. *)
Variable deadline : trace → option nat.

(** [now t]: [datetime.now().strftime('%Y-%m-%d %H:%M:%S')] after the events [t]. *)
Variable now : trace → string.

(** [self.config.config] *)
Variable config : yaml.

(** [await asyncio.wait_for(body, timeout=30)] *)
Definition wait_for {A} (body : M A) : M A := λ t,
  let '(r, t') := body t in
  let events := drop (length t) t' in
  match deadline events with
  | Some n => if (n <? length events)%nat then (Exc TimeoutError, t ++ take n events)
              else (r, t')
  | None => (r, t')
  end.

(** [WeakPasswordDetector.run_detection]; [results] is
    [self.result_handler.results]. *)
Definition run_detection (protocol target username : string)
    (password_list : list string) (results : list (gmap string pyval))
  : M (list (gmap string pyval)) :=
  if negb (String.eqb protocol "ssh") then
    log logger ERROR ("不支持的协议: " +:+ protocol);;
    mret results
  else
    let port := get config ("protocols." +:+ protocol +:+ ".port") (YInt 0) in
    if negb (is_valid_ip target) then
      log logger ERROR ("无效的IP地址格式: " +:+ target);;
      mret results
    else
      match construct (get config "timeout" (YInt 10))
                      (get config "max_retries" (YInt 3)) with
      | Exc e => raise e
      | Val detector =>
          try_except
            (result ← wait_for
               (match as_int port with
                | Some port =>
                    ssh_detector.detect from_private_key_file connect
                      transport_active random detector target port username
                      (Some password_list) None None
                | None => raise (TypeError "'<=' not supported")
                end);
             success ← ssh_detector.getitem result "success";
             if truthy success then
               password ← ssh_detector.getitem result "password";
               log logger WARNING
                 ("弱口令检测成功 - 协议: " +:+ protocol +:+ ", 目标: " +:+ target
                  +:+ ", 用户名: " +:+ username +:+ ", 密码: " +:+ str password);;
               timestamp ← (λ t, (Val (now t), t));
               result_handler.add_result timestamp protocol target (yaml_val port)
                 username password success (default VNone (result !! "error"))
                 results
             else
               log logger INFO
                 ("弱口令检测完成 - 协议: " +:+ protocol +:+ ", 目标: " +:+ target
                  +:+ ", 用户名: " +:+ username +:+ ", 未发现弱口令");;
               mret results)
            (λ e,
               log logger ERROR ("检测过程中发生错误: " +:+ exn_str e);;
               mret results)
      end.

(** The tasks [main] creates: one per target, username and protocol. *)
Definition tasks (targets usernames protocols : list string)
  : list (string * string * string) :=
  target ← targets; username ← usernames; protocol ← protocols;
  [(protocol, target, username)].

(** [await asyncio.gather] of the tasks, the tasks completing in the order of the
    list; an exception that leaves a task leaves [gather]. *)
Fixpoint gather (ts : list (string * string * string)) (passwords : list string)
    (results : list (gmap string pyval)) : M (list (gmap string pyval)) :=
  match ts with
  | [] => mret results
  | (protocol, target, username) :: ts' =>
      results ← run_detection protocol target username passwords results;
      gather ts' passwords results
  end.

End orchestrator.

End main.

(** ** The vocabulary of the properties *)


(** An event list that holds no call of [connect] and no sleep. *)
Definition silent (ev : trace) : Prop := connects ev = [] ∧ sleeps ev = [].

(** No call of [connect] in the event list returned: none authenticated. *)
Definition no_success (ev : trace) : Prop :=
  Forall (λ co : connect_call * connect_outcome, co.2 ≠ Connected) (connects ev).

(** The passwords tried, in order. *)
Definition passwords_tried (t : trace) : list string :=
  omap (λ a, match a with Password p => Some p | Key _ => None end) (attempts t).

(** The exceptions that [_try_password_authentication] handles, each by
    [break]. *)
Definition handled (e : exn) : bool :=
  match e with
  | AuthenticationException _ | NoValidConnectionsError _
  | BadHostKeyException _ | SSHException _ => true
  | _ => false
  end.

(** The line [_try_password_authentication] logs when [password] succeeds:
    it shows one [*] for each character of the password. *)
Definition success_log (target username password : string) : event :=
  ELog ssh_detector.logger WARNING
    ("SSH弱口令检测成功 - 目标: " +:+ target +:+ ", 用户名: " +:+ username
     +:+ ", 密码: " +:+ ssh_detector.masked password).

(** The entry [add_result] appends to the results. *)
Definition recorded (timestamp protocol target : string) (port : pyval)
    (username : string) (password success error : pyval) : gmap string pyval :=
  {[ "timestamp" := VStr timestamp; "protocol" := VStr protocol;
     "target" := VStr target; "port" := port; "username" := VStr username;
     "password" := password; "success" := success; "error" := error ]}.

(** The port [run_detection] reads from the configuration. *)
Definition task_port (config : config.yaml) (protocol : string) : config.yaml :=
  config.get config ("protocols." +:+ protocol +:+ ".port") (config.YInt 0).

(** A detection that fails: no call of [connect] returned, and a result, if
    one is returned, has [success] unset. *)
Definition failed (r : res (gmap string pyval)) (ev : trace) : Prop :=
  no_success ev ∧ ∀ d, r = Val d → d !! "success" = Some (VBool false).

(** A detection that succeeds with the credential [cred]: the call that tries
    it is the first that returns and the last of the detection; the result
    has [success] set and records the credential.  A key that succeeds is the
    key supplied, and no password was tried; a password that succeeds is the
    password number [n] of the list, tried after the [n] passwords before it. *)
Definition succeeded (self : ssh_detector.SSHDetector) (target : string)
    (port : Z) (username : string) (key : option string)
    (passwords : list string) (r : res (gmap string pyval)) (ev : trace)
  : Prop :=
  ∃ ev0 cred tail d,
    ev = ev0 ++ EConnect (ssh_detector.call_of self target port username cred)
                 Connected :: tail ∧
    no_success ev0 ∧ silent tail ∧
    r = Val d ∧ d !! "success" = Some (VBool true) ∧
    match cred with
    | Key k =>
        key = Some k ∧ passwords_tried ev0 = [] ∧
        d !! "key_used" = Some (VStr k)
    | Password p =>
        ∃ n, passwords_tried ev0 = take n passwords ∧ passwords !! n = Some p ∧
             d !! "password" = Some (VStr p) ∧
             tail = [success_log target username p; EClose]
    end.

(** The message of [detect] for a port out of range. *)
Definition invalid_port_message (port : Z) : string :=
  "无效的端口号: " +:+ pretty port +:+ "，必须在1-65535范围内".

(** The result of [detect] for an empty target or username. *)
Definition empty_argument_result : gmap string pyval :=
  {[ "error" := VStr "目标地址和用户名不能为空"; "success" := VBool false ]}.

(** The seven fields of a full result. *)
Definition result_fields : gset string :=
  {[ "target"; "port"; "username"; "success"; "password"; "key_used"; "error" ]}.

(** The property of a result of holding the seven fields. *)
Definition full (d : gmap string pyval) : Prop := dom d = result_fields.

(** The pause after the try number [attempt] of the key. *)
Definition pause (random : nat → Q) (self : ssh_detector.SSHDetector)
    (attempt : Z) (t : trace) : trace :=
  if attempt <? ssh_detector.max_retries self - 1
  then [ERandom (random (length (draws t)));
        ESleep (uniform (random (length (draws t)))
                  (ssh_detector.min_delay self) (ssh_detector.max_delay self))]
  else [].

(** ** Runs of [detect] in a given world *)

Module world.

Import ssh_detector.

(** The detector of the default arguments of [__init__]. *)
Definition default_detector : SSHDetector :=
  {| timeout := default_timeout; max_retries := default_max_retries;
     min_delay := default_min_delay; max_delay := default_max_delay |}.

(** A detector with [max_retries = 0]. *)
Definition detector_without_retries : SSHDetector :=
  {| timeout := default_timeout; max_retries := 0;
     min_delay := default_min_delay; max_delay := default_max_delay |}.

(** Every key file loads; no transport stays active; [random()] is [1/2]. *)
Definition loads : key_type → string → option string → bool := λ _ _ _, true.
Definition inactive : nat → bool := λ _, false.
Definition half : nat → Q := λ _, 1 # 2.

(** A server on which every call of [connect] does the same. *)
Definition always (o : connect_outcome) : nat → connect_call → connect_outcome :=
  λ _ _, o.

(** A server that accepts the password [good] only. *)
Definition accepts (good : string) : nat → connect_call → connect_outcome :=
  λ _ c,
    if decide (call_credential c = Password good) then Connected
    else Raises (AuthenticationException "Authentication failed.").

(** [detect] of [self] in such a world, from the empty trace. *)
Definition run (connect : nat → connect_call → connect_outcome)
    (self : SSHDetector) (target : string) (port : Z) (username : string)
    (passwords : option (list string)) (private_key_path : option string)
  : res (gmap string pyval) * trace :=
  detect loads connect inactive half self target port username passwords
    private_key_path None [].

End world.

(** ** Runs of [main] in a given world *)

Module instances.

Import ssh_detector config main world.

(** A run against a server that accepts [admin]: the second password of the
    list succeeds. *)
Definition second_password : connect_call :=
  call_of default_detector "10.0.0.1" 22 "root" (Password "admin").
Definition before_second_password : trace :=
  [EConnect (call_of default_detector "10.0.0.1" 22 "root" (Password "123456"))
     (Raises (AuthenticationException "Authentication failed."));
   ELog ssh_detector.logger ERROR "身份验证失败: Authentication failed."].
Definition after_second_password : trace :=
  [success_log "10.0.0.1" "root" "admin"; EClose].


(** The configuration of a run: the port of SSH, the other entries at their
    defaults. *)
Definition ssh_config : yaml :=
  YMap [("protocols", YMap [("ssh", YMap [("port", YInt 22)])])].

(** The deadline of no task expires; the deadline of every task expires at
    once. *)
Definition in_time : trace → option nat := λ _, None.

Definition clock : trace → string := λ _, "2024-01-01 00:00:00".

(** The run of [main] for one target and one user in such a world. *)
Definition run_main (connect : nat → connect_call → connect_outcome)
    (deadline : trace → option nat) (passwords : list string)
  : res (list (gmap string pyval)) * trace :=
  gather loads connect inactive half deadline clock ssh_config
    (tasks ["10.0.0.1"] ["root"] ["ssh"]) passwords [] [].

End instances.



(** ** What a computation may emit *)

(** Every event a computation adds to the trace satisfies [P], whatever the
    trace it starts from, and whether it returns or raises. *)
Definition emits {A} (P : event → Prop) (m : M A) : Prop :=
  ∀ t, ∃ ev, (m t).2 = t ++ ev ∧ Forall P ev.

(** Every value a computation returns satisfies [Q]. *)
Definition returns {A} (Q : A → Prop) (m : M A) : Prop :=
  ∀ t a t', m t = (Val a, t') → Q a.

(** The credentials [detect] is given. *)
Definition given (passwords : option (list string))
    (private_key_path : option string) (cred : credential) : Prop :=
  match cred with
  | Password p => p ∈ default [] passwords
  | Key k => private_key_path = Some k
  end.

(** The two checks of [detect] pass. *)
Definition checks_pass (target : string) (port : Z) (username : string) : Prop :=
  1 ≤ port ≤ 65535 ∧ target ≠ "" ∧ username ≠ "".

(** The line [detect] logs before it returns a failure. *)
Definition failure_log (target : string) (port : Z) : event :=
  ELog ssh_detector.logger DEBUG
    ("检测失败 - 目标: " +:+ target +:+ ":" +:+ pretty port +:+ ", 错误: "
     +:+ "None").

(** The result of [detect] when no credential succeeds. *)
Definition failure_result (target : string) (port : Z) (username : string)
  : gmap string pyval :=
  ssh_detector.result_dict target port username (VBool false) VNone VNone VNone.

(** ** The detection of a task *)

Module task.

Import ssh_detector config main.

(** The detection [run_detection] waits for: [detector.detect(target, port,
    username, password_list)], the port read from the configuration. *)
Definition awaited
    (from_private_key_file : key_type → string → option string → bool)
    (connect : nat → connect_call → connect_outcome)
    (transport_active : nat → bool) (random : nat → Q) (config : yaml)
    (detector : SSHDetector) (target username : string)
    (password_list : list string) : M (gmap string pyval) :=
  match as_int (task_port config "ssh") with
  | Some port =>
      detect from_private_key_file connect transport_active random detector
        target port username (Some password_list) None None
  | None => raise (TypeError "'<=' not supported")
  end.

End task.

(** ** More worlds *)

Module servers.

Import ssh_detector.

(** No key file loads. *)
Definition unloadable : key_type → string → option string → bool :=
  λ _ _ _, false.

(** A server that rejects every credential. *)
Definition rejects : nat → connect_call → connect_outcome :=
  world.always (Raises (AuthenticationException "Authentication failed.")).

(** A server to which no connection can be established. *)
Definition unreachable : nat → connect_call → connect_outcome :=
  world.always (Raises (NoValidConnectionsError "Unable to connect")).

(** A server that rejects every credential but the password [slow], on
    which the connection times out. *)
Definition times_out_on (slow : string) : nat → connect_call → connect_outcome :=
  λ _ c,
    if decide (call_credential c = Password slow)
    then Raises (OtherException "timed out")
    else Raises (AuthenticationException "Authentication failed.").

End servers.

(** ** [utils/config.py]: [Config.set] *)

Module Config.

Import config.

(** [config[key] = value] on a dictionary: the value of a key that is present
    is replaced where it stands, a new key is added at the end. *)
Fixpoint setitem (entries : list (string * yaml)) (key : string) (value : yaml)
  : list (string * yaml) :=
  match entries with
  | [] => [(key, value)]
  | (k, v) :: rest =>
      if String.eqb k key then (k, value) :: rest
      else (k, v) :: setitem rest key value
  end.

(** The loop of [Config.set] over [keys[:-1]], followed by the assignment
    to [keys[-1]], on the document [config]; the dictionaries of the document
    are updated in place, so that the document after the call is the
    document with the dictionary on the path replaced by its updated value.
    A missing key of the path is bound to a new dictionary.  [None] stands
    for the [TypeError] raised where the path meets a scalar; the document
    is then as it was.  The document shares no dictionary between two of its
    places (it has no YAML alias). *)
Fixpoint set_keys (keys : list string) (last : string) (value : yaml)
    (config : yaml) {struct keys} : option yaml :=
  match config with
  | YMap entries =>
      match keys with
      | [] => Some (YMap (setitem entries last value))
      | key_part :: keys' =>
          let child := default (YMap []) (subscript entries key_part) in
          match set_keys keys' last value child with
          | Some child' => Some (YMap (setitem entries key_part child'))
          | None => None
          end
      end
  | _ => None
  end.

(** [Config.set]: [self.config] after the call. *)
Definition set (config : yaml) (key : string) (value : yaml) : option yaml :=
  let keys := split_dot key in
  set_keys (removelast keys) (List.last keys "") value config.

(** A scalar of a document. *)
Definition scalar (v : yaml) : bool :=
  match v with YMap _ => false | _ => true end.

End Config.

(** ** [utils/dictionary_loader.py] *)

Module dictionary_loader.

Definition logger : string := "dictionary_loader".

Section loader.

(** The runtime and the file system.
    - [strip s]: [s.strip()].
    - [exists_ path]: [os.path.exists(path)].
    - [read path]: the lines the iteration over the file yields, and the
      exception that ends the [with] statement, if one does; an exception of
      [open] yields no line. *)
Variable strip : string → string.
Variable exists_ : string → bool.
Variable read : string → list string * option exn.

(** One iteration of the loop of [load_passwords] on [passwords]. *)
Definition add_line (passwords : list string) (line : string) : list string :=
  let password := strip line in
  if truthy (VStr password) && negb (bool_decide (password ∈ passwords))
  then passwords ++ [password]
  else passwords.

(** [DictionaryLoader.load_passwords] *)
Definition load_passwords (file_path : string) : M (list string) :=
  let passwords : list string := [] in
  if negb (truthy (VStr file_path)) || negb (exists_ file_path) then
    log logger ERROR ("密码字典文件不存在: " +:+ file_path);;
    mret passwords
  else
    let '(lines, failure) := read file_path in
    let passwords := foldl add_line passwords lines in
    match failure with
    | None =>
        log logger INFO
          ("成功加载密码字典，共 " +:+ pretty (length passwords) +:+ " 个密码");;
        mret passwords
    | Some e =>
        log logger ERROR ("加载密码字典失败: " +:+ exn_str e);;
        mret passwords
    end.

(** [load_password_dictionary] *)
Definition load_password_dictionary (file_path : string) : M (list string) :=
  load_passwords file_path.

End loader.

End dictionary_loader.

(** ** The language of a regular expression *)

Module language.

Import main.

(** The strings a regular expression matches in full. *)
Inductive matches : regex → string → Prop :=
| matches_eps : matches Eps ""
| matches_chr c : matches (Chr c) (String c "")
| matches_class lo hi c :
    in_class lo hi c = true → matches (Class lo hi) (String c "")
| matches_cat r1 r2 s1 s2 :
    matches r1 s1 → matches r2 s2 → matches (Cat r1 r2) (s1 +:+ s2)
| matches_alt_l r1 r2 s : matches r1 s → matches (Alt r1 r2) s
| matches_alt_r r1 r2 s : matches r2 s → matches (Alt r1 r2) s.

(** A decimal digit, and its value. *)
Definition is_digit (c : ascii) : bool := in_class "0" "9" c.
Definition digit_value (c : ascii) : N := (N_of_ascii c - 48)%N.

(** One to three decimal digits that write a number of 0..255. *)
Definition octet_text (s : string) : bool :=
  match s with
  | String a "" => is_digit a
  | String a (String b "") => is_digit a && is_digit b
  | String a (String b (String c "")) =>
      is_digit a && is_digit b && is_digit c
      && (100 * digit_value a + 10 * digit_value b + digit_value c <=? 255)%N
  | _ => false
  end.

(** Four texts separated by dots. *)
Definition dotted (a b c d : string) : string :=
  a +:+ "." +:+ b +:+ "." +:+ c +:+ "." +:+ d.

Definition newline : string := String (ascii_of_nat 10) "".

End language.

(** ** [detectors/rdp_detector.py] *)

Module rdp_detector.

Definition logger : string := "rdp_detector".

(** [win32con.LOGON32_LOGON_NETWORK] and [win32con.LOGON32_PROVIDER_DEFAULT] *)
Definition LOGON32_LOGON_NETWORK : Z := 3.
Definition LOGON32_PROVIDER_DEFAULT : Z := 0.

(** The arguments of one call of [win32security.LogonUser]. *)
Record logon_call := {
  logon_username : string;
  logon_domain : string;
  logon_password : string;
  logon_type : Z;
  logon_provider : Z
}.

(** What one call of [LogonUser] does: it returns a handle, which is truthy
    or not, or it raises. *)
Inductive logon_outcome :=
| Token (valid : bool)
| LogonRaises (e : exn).

(** The events of a detection, in program order. *)
Inductive rdp_event :=
| ELogonUser (c : logon_call) (o : logon_outcome)
| ETokenClose
| ERdpLog (lvl : level) (msg : string).

(** The calls of [LogonUser] of a trace, and the passwords they try. *)
Definition logons (t : list rdp_event) : list (logon_call * logon_outcome) :=
  omap (λ e, match e with ELogonUser c o => Some (c, o) | _ => None end) t.
Definition tried (t : list rdp_event) : list string :=
  (λ co, logon_password co.1) <$> logons t.

Record RDPDetector := {
  target : string;
  username : string;
  passwords : list string;
  timeout : Z;
  max_workers : Z
}.

(** [RDPDetector.__init__] *)
Definition __init__ (target username : string) (passwords : list string)
    (timeout max_workers : Z) : RDPDetector :=
  {| target := target; username := username; passwords := passwords;
     timeout := timeout; max_workers := max_workers |}.

Section detector.

(** [LogonUser k c]: what the call [c] of [win32security.LogonUser] does when
    [k] calls were made before it.  [token.Close()] and the logger do not
    raise. *)
Variable LogonUser : nat → logon_call → logon_outcome.

Variable self : RDPDetector.

(** The call of [LogonUser] that tries [password]. *)
Definition call_of (password : string) : logon_call :=
  {| logon_username := username self; logon_domain := "";
     logon_password := password; logon_type := LOGON32_LOGON_NETWORK;
     logon_provider := LOGON32_PROVIDER_DEFAULT |}.

(** The loop of [detect] over the passwords left, on the result and the
    trace so far. *)
Fixpoint try_passwords (passwords : list string) (result : gmap string pyval)
    (t : list rdp_event) : gmap string pyval * list rdp_event :=
  match passwords with
  | [] => (result, t)
  | password :: rest =>
      let o := LogonUser (length (logons t)) (call_of password) in
      let t := t ++ [ELogonUser (call_of password) o] in
      match o with
      | Token true =>
          let result := <["success" := VBool true]> result in
          let result := <["password" := VStr password]> result in
          (result,
           t ++ [ERdpLog INFO
                   ("RDP 弱口令检测成功 - 目标: " +:+ target self +:+ ", 用户名: "
                    +:+ username self +:+ ", 密码: " +:+ password);
                 ETokenClose])
      | Token false => try_passwords rest result t
      | LogonRaises e =>
          try_passwords rest result
            (t ++ [ERdpLog DEBUG
                     ("尝试密码 " +:+ password +:+ " 失败: " +:+ exn_str e)])
      end
  end.

(** [RDPDetector.detect] *)
Definition detect (t : list rdp_event) : gmap string pyval * list rdp_event :=
  let result : gmap string pyval :=
    {[ "target" := VStr (target self); "username" := VStr (username self);
       "success" := VBool false; "password" := VNone; "error" := VNone ]} in
  try_passwords (passwords self) result t.

End detector.

End rdp_detector.

(** The result of [RDPDetector.detect] when no password gives a token, and
    when [password] does. *)
Definition rdp_failure (self : rdp_detector.RDPDetector) : gmap string pyval :=
  {[ "target" := VStr (rdp_detector.target self);
     "username" := VStr (rdp_detector.username self);
     "success" := VBool false; "password" := VNone; "error" := VNone ]}.
Definition rdp_success (self : rdp_detector.RDPDetector) (password : string)
  : gmap string pyval :=
  <["password" := VStr password]> (<["success" := VBool true]> (rdp_failure self)).

(** The line [RDPDetector.detect] logs for the password that gives a token,
    and for a password on which [LogonUser] raises. *)
Definition rdp_success_log (self : rdp_detector.RDPDetector) (password : string)
  : rdp_detector.rdp_event :=
  rdp_detector.ERdpLog INFO
    ("RDP 弱口令检测成功 - 目标: " +:+ rdp_detector.target self +:+ ", 用户名: "
     +:+ rdp_detector.username self +:+ ", 密码: " +:+ password).
Definition rdp_failure_log (password : string) (e : exn)
  : rdp_detector.rdp_event :=
  rdp_detector.ERdpLog DEBUG
    ("尝试密码 " +:+ password +:+ " 失败: " +:+ exn_str e).

(** A local account on which every logon raises, and one whose password is
    [good]. *)
Definition logon_denied
  : nat → rdp_detector.logon_call → rdp_detector.logon_outcome :=
  λ _ _, rdp_detector.LogonRaises (OtherException "Logon failure").
Definition logon_accepts (good : string)
  : nat → rdp_detector.logon_call → rdp_detector.logon_outcome :=
  λ _ c,
    if String.eqb (rdp_detector.logon_password c) good
    then rdp_detector.Token true
    else rdp_detector.LogonRaises (OtherException "Logon failure").
Definition rdp_instance : rdp_detector.RDPDetector :=
  rdp_detector.__init__ "10.0.0.1" "Administrator" ["123456"; "admin"; "root"]
    10 5.

(** ** [utils/result_handler.py]: the report *)

Module report.

Import result_handler.

(** The double quote and the line feed. *)
Definition dq : string := String (ascii_of_nat 34) EmptyString.
Definition nl : string := String (ascii_of_nat 10) EmptyString.

(** The f-string of [generate_report], with the values of its five
    expressions. *)
Definition template (timestamp total successes failures rows : string)
  : string :=
  String.concat nl
    ["<!DOCTYPE html>";
     "<html lang=" +:+ dq +:+ "zh-CN" +:+ dq +:+ ">";
     "<head>";
     "    <meta charset=" +:+ dq +:+ "UTF-8" +:+ dq +:+ ">";
     "    <meta name=" +:+ dq +:+ "viewport" +:+ dq +:+ " content=" +:+ dq +:+ "width=device-width, initial-scale=1.0" +:+ dq +:+ ">";
     "    <title>弱口令检测报告</title>";
     "    <style>";
     "        body { font-family: Arial, sans-serif; line-height: 1.6; margin: 20px; color: #333; }";
     "        h1 { color: #2c3e50; border-bottom: 2px solid #3498db; padding-bottom: 10px; }";
     "        .summary { background-color: #f8f9fa; padding: 15px; border-radius: 5px; margin-bottom: 20px; }";
     "        .result-table { width: 100%; border-collapse: collapse; margin-bottom: 20px; }";
     "        .result-table th, .result-table td { border: 1px solid #ddd; padding: 8px; text-align: left; }";
     "        .result-table th { background-color: #f2f2f2; }";
     "        .success { color: #27ae60; font-weight: bold; }";
     "        .failure { color: #e74c3c; }";
     "    </style>";
     "</head>";
     "<body>";
     "    <h1>弱口令检测报告</h1>";
     "    <p>生成时间: " +:+ timestamp +:+ "</p>";
     EmptyString;
     "    <div class=" +:+ dq +:+ "summary" +:+ dq +:+ ">";
     "        <h2>检测摘要</h2>";
     "        <p>总检测目标: " +:+ total +:+ "</p>";
     "        <p>成功检测到弱口令: " +:+ successes +:+ "</p>";
     "        <p>检测失败: " +:+ failures +:+ "</p>";
     "    </div>";
     EmptyString;
     "    <h2>详细结果</h2>";
     "    <table class=" +:+ dq +:+ "result-table" +:+ dq +:+ ">";
     "        <tr>";
     "            <th>时间戳</th>";
     "            <th>协议</th>";
     "            <th>目标</th>";
     "            <th>端口</th>";
     "            <th>用户名</th>";
     "            <th>密码</th>";
     "            <th>结果</th>";
     "        </tr>";
     "        " +:+ rows;
     "    </table>";
     "</body>";
     "</html>"].

(** [sum(1 for r in self.results if r['success'])] and
    [sum(1 for r in self.results if not r['success'])]; the key read is one
    [add_result] writes. *)
Definition successes (results : list (gmap string pyval)) : nat :=
  length (List.filter (λ r, truthy (field r "success")) results).
Definition failures (results : list (gmap string pyval)) : nat :=
  length (List.filter (λ r, negb (truthy (field r "success"))) results).

(** [html_content], for the time [timestamp]. *)
Definition html_content (timestamp : string)
    (results : list (gmap string pyval)) : string :=
  template timestamp (pretty (length results)) (pretty (successes results))
    (pretty (failures results)) (_generate_table_rows results).

Section writer.

(** [now t]: the formatted [datetime.now()] after the events [t].
    [write path content]: the exception that [open(path, 'w')] or
    [f.write(content)] raises, if one does. *)
Variable now : trace → string.
Variable write : string → string → option exn.

(** [ResultHandler.generate_report]: the text written to [report_file], when
    it was written. *)
Definition generate_report (report_file : string)
    (results : list (gmap string pyval)) : M (option string) := λ t,
  let html_content := html_content (now t) results in
  match write report_file html_content with
  | None =>
      (log logger INFO ("检测报告已生成: " +:+ report_file);;
       mret (Some html_content)) t
  | Some e =>
      (log logger ERROR ("生成报告失败: " +:+ exn_str e);;
       mret None) t
  end.

End writer.

End report.

(** ** [main.py]: the loaders and [main] *)

Module WeakPasswordDetector.

Import config main.

(** What [with open(source, 'r') as f: [... for line in f ...]] does: it
    yields the lines of the file, or raises [FileNotFoundError], or raises
    another exception. *)
Inductive file_outcome :=
| Lines (lines : list string)
| FileNotFound
| ReadRaises (e : exn).

(** What [Config.load_from_file] finds at the path: no file, a document, or
    an exception of [open] or of [yaml.safe_load]. *)
Inductive config_file :=
| NoFile
| Document (document : yaml)
| LoadRaises (e : exn).

(** The arguments of the command line. *)
Record args := {
  target_file : option string;
  target : option string;
  username_file : option string;
  username : option string;
  protocols : list string;
  report_file : string
}.

(** Truthiness of an argument that may be absent. *)
Definition given_argument (a : option string) : bool :=
  match a with Some s => truthy (VStr s) | None => false end.

Section program.

(** The runtime, the file system and the network. *)
Variable strip : string → string.
Variable isfile : string → bool.
Variable open_ : string → file_outcome.
Variable exists_ : string → bool.
Variable read : string → list string * option exn.
Variable load : string → config_file.
Variable write : string → string → option exn.
Variable from_private_key_file :
  ssh_detector.key_type → string → option string → bool.
Variable connect : nat → connect_call → connect_outcome.
Variable transport_active : nat → bool.
Variable random : nat → Q.
Variable deadline : trace → option nat.
Variable now : trace → string.

(** [Config.load_from_file]: [self.config] after the call, and the value
    returned. *)
Definition load_from_file (config_path : string) : M (yaml * bool) :=
  match load config_path with
  | Document document =>
      log "config" INFO ("配置文件加载成功: " +:+ config_path);;
      mret (document, true)
  | NoFile =>
      log "config" WARNING
        ("配置文件 " +:+ config_path +:+ " 不存在，使用默认配置");;
      mret (default_config, false)
  | LoadRaises e =>
      log "config" ERROR ("加载配置文件失败: " +:+ exn_str e);;
      mret (default_config, false)
  end.

(** [WeakPasswordDetector.load_usernames] *)
Definition load_usernames (username_source : string) : M (list string) :=
  if isfile username_source then
    match open_ username_source with
    | Lines lines =>
        mret (strip <$> List.filter (λ line, truthy (VStr (strip line))) lines)
    | FileNotFound =>
        log logger ERROR ("用户名文件 " +:+ username_source +:+ " 不存在");;
        mret []
    | ReadRaises e => raise e
    end
  else mret [strip username_source].

(** [WeakPasswordDetector.load_targets] *)
Definition load_targets (target_source : string) : M (list string) :=
  if isfile target_source then
    match open_ target_source with
    | Lines lines =>
        mret (strip <$> List.filter (λ line, truthy (VStr (strip line))) lines)
    | FileNotFound =>
        log logger ERROR ("目标文件 " +:+ target_source +:+ " 不存在");;
        mret []
    | ReadRaises e => raise e
    end
  else mret [strip target_source].

(** [WeakPasswordDetector.main]; [results] is [self.result_handler.results]
    before the call.  The value is [self.result_handler.results] after the
    call and the report written, if one was. *)
Definition main (password_file : string) (a : args)
    (results : list (gmap string pyval))
  : M (list (gmap string pyval) * option string) :=
  '(config, _) ← load_from_file "config.yaml";
  targets ←
    (if given_argument (target_file a)
     then load_targets (default "" (target_file a))
     else mret (if given_argument (target a) then [default "" (target a)]
                else []));
  if negb (nonempty targets) then
    log logger ERROR "未找到检测目标，请检查目标文件";;
    mret (results, None)
  else
    usernames ←
      (if given_argument (username_file a)
       then load_usernames (default "" (username_file a))
       else mret (if given_argument (username a) then [default "" (username a)]
                  else []));
    passwords ←
      dictionary_loader.load_password_dictionary strip exists_ read
        password_file;
    if negb (nonempty passwords) then
      log logger ERROR "未找到有效密码字典";;
      mret (results, None)
    else
      results ←
        gather from_private_key_file connect transport_active random deadline
          now config (tasks targets usernames (protocols a)) passwords results;
      (if nonempty results then
         log logger WARNING
           ("弱口令检测完成，共发现 " +:+ pretty (length results) +:+ " 个弱口令")
       else log logger INFO "弱口令检测完成，未发现任何弱口令");;
      written ← report.generate_report now write (report_file a) results;
      mret (results, written).

End program.

End WeakPasswordDetector.

(** A command line for one target and one user, and a file system that
    holds no file. *)
Definition one_target : WeakPasswordDetector.args :=
  {| WeakPasswordDetector.target_file := None;
     WeakPasswordDetector.target := Some "10.0.0.1";
     WeakPasswordDetector.username_file := None;
     WeakPasswordDetector.username := Some "root";
     WeakPasswordDetector.protocols := ["ssh"];
     WeakPasswordDetector.report_file := "report.html" |}.
Definition no_file : string → bool := λ _, false.
Definition nothing_to_open : string → WeakPasswordDetector.file_outcome :=
  λ _, WeakPasswordDetector.FileNotFound.
Definition nothing_to_read : string → list string * option exn :=
  λ _, ([], None).
Definition no_configuration : string → WeakPasswordDetector.config_file :=
  λ _, WeakPasswordDetector.NoFile.
Definition writable : string → string → option exn := λ _ _, None.
Definition unstripped : string → string := λ s, s.

(** * Properties *)

(** ** Construction of the detector *)


(** ** Traces *)

Lemma connects_app (t1 t2 : trace) : connects (t1 ++ t2) = connects t1 ++ connects t2.
Proof. apply omap_app. Qed.

Lemma attempts_app (t1 t2 : trace) : attempts (t1 ++ t2) = attempts t1 ++ attempts t2.
Proof. unfold attempts. by rewrite connects_app, fmap_app. Qed.

Lemma sleeps_app (t1 t2 : trace) : sleeps (t1 ++ t2) = sleeps t1 ++ sleeps t2.
Proof. apply omap_app. Qed.

Lemma draws_app (t1 t2 : trace) : draws (t1 ++ t2) = draws t1 ++ draws t2.
Proof. apply omap_app. Qed.

Lemma connects_reverse_length (t : trace) :
  length (connects (reverse t)) = length (connects t).
Proof.
  induction t as [|e t IH]; [done|].
  rewrite reverse_cons, connects_app, length_app, IH.
  destruct e; simpl; lia.
Qed.

Lemma passwords_tried_app (t1 t2 : trace) :
  passwords_tried (t1 ++ t2) = passwords_tried t1 ++ passwords_tried t2.
Proof. unfold passwords_tried. by rewrite attempts_app, omap_app. Qed.

Lemma silent_nil : silent [].
Proof. done. Qed.

Lemma silent_app (ev1 ev2 : trace) : silent ev1 → silent ev2 → silent (ev1 ++ ev2).
Proof.
  intros [H1 H2] [H3 H4]. split.
  - by rewrite connects_app, H1, H3.
  - by rewrite sleeps_app, H2, H4.
Qed.

Lemma silent_attempts (ev : trace) : silent ev → attempts ev = [].
Proof. intros [H _]. unfold attempts. by rewrite H. Qed.

Lemma silent_passwords_tried (ev : trace) : silent ev → passwords_tried ev = [].
Proof. intros H. unfold passwords_tried. by rewrite (silent_attempts _ H). Qed.

Lemma silent_no_success (ev : trace) : silent ev → no_success ev.
Proof. intros [H _]. unfold no_success. rewrite H. constructor. Qed.

Lemma no_success_app (ev1 ev2 : trace) :
  no_success ev1 → no_success ev2 → no_success (ev1 ++ ev2).
Proof. unfold no_success. rewrite connects_app, Forall_app. auto. Qed.

Lemma no_success_raises (c : connect_call) (e : exn) (ev : trace) :
  no_success ev → no_success (EConnect c (Raises e) :: ev).
Proof. intros H. constructor; [done | exact H]. Qed.

(** A successful call of [connect] in an event list that has none before it
    and no call after it is found at one place only. *)
Lemma success_unique (ev0 tail ev1 ev2 : trace) (c c' : connect_call) :
  no_success ev0 → connects tail = [] →
  ev0 ++ EConnect c Connected :: tail = ev1 ++ EConnect c' Connected :: ev2 →
  ev1 = ev0 ∧ c' = c ∧ ev2 = tail.
Proof.
  revert ev1. induction ev0 as [|e ev0 IH]; intros ev1 Hno Htail Heq.
  - destruct ev1 as [|e1 ev1]; simpl in Heq.
    + by injection Heq as -> ->.
    + injection Heq as <- Heq. exfalso.
      rewrite Heq, connects_app in Htail.
      apply app_eq_nil in Htail as [_ Htail]. discriminate.
  - destruct ev1 as [|e1 ev1]; simpl in Heq.
    + injection Heq as -> _. exfalso. by inversion Hno.
    + injection Heq as -> Heq.
      assert (Hno' : no_success ev0).
      { unfold no_success in *. destruct e1; simpl in Hno; try done.
        by inversion Hno. }
      destruct (IH ev1 Hno' Htail Heq) as (-> & -> & ->). done.
Qed.

(** ** One attempt *)

Lemma range_nonpos (n : Z) : n ≤ 0 → range n = [].
Proof. intros H. unfold range. by replace (Z.to_nat n) with 0%nat by lia. Qed.

Lemma range_pos (n : Z) : 0 < n → ∃ rest, range n = 0 :: rest.
Proof.
  intros H. unfold range.
  destruct (Z.to_nat n) as [|k] eqn:Hk; [lia|]. simpl. eauto.
Qed.

Section attempt.

Import ssh_detector.

Variable from_private_key_file : key_type → string → option string → bool.
Variable connect : nat → connect_call → connect_outcome.
Variable transport_active : nat → bool.
Variable random : nat → Q.
Variable self : SSHDetector.

#[local] Arguments String.append : simpl never.
#[local] Arguments pretty : simpl never.

(** Running the primitive actions of the monad. *)
Ltac run :=
  unfold random_uniform, sleep, log, ssh_close, emit, raise,
    mbind, M_bind, mret, M_ret; cbn.

Lemma finally_close_run (t : trace) :
  ∃ tail, finally_close transport_active t = (Val (), t ++ tail) ∧ silent tail.
Proof.
  unfold finally_close, ssh_close, emit.
  destruct (client_active transport_active t).
  - by exists [EClose].
  - exists []. by rewrite app_nil_r.
Qed.

Lemma client_closed (t : trace) : client_active transport_active (t ++ [EClose]) = false.
Proof. unfold client_active. by rewrite reverse_app. Qed.

(** One iteration of the inner password loop makes one call of [connect];
    what follows the call is silent.  When the call returns, the iteration
    returns the result with the password in it; when it raises a handled
    exception the iteration ends in [break]; any other exception leaves it. *)
Lemma password_attempt_run target port username password attempt result t :
  let c := call_of self target port username (Password password) in
  let o := connect (length (connects t)) c in
  ∃ r tail,
    password_attempt connect transport_active self target port username
      password attempt result t = (r, t ++ EConnect c o :: tail) ∧
    silent tail ∧
    match o with
    | Connected =>
        r = Val (Return (<["password" := VStr password]>
                           (<["success" := VBool true]> result))) ∧
        tail = [success_log target username password; EClose]
    | Raises e =>
        if handled e
        then ∃ err, r = Val (Break (<["error" := VStr err]> result))
        else r = Exc e
    end.
Proof.
  intros c o.
  unfold password_attempt, try_finally, try_except, ssh_connect, log,
    ssh_close, emit, raise.
  unfold mbind, M_bind, mret, M_ret.
  fold (call_of self target port username (Password password)). fold c. fold o.
  destruct o as [|e].
  - cbn. unfold finally_close. rewrite client_closed.
    eexists _, _. split; [|split; [|done]].
    + rewrite <- !app_assoc. simpl. reflexivity.
    + done.
  - destruct e; cbn;
      match goal with
      | |- context [finally_close _ ?t'] =>
          destruct (finally_close_run t') as (tail & -> & Htail)
      end;
      rewrite <- ?app_assoc; simpl;
      eexists _, _; (split; [reflexivity|]); (split; [|by eauto]);
      try exact Htail;
      apply (silent_app [_] tail); done.
Qed.

(** The inner loop for one password.  With [max_retries <= 0] it makes no
    call at all. *)
Lemma password_retries_none target port username password result t :
  max_retries self ≤ 0 →
  password_retries connect transport_active self target port username
    password result t = (Val (Next result), t).
Proof.
  intros H. unfold password_retries. by rewrite (range_nonpos _ H).
Qed.

(** With [max_retries >= 1] the inner loop makes exactly one call whatever the
    call does: no handler of the iteration falls through to a second one. *)
Lemma password_retries_run target port username password result t :
  0 < max_retries self →
  let c := call_of self target port username (Password password) in
  let o := connect (length (connects t)) c in
  ∃ r tail,
    password_retries connect transport_active self target port username
      password result t = (r, t ++ EConnect c o :: tail) ∧
    silent tail ∧
    match o with
    | Connected =>
        r = Val (Return (<["password" := VStr password]>
                           (<["success" := VBool true]> result))) ∧
        tail = [success_log target username password; EClose]
    | Raises e =>
        if handled e
        then ∃ err, r = Val (Next (<["error" := VStr err]> result))
        else r = Exc e
    end.
Proof.
  intros Hpos c o. unfold password_retries.
  destruct (range_pos _ Hpos) as [rest ->].
  destruct (password_attempt_run target port username password 0 result t)
    as (r & tail & Hrun & Htail & Hr).
  fold c o in Hrun, Hr.
  unfold mbind, M_bind. simpl. unfold mbind, M_bind. rewrite Hrun.
  destruct o as [|e].
  - destruct Hr as [-> ->]. simpl. eauto 10.
  - destruct (handled e).
    + destruct Hr as [err ->]. simpl. eauto 10.
    + subst r. simpl. eauto.
Qed.

(** ** The password loop *)

Lemma result_dict_success target port username password key_used error :
  result_dict target port username (VBool false) password key_used error
    !! "success" = Some (VBool false).
Proof. reflexivity. Qed.

Lemma password_loop_none target port username passwords result t :
  max_retries self ≤ 0 →
  for_in passwords
    (password_retries connect transport_active self target port username)
    result t = (Val (inl result), t).
Proof.
  intros H. revert result t. induction passwords as [|p ps IH]; intros result t.
  - done.
  - simpl. unfold mbind, M_bind.
    rewrite (password_retries_none _ _ _ _ _ _ H). apply IH.
Qed.

(** With [max_retries >= 1], the outer loop tries the passwords in the order
    of the list, one call each, and never sleeps.  It is left by exhaustion
    when every call raised a handled exception, by [return] at the first call
    that succeeds, and by the first exception of another class. *)
Lemma password_loop_run target port username :
  0 < max_retries self →
  ∀ passwords result t,
    result !! "success" = Some (VBool false) →
    ∃ r ev,
      for_in passwords
        (password_retries connect transport_active self target port username)
        result t = (r, t ++ ev) ∧
      sleeps ev = [] ∧
      match r with
      | Val (inl d) =>
          no_success ev ∧ passwords_tried ev = passwords ∧
          d !! "success" = Some (VBool false)
      | Val (inr d) =>
          ∃ ev0 n p tail,
            ev = ev0 ++ EConnect (call_of self target port username (Password p))
                          Connected :: tail ∧
            no_success ev0 ∧ silent tail ∧
            passwords_tried ev0 = take n passwords ∧ passwords !! n = Some p ∧
            d !! "success" = Some (VBool true) ∧
            d !! "password" = Some (VStr p) ∧
            tail = [success_log target username p; EClose]
      | Exc e =>
          no_success ev ∧ ∃ n, passwords_tried ev = take n passwords
      end.
Proof.
  intros Hpos. induction passwords as [|p ps IH]; intros result t Hres.
  - exists (Val (inl result)), []. rewrite app_nil_r. repeat split; try done.
    constructor.
  - destruct (password_retries_run target port username p result t Hpos)
      as (r & tail & Hrun & Htail & Hr).
    simpl. unfold mbind, M_bind. rewrite Hrun.
    set (c := call_of self target port username (Password p)) in *.
    destruct (connect (length (connects t)) c) as [|e] eqn:Ho.
    + destruct Hr as [-> Htl]. simpl.
      eexists _, _. split; [reflexivity|]. split.
      { simpl. apply Htail. }
      exists [], 0%nat, p, tail.
      split_and!; try done; try apply Htail; try constructor.
      * by rewrite lookup_insert_ne, lookup_insert_eq.
      * by rewrite lookup_insert_eq.
    + destruct (handled e) eqn:He.
      * destruct Hr as [err ->].
        destruct (IH (<["error" := VStr err]> result)
                     (t ++ EConnect c (Raises e) :: tail)) as (r' & ev' & Hrun' & Hsl & Hr').
        { by rewrite lookup_insert_ne. }
        rewrite Hrun'. rewrite <- app_assoc.
        eexists r', _. split; [reflexivity|]. split.
        { change (EConnect c (Raises e) :: tail) with ([EConnect c (Raises e)] ++ tail).
          rewrite !sleeps_app, Hsl. destruct Htail as [_ ->]. done. }
        assert (Hpt : ∀ ev, passwords_tried ((EConnect c (Raises e) :: tail) ++ ev)
                            = p :: passwords_tried ev).
        { intros ev. change (EConnect c (Raises e) :: tail)
            with ([EConnect c (Raises e)] ++ tail).
          rewrite !passwords_tried_app, (silent_passwords_tried _ Htail). done. }
        assert (Hns : ∀ ev, no_success ev →
                            no_success ((EConnect c (Raises e) :: tail) ++ ev)).
        { intros ev Hev. apply no_success_app; [|done].
          apply no_success_raises, silent_no_success, Htail. }
        destruct r' as [[d|d]|e'].
        -- destruct Hr' as (Hno & Htried & Hd). repeat split; auto.
           by rewrite Hpt, Htried.
        -- destruct Hr' as (ev0 & n & p' & tail' & -> & Hno & Hsil & Htried & Hn & Hd).
           exists ((EConnect c (Raises e) :: tail) ++ ev0), (S n), p', tail'.
           split_and!; try apply Hsil; try apply Hd; auto.
           ++ by rewrite <- app_assoc.
           ++ by rewrite Hpt, Htried.
        -- destruct Hr' as (Hno & n & Htried). split; auto.
           exists (S n). by rewrite Hpt, Htried.
      * subst r. eexists _, _. split; [reflexivity|]. split.
        { simpl. apply Htail. }
        split.
        -- apply no_success_raises, silent_no_success, Htail.
        -- exists 1%nat. change (EConnect c (Raises e) :: tail)
             with ([EConnect c (Raises e)] ++ tail).
           rewrite passwords_tried_app, (silent_passwords_tried _ Htail).
           simpl. by rewrite take_0.
Qed.

(** ** The key loop *)

Lemma load_private_key_run key_path password t :
  _load_private_key from_private_key_file key_path password t =
  if loadable from_private_key_file key_path password then (Val (Key key_path), t)
  else (Exc (SSHException
               ("无法加载私钥文件: " +:+ key_path +:+ "，不支持的密钥类型或文件格式")),
        t ++ [ELog logger ERROR
                ("无法加载私钥文件: " +:+ key_path +:+ "，尝试了所有支持的密钥类型")]).
Proof.
  unfold _load_private_key, loadable. simpl. unfold mbind, M_bind, mret, M_ret.
  destruct (from_private_key_file RSAKey _ _); [done|].
  destruct (from_private_key_file DSSKey _ _); [done|].
  destruct (from_private_key_file ECDSAKey _ _); [done|].
  destruct (from_private_key_file Ed25519Key _ _); done.
Qed.

Lemma connects_nil_no_success (ev : trace) : connects ev = [] → no_success ev.
Proof. unfold no_success. intros ->. constructor. Qed.

Lemma connects_nil_passwords_tried (ev : trace) :
  connects ev = [] → passwords_tried ev = [].
Proof. unfold passwords_tried, attempts. by intros ->. Qed.

(** One iteration of the key loop never raises.  It returns the result with
    [success] set when its call of [connect] returns; otherwise it stores an
    error and ends in [break] or falls through, having tried no password. *)
Lemma key_attempt_run target port username key_path key_password attempt result t :
  ∃ r ev,
    key_attempt from_private_key_file connect random self target port username
      key_path key_password attempt result t = (Val r, t ++ ev) ∧
    ((∃ tail, r = Return (<["success" := VBool true]> result) ∧
              ev = EConnect (call_of self target port username (Key key_path))
                     Connected :: tail ∧ silent tail)
     ∨ (no_success ev ∧ passwords_tried ev = [] ∧
        ∃ err, r = Next (<["error" := VStr err]> result)
               ∨ r = Break (<["error" := VStr err]> result))).
Proof.
  unfold key_attempt, try_except.
  unfold mbind at 1. unfold M_bind at 1.
  rewrite load_private_key_run.
  destruct (loadable from_private_key_file key_path key_password).
  - unfold ssh_connect.
    unfold mbind at 1. unfold M_bind at 1.
    fold (call_of self target port username (Key key_path)).
    set (c := call_of self target port username (Key key_path)).
    destruct (connect (length (connects t)) c) as [|e].
    + run. eexists _, _. rewrite <- !app_assoc. split; [reflexivity|].
      left. eexists. split; [done|]. split; [simpl; reflexivity|done].
    + destruct (is_AuthenticationException e);
        [|destruct (attempt <? max_retries self - 1)];
        run; eexists _, _; rewrite <- !app_assoc; (split; [reflexivity|]);
        right; (split_and!; [by apply no_success_raises, connects_nil_no_success
                            | done | eauto]).
  - destruct (attempt <? max_retries self - 1);
      run; eexists _, _; rewrite <- !app_assoc; (split; [reflexivity|]);
      right; (split_and!; [by apply connects_nil_no_success
                          | by apply connects_nil_passwords_tried | eauto]).
Qed.

(** The key loop never raises and tries no password.  It returns a result
    with [success] set at the first call that returns; left otherwise, its
    result has [success] unset. *)
Lemma key_loop_run target port username key_path key_password :
  ∀ attempts_left result t,
    result !! "success" = Some (VBool false) →
    result !! "key_used" = Some (VStr key_path) →
    ∃ r ev,
      for_in attempts_left
        (key_attempt from_private_key_file connect random self target port
           username key_path key_password) result t = (Val r, t ++ ev) ∧
      passwords_tried ev = [] ∧
      match r with
      | inl d => no_success ev ∧ d !! "success" = Some (VBool false)
      | inr d =>
          ∃ ev0 tail,
            ev = ev0 ++ EConnect (call_of self target port username (Key key_path))
                          Connected :: tail ∧
            no_success ev0 ∧ silent tail ∧
            d !! "success" = Some (VBool true) ∧
            d !! "key_used" = Some (VStr key_path)
      end.
Proof.
  induction attempts_left as [|attempt rest IH]; intros result t Hs Hk.
  - exists (inl result), []. rewrite app_nil_r. split_and!; try done. constructor.
  - destruct (key_attempt_run target port username key_path key_password
                attempt result t) as (f & ev & Hrun & Hf).
    simpl. unfold mbind, M_bind. rewrite Hrun.
    destruct Hf as [(tail & -> & -> & Htail) | (Hno & Htried & err & [-> | ->])].
    + eexists (inr _), _. split; [reflexivity|]. split.
      { change (passwords_tried ([EConnect (call_of self target port username
                  (Key key_path)) Connected] ++ tail) = []).
        by rewrite passwords_tried_app, (silent_passwords_tried _ Htail). }
      exists [], tail. split_and!; try done.
      * constructor.
      * by rewrite lookup_insert_eq.
      * by rewrite lookup_insert_ne.
    + destruct (IH (<["error" := VStr err]> result) (t ++ ev))
        as (r' & ev' & Hrun' & Htried' & Hr').
      { by rewrite lookup_insert_ne. }
      { by rewrite lookup_insert_ne. }
      rewrite Hrun', <- app_assoc.
      exists r', (ev ++ ev'). split; [done|]. split.
      { by rewrite passwords_tried_app, Htried, Htried'. }
      destruct r' as [d|d].
      * destruct Hr' as [Hno' Hd]. split; [by apply no_success_app | done].
      * destruct Hr' as (ev0 & tail & -> & Hno' & Htail & Hd).
        exists (ev ++ ev0), tail. rewrite <- app_assoc.
        split_and!; try done; try apply Hd. by apply no_success_app.
    + eexists (inl _), _. split; [reflexivity|]. split; [done|].
      split; [done|]. by rewrite lookup_insert_ne.
Qed.

(** ** The detection *)

Lemma try_key_authentication_run target port username key_path key_password t :
  ∃ d ev,
    _try_key_authentication from_private_key_file connect random self target
      port username key_path key_password t = (Val d, t ++ ev) ∧
    passwords_tried ev = [] ∧
    ((no_success ev ∧ d !! "success" = Some (VBool false))
     ∨ succeeded self target port username (Some key_path) [] (Val d) ev).
Proof.
  unfold _try_key_authentication.
  destruct (key_loop_run target port username key_path key_password
              (range (max_retries self))
              (result_dict target port username (VBool false) VNone
                 (VStr key_path) VNone) t)
    as (r & ev & Hrun & Htried & Hr); [done..|].
  unfold mbind, M_bind. rewrite Hrun. simpl.
  exists (returned r), ev. split; [done|]. split; [done|].
  destruct r as [d|d]; simpl.
  - by left.
  - right. destruct Hr as (ev0 & tail & -> & Hno & Htail & Hs & Hk).
    exists ev0, (Key key_path), tail, d. split_and!; try done.
    rewrite passwords_tried_app in Htried. by apply app_eq_nil in Htried as [? _].
Qed.

Lemma try_password_authentication_run target port username passwords t :
  ∃ r ev,
    _try_password_authentication connect transport_active self target port
      username passwords t = (r, t ++ ev) ∧
    sleeps ev = [] ∧
    (failed r ev ∨ succeeded self target port username None passwords r ev).
Proof.
  unfold _try_password_authentication.
  destruct (Z_lt_le_dec 0 (max_retries self)) as [Hpos|Hnone].
  - destruct (password_loop_run target port username Hpos passwords
                (result_dict target port username (VBool false) VNone VNone VNone)
                t) as (r & ev & Hrun & Hsl & Hr); [done|].
    unfold mbind, M_bind. rewrite Hrun.
    destruct r as [[d|d]|e]; simpl.
    + eexists _, _. split; [reflexivity|]. split; [done|]. left.
      destruct Hr as (Hno & _ & Hd). split; [done|]. by intros ? [= <-].
    + eexists _, _. split; [reflexivity|]. split; [done|]. right.
      destruct Hr as (ev0 & n & p & tail & -> & Hno & Htail & Htried & Hn & Hs & Hp & Htl).
      exists ev0, (Password p), tail, d. split_and!; eauto.
    + eexists _, _. split; [reflexivity|]. split; [done|]. left.
      destruct Hr as (Hno & _). split; [done|]. by intros ? [=].
  - unfold mbind, M_bind. rewrite (password_loop_none _ _ _ _ _ _ Hnone). simpl.
    exists (Val (result_dict target port username (VBool false) VNone VNone VNone)), [].
    rewrite app_nil_r. split; [done|]. split; [done|]. left.
    split; [constructor|]. by intros ? [= <-].
Qed.

Lemma detect_run target port username passwords private_key_path
    private_key_password t :
  ∃ r ev,
    detect from_private_key_file connect transport_active random self target
      port username passwords private_key_path private_key_password t
    = (r, t ++ ev) ∧
    (failed r ev
     ∨ succeeded self target port username private_key_path (default [] passwords)
         r ev).
Proof.
  unfold detect.
  destruct (negb _).
  { run. eexists _, _. split; [reflexivity|]. left. split; [constructor|].
    by intros ? [= <-]. }
  destruct (_ || _).
  { run. eexists _, _. split; [reflexivity|]. left. split; [constructor|].
    by intros ? [= <-]. }
  match goal with
  | |- context [mbind ?k ?m t] => set (cont := k); set (key_phase := m)
  end.
  assert (Hkey : ∃ kr evk,
    key_phase t = (Val kr, t ++ evk) ∧ passwords_tried evk = [] ∧
    match kr with
    | None => no_success evk
    | Some d => succeeded self target port username private_key_path [] (Val d) evk
    end).
  { subst key_phase. destruct private_key_path as [key_path|].
    2: { exists None, []. rewrite app_nil_r. split_and!; try done. constructor. }
    destruct (truthy (VStr key_path)).
    2: { exists None, []. rewrite app_nil_r. split_and!; try done. constructor. }
    destruct (try_key_authentication_run target port username key_path
                private_key_password t) as (d & evk & Hrun & Htried & Hd).
    unfold mbind, M_bind. rewrite Hrun. unfold getitem.
    destruct Hd as [[Hno Hs] | Hs].
    - rewrite Hs. simpl. by exists None, evk.
    - pose proof Hs as (_ & _ & _ & d' & _ & _ & _ & [= <-] & Hs' & _).
      rewrite Hs'. simpl. by exists (Some d), evk. }
  destruct Hkey as (kr & evk & Hk & Htk & Hkr).
  unfold mbind at 1. unfold M_bind at 1. rewrite Hk.
  destruct kr as [d|]; subst cont; cbn beta iota.
  { exists (Val d), evk. split; [done|]. right.
    destruct Hkr as (ev0 & cred & tail & d' & Hev & Hno & Htail & Hd & Hs & Hcred).
    exists ev0, cred, tail, d'. split_and!; try done.
    destruct cred as [p|k]; [|done]. by destruct Hcred as (n & _ & ? & _). }
  match goal with
  | |- context [mbind ?k ?m (t ++ evk)] => set (cont := k); set (password_phase := m)
  end.
  assert (Hpw : ∃ r evp,
    password_phase (t ++ evk) = (r, (t ++ evk) ++ evp) ∧
    match r with
    | Val None | Exc _ => no_success evp
    | Val (Some d) =>
        succeeded self target port username None (default [] passwords) (Val d) evp
    end).
  { subst password_phase. destruct passwords as [pws|].
    2: { exists (Val None), []. rewrite app_nil_r. split; [done|]. constructor. }
    destruct (nonempty pws).
    2: { exists (Val None), []. rewrite app_nil_r. split; [done|]. constructor. }
    destruct (try_password_authentication_run target port username pws (t ++ evk))
      as (r & evp & Hrun & _ & Hr).
    unfold mbind, M_bind. rewrite Hrun. unfold getitem.
    destruct Hr as [[Hno Hs] | Hs].
    - destruct r as [d|e]; [|by exists (Exc e), evp].
      rewrite (Hs d eq_refl). simpl. by exists (Val None), evp.
    - pose proof Hs as (_ & _ & _ & d' & _ & _ & _ & -> & Hs' & _).
      rewrite Hs'. simpl. by exists (Val (Some d')), evp. }
  destruct Hpw as (r & evp & Hp & Hr).
  unfold mbind at 1. unfold M_bind at 1. rewrite Hp.
  destruct r as [[d|]|e]; subst cont; cbn beta iota.
  - exists (Val d), (evk ++ evp). rewrite app_assoc. split; [done|]. right.
    destruct Hr as (ev0 & cred & tail & d' & -> & Hno & Htail & Hd & Hs & Hcred).
    exists (evk ++ ev0), cred, tail, d'. rewrite <- app_assoc.
    split_and!; try done; [by apply no_success_app|].
    destruct cred as [p|k]; [|by destruct Hcred].
    destruct Hcred as (n & Htried & Hn & Hp' & Htl). exists n.
    by rewrite passwords_tried_app, Htk.
  - unfold getitem. rewrite result_dict_success. run.
    eexists _, _. rewrite <- !app_assoc. split; [reflexivity|]. left.
    split; [|by intros ? [= <-]].
    apply no_success_app; [done|]. apply no_success_app; [done|constructor].
  - exists (Exc e), (evk ++ evp). rewrite app_assoc. split; [done|]. left.
    split; [by apply no_success_app | by intros ? [=]].
Qed.

End attempt.

(** ** The properties of [detect] *)

Section engine.

Import ssh_detector.

Variable from_private_key_file : key_type → string → option string → bool.
Variable connect : nat → connect_call → connect_outcome.
Variable transport_active : nat → bool.
Variable random : nat → Q.

#[local] Arguments String.append : simpl never.
#[local] Arguments pretty : simpl never.

(** C6.  The first call of [connect] that returns ends the detection: no call
    follows it and none before it returned; [detect] returns a result with
    [success] set.  When the credential of that call is the key, it is the
    key supplied, no password is tried at all, and the result names the key.
    When it is a password, it is the password number [n] of the list, the
    passwords tried before it are the [n] first of the list in their order,
    and the result records this password. *)
Theorem first_success_ends_the_detection
    (self : SSHDetector) (target : string) (port : Z) (username : string)
    (passwords : option (list string))
    (private_key_path private_key_password : option string)
    (t ev1 ev2 : trace) (c : connect_call) (r : res (gmap string pyval)) :
  detect from_private_key_file connect transport_active random self target
    port username passwords private_key_path private_key_password t
  = (r, t ++ ev1 ++ EConnect c Connected :: ev2) →
  attempts ev2 = [] ∧ no_success ev1 ∧
  ∃ d, r = Val d ∧ d !! "success" = Some (VBool true) ∧
       match call_credential c with
       | Key k =>
           private_key_path = Some k ∧ passwords_tried (ev1 ++ ev2) = [] ∧
           d !! "key_used" = Some (VStr k)
       | Password p =>
           ∃ n, passwords_tried ev1 = take n (default [] passwords) ∧
                default [] passwords !! n = Some p ∧
                passwords_tried ev2 = [] ∧
                d !! "password" = Some (VStr p)
       end.
Proof.
  intros Hrun.
  destruct (detect_run from_private_key_file connect transport_active random
              self target port username passwords private_key_path
              private_key_password t) as (r' & ev & Hrun' & Hev).
  rewrite Hrun in Hrun'. injection Hrun' as -> Heq.
  apply app_inv_head in Heq. subst ev.
  destruct Hev as [[Hno _] | Hs].
  - exfalso. unfold no_success in Hno.
    rewrite connects_app, Forall_app in Hno. destruct Hno as [_ Hno].
    by inversion Hno.
  - destruct Hs as (ev0 & cred & tail & d & Heq & Hno & Htail & -> & Hs & Hcred).
    symmetry in Heq.
    destruct (success_unique _ _ _ _ _ _ Hno (proj1 Htail) Heq) as (-> & -> & ->).
    split; [by apply silent_attempts|]. split; [done|].
    exists d. split; [done|]. split; [done|]. simpl.
    destruct cred as [p|k].
    + destruct Hcred as (n & Htried & Hn & Hp & _). exists n.
      split_and!; try done. by apply silent_passwords_tried.
    + destruct Hcred as (Hk & Htried & Hd). split_and!; try done.
      by rewrite passwords_tried_app, Htried, (silent_passwords_tried _ Htail).
Qed.

(** C8.  For a port out of the range 1-65535, [detect] makes no call of
    [connect]: it logs the error and returns at once a result with [success]
    unset, whose error names the port. *)
Theorem invalid_port_fails_before_any_attempt
    (self : SSHDetector) (target : string) (port : Z) (username : string)
    (passwords : option (list string))
    (private_key_path private_key_password : option string) (t : trace) :
  port < 1 ∨ 65535 < port →
  detect from_private_key_file connect transport_active random self target
    port username passwords private_key_path private_key_password t
  = (Val (result_dict target port username (VBool false) VNone VNone
            (VStr (invalid_port_message port))),
     t ++ [ELog logger ERROR (invalid_port_message port)]) ∧
  connects [ELog logger ERROR (invalid_port_message port)] = [].
Proof.
  intros Hport. split; [|done]. unfold detect.
  replace ((1 <=? port) && (port <=? 65535)) with false by lia.
  reflexivity.
Qed.

(** With [max_retries <= 0] both loops of retries are empty: [detect] makes
    no call of [connect], never sleeps, and returns a result with [success]
    unset. *)
Lemma detect_without_retries
    (self : SSHDetector) (target : string) (port : Z) (username : string)
    (passwords : option (list string))
    (private_key_path private_key_password : option string) (t : trace) :
  max_retries self ≤ 0 →
  ∃ d ev,
    detect from_private_key_file connect transport_active random self target
      port username passwords private_key_path private_key_password t
    = (Val d, t ++ ev) ∧
    connects ev = [] ∧ sleeps ev = [] ∧ d !! "success" = Some (VBool false).
Proof.
  intros Hnone. unfold detect.
  destruct (negb _); [by eexists _, _|].
  destruct (_ || _); [by eexists _, _|].
  assert (Hkey : ∀ key_path,
    _try_key_authentication from_private_key_file connect random self target
      port username key_path private_key_password t
    = (Val (result_dict target port username (VBool false) VNone
              (VStr key_path) VNone), t)).
  { intros key_path. unfold _try_key_authentication.
    by rewrite (range_nonpos _ Hnone). }
  assert (Hpw : ∀ pws,
    _try_password_authentication connect transport_active self target port
      username pws t
    = (Val (result_dict target port username (VBool false) VNone VNone VNone), t)).
  { intros pws. unfold _try_password_authentication. unfold mbind, M_bind.
    by rewrite (password_loop_none _ _ _ _ _ _ _ _ _ Hnone). }
  unfold mbind at 1. unfold M_bind at 1.
  assert (Hphase1 :
    (match private_key_path with
     | Some key_path =>
         if truthy (VStr key_path)
         then key_result ← _try_key_authentication from_private_key_file connect
                random self target port username key_path private_key_password;
              success ← getitem key_result "success";
              mret (if truthy success then Some key_result else None)
         else mret None
     | None => mret None
     end) t = (Val None, t)).
  { destruct private_key_path as [key_path|]; [|done].
    destruct (truthy (VStr key_path)); [|done].
    unfold mbind at 1. unfold M_bind at 1. by rewrite Hkey. }
  rewrite Hphase1.
  unfold mbind at 1. unfold M_bind at 1.
  assert (Hphase2 :
    (match passwords with
     | Some passwords =>
         if nonempty passwords
         then password_result ← _try_password_authentication connect
                transport_active self target port username passwords;
              success ← getitem password_result "success";
              mret (if truthy success then Some password_result else None)
         else mret None
     | None => mret None
     end) t = (Val None, t)).
  { destruct passwords as [pws|]; [|done].
    destruct (nonempty pws); [|done].
    unfold mbind at 1. unfold M_bind at 1. by rewrite Hpw. }
  rewrite Hphase2.
  by eexists _, _.
Qed.

(** C9.  A detector constructed with [max_retries = 0] is accepted by
    [__init__], and its [detect] makes no login attempt, on the key path or
    on the password path, for any target, username, key and password list;
    it always returns a result with [success] unset. *)
Theorem zero_retries_detector_attempts_nothing
    (timeout : Z) (min_delay max_delay : Q) (self : SSHDetector)
    (target : string) (port : Z) (username : string)
    (passwords : option (list string))
    (private_key_path private_key_password : option string) (t : trace) :
  __init__ timeout 0 min_delay max_delay = Val self →
  ∃ d ev,
    detect from_private_key_file connect transport_active random self target
      port username passwords private_key_path private_key_password t
    = (Val d, t ++ ev) ∧
    attempts ev = [] ∧ sleeps ev = [] ∧ d !! "success" = Some (VBool false).
Proof.
  intros Hinit.
  assert (Hr : max_retries self = 0).
  { unfold __init__ in Hinit. repeat case_match; by simplify_eq. }
  destruct (detect_without_retries self target port username passwords
              private_key_path private_key_password t) as (d & ev & H & Hc & Hs & Hd);
    [lia|].
  exists d, ev. split_and!; try done. unfold attempts. by rewrite Hc.
Qed.

Lemma result_dict_fields target port username success password key_used error :
  dom (result_dict target port username success password key_used error)
  = result_fields.
Proof. unfold result_dict. rewrite !dom_insert_L, dom_singleton_L. by vm_compute. Qed.

Lemma insert_keeps_fields (k : string) (v : pyval) (d : gmap string pyval) :
  k ∈ result_fields → dom d = result_fields → dom (<[k := v]> d) = result_fields.
Proof.
  intros Hk Hd. rewrite dom_insert_L, Hd.
  apply subseteq_union_1_L. by apply singleton_subseteq_l.
Qed.

(** A loop whose iterations keep a property of the local variables keeps it. *)
Lemma for_in_invariant {X S R} (P : S → Prop) (Q : R → Prop)
    (body : X → S → M (flow S R)) :
  (∀ x s t, P s →
     match (body x s t).1 with
     | Val (Next s') | Val (Break s') => P s'
     | Val (Return r) => Q r
     | Exc _ => True
     end) →
  ∀ xs s t, P s →
    match (for_in xs body s t).1 with
    | Val (inl s') => P s'
    | Val (inr r) => Q r
    | Exc _ => True
    end.
Proof.
  intros Hbody. induction xs as [|x xs IH]; intros s t Hs; [done|].
  simpl. unfold mbind, M_bind.
  specialize (Hbody x s t Hs).
  destruct (body x s t) as [[[s'|s'|r]|e] t']; simpl in *; auto.
  by apply IH.
Qed.

Lemma fields_success : "success" ∈ result_fields.
Proof. by vm_compute. Qed.
Lemma fields_password : "password" ∈ result_fields.
Proof. by vm_compute. Qed.
Lemma fields_error : "error" ∈ result_fields.
Proof. by vm_compute. Qed.

Lemma key_attempt_fields self target port username key_path key_password
    attempt result t :
  full result →
  match (key_attempt from_private_key_file connect random self target port
           username key_path key_password attempt result t).1 with
  | Val (Next d) | Val (Break d) | Val (Return d) => full d
  | Exc _ => True
  end.
Proof.
  intros Hfull.
  destruct (key_attempt_run from_private_key_file connect random self target
              port username key_path key_password attempt result t)
    as (f & ev & -> & [(tail & -> & _) | (_ & _ & err & [-> | ->])]);
    simpl; apply insert_keeps_fields;
    auto using fields_success, fields_error.
Qed.

Lemma password_retries_fields self target port username password result t :
  full result →
  match (password_retries connect transport_active self target port username
           password result t).1 with
  | Val (Next d) | Val (Break d) | Val (Return d) => full d
  | Exc _ => True
  end.
Proof.
  intros Hfull.
  destruct (Z_lt_le_dec 0 (max_retries self)) as [Hpos|Hnone].
  - destruct (password_retries_run connect transport_active self target port
                username password result t Hpos) as (r & tail & -> & _ & Hr).
    simpl.
    destruct (connect (length (connects t))
                (call_of self target port username (Password password)))
      as [|e].
    + destruct Hr as [-> _]. unfold full.
      auto using insert_keeps_fields, fields_success, fields_password.
    + destruct (handled e).
      * destruct Hr as [err ->]. unfold full.
        auto using insert_keeps_fields, fields_error.
      * by subst r.
  - by rewrite (password_retries_none connect transport_active self target
                  port username password result t Hnone).
Qed.

Lemma try_key_authentication_fields self target port username key_path
    key_password t :
  match (_try_key_authentication from_private_key_file connect random self
           target port username key_path key_password t).1 with
  | Val d => full d
  | Exc _ => True
  end.
Proof.
  unfold _try_key_authentication. unfold mbind, M_bind.
  match goal with
  | |- context [for_in ?xs ?body ?s t] =>
      pose proof (for_in_invariant full full body
                    (λ x s' t', key_attempt_fields self target port username
                                  key_path key_password x s' t')
                    xs s t (result_dict_fields _ _ _ _ _ _ _)) as Hinv;
      destruct (for_in xs body s t) as [[[d|d]|e] t']
  end; done.
Qed.

Lemma try_password_authentication_fields self target port username passwords t :
  match (_try_password_authentication connect transport_active self target
           port username passwords t).1 with
  | Val d => full d
  | Exc _ => True
  end.
Proof.
  unfold _try_password_authentication. unfold mbind, M_bind.
  match goal with
  | |- context [for_in ?xs ?body ?s t] =>
      pose proof (for_in_invariant full full body
                    (λ x s' t', password_retries_fields self target port
                                  username x s' t')
                    xs s t (result_dict_fields _ _ _ _ _ _ _)) as Hinv;
      destruct (for_in xs body s t) as [[[d|d]|e] t']
  end; done.
Qed.

(** Every result [detect] returns holds the seven fields, but the result of
    the check of the target and the username. *)
Lemma detect_fields self target port username passwords private_key_path
    private_key_password t d t' :
  detect from_private_key_file connect transport_active random self target
    port username passwords private_key_path private_key_password t
  = (Val d, t') →
  ¬ (1 ≤ port ≤ 65535 ∧ (target = "" ∨ username = "")) →
  full d.
Proof.
  unfold detect. intros Hrun Hguard.
  destruct (negb _) eqn:Hport.
  { injection Hrun as <- _. apply result_dict_fields. }
  destruct (_ || _) eqn:Hempty.
  { exfalso. apply Hguard. split; [lia|].
    apply orb_true_iff in Hempty as [H|H]; [left|right];
      apply negb_true_iff, negb_false_iff, String.eqb_eq in H; done. }
  revert Hrun. unfold mbind at 1. unfold M_bind at 1.
  match goal with
  | |- context [match ?m t with _ => _ end] =>
      assert (Hkey : match (m t).1 with
                     | Val (Some d) => full d
                     | _ => True
                     end)
  end.
  { destruct private_key_path as [key_path|]; [|done].
    destruct (truthy (VStr key_path)); [|done].
    unfold mbind at 1. unfold M_bind at 1.
    pose proof (try_key_authentication_fields self target port username
                  key_path private_key_password t) as Hf.
    destruct (_try_key_authentication _ _ _ _ _ _ _ _ _ t) as [[kd|e] tk];
      [|done].
    simpl in Hf. unfold getitem, mbind, M_bind.
    destruct (kd !! "success") as [v|]; [|done]. simpl.
    by destruct (truthy v). }
  match goal with
  | |- context [match ?m t with _ => _ end] =>
      destruct (m t) as [[[kd|]|e] tk]
  end; simpl in Hkey.
  { by intros [= <- _]. }
  2: { done. }
  unfold mbind at 1. unfold M_bind at 1.
  match goal with
  | |- context [match ?m tk with _ => _ end] =>
      assert (Hpw : match (m tk).1 with
                    | Val (Some d) => full d
                    | _ => True
                    end)
  end.
  { destruct passwords as [pws|]; [|done].
    destruct (nonempty pws); [|done].
    unfold mbind at 1. unfold M_bind at 1.
    pose proof (try_password_authentication_fields self target port username
                  pws tk) as Hf.
    destruct (_try_password_authentication _ _ _ _ _ _ _ tk) as [[pd|e] tp];
      [|done].
    simpl in Hf. unfold getitem, mbind, M_bind.
    destruct (pd !! "success") as [v|]; [|done]. simpl.
    by destruct (truthy v). }
  match goal with
  | |- context [match ?m tk with _ => _ end] =>
      destruct (m tk) as [[[pd|]|e] tp]
  end; simpl in Hpw.
  { by intros [= <- _]. }
  2: { done. }
  unfold getitem. rewrite result_dict_success. unfold mbind, M_bind. simpl.
  intros [= <- _]. apply result_dict_fields.
Qed.

(** C10, as amended.  For a port within 1-65535 and an empty target or an
    empty username, [detect] makes no call of [connect]: it logs the error
    and returns a result that holds the two fields [error] and [success]
    only, [success] unset and [error] a message.  In every other case a
    result that [detect] returns holds the seven fields [target], [port],
    [username], [success], [password], [key_used] and [error]; among these
    cases are the calls with an empty target or username and a port out of
    range, which the check of the port answers first. *)
Theorem empty_target_or_username_returns_two_fields
    (self : SSHDetector) (target : string) (port : Z) (username : string)
    (passwords : option (list string))
    (private_key_path private_key_password : option string)
    (t t' : trace) (r : res (gmap string pyval)) :
  detect from_private_key_file connect transport_active random self target
    port username passwords private_key_path private_key_password t
  = (r, t') →
  (1 ≤ port ≤ 65535 ∧ (target = "" ∨ username = "") →
   r = Val empty_argument_result ∧
   t' = t ++ [ELog logger ERROR "目标地址和用户名不能为空"] ∧
   dom empty_argument_result = {[ "error"; "success" ]} ∧
   empty_argument_result !! "success" = Some (VBool false) ∧
   empty_argument_result !! "error" = Some (VStr "目标地址和用户名不能为空")) ∧
  (¬ (1 ≤ port ≤ 65535 ∧ (target = "" ∨ username = "")) →
   ∀ d, r = Val d → dom d = result_fields).
Proof.
  intros Hrun. split.
  - intros [Hport Hempty].
    assert (Hdet :
      detect from_private_key_file connect transport_active random self target
        port username passwords private_key_path private_key_password t
      = (Val empty_argument_result,
         t ++ [ELog logger ERROR "目标地址和用户名不能为空"])).
    { unfold detect.
      replace ((1 <=? port) && (port <=? 65535)) with true by lia.
      change (negb true) with false. cbv iota.
      destruct Hempty as [-> | ->].
      - reflexivity.
      - change (truthy (VStr "")) with false. change (negb false) with true.
        rewrite orb_true_r. reflexivity. }
    rewrite Hdet in Hrun. injection Hrun as <- <-.
    split_and!; try done; by vm_compute.
  - intros Hguard d ->.
    exact (detect_fields _ _ _ _ _ _ _ _ _ _ Hrun Hguard).
Qed.

End engine.

(** ** The budget of retries *)

Section retries.

Import ssh_detector.

Variable from_private_key_file : key_type → string → option string → bool.
Variable connect : nat → connect_call → connect_outcome.
Variable transport_active : nat → bool.
Variable random : nat → Q.
Variable self : SSHDetector.

#[local] Arguments String.append : simpl never.
#[local] Arguments pretty : simpl never.

Lemma attempts_connect c o (t : trace) :
  attempts (EConnect c o :: t) = call_credential c :: attempts t.
Proof. reflexivity. Qed.

Lemma attempts_log l v m (t : trace) : attempts (ELog l v m :: t) = attempts t.
Proof. reflexivity. Qed.



(** One iteration of a loop. *)
Lemma for_in_cons {X S R} (x : X) (xs : list X) (body : X → S → M (flow S R))
    (s : S) (t : trace) :
  for_in (x :: xs) body s t =
  match body x s t with
  | (Val (Next s'), t') => for_in xs body s' t'
  | (Val (Break s'), t') => (Val (inl s'), t')
  | (Val (Return r), t') => (Val (inr r), t')
  | (Exc e, t') => (Exc e, t')
  end.
Proof.
  simpl. unfold mbind, M_bind.
  by destruct (body x s t) as [[[s'|s'|r]|e] t'].
Qed.





(** The password loop against a server on which every call raises an
    exception the loop handles, with [max_retries >= 1]: every password of the
    list is tried once, in order, and no pause is made. *)
Lemma passwords_are_tried_once_each target port username :
  0 < max_retries self →
  (∀ k c, ∃ e, connect k c = Raises e ∧ handled e = true) →
  ∀ passwords result t,
    result !! "success" = Some (VBool false) →
    ∃ d ev,
      for_in passwords
        (password_retries connect transport_active self target port username)
        result t = (Val (inl d), t ++ ev) ∧
      attempts ev = Password <$> passwords ∧ sleeps ev = [] ∧
      d !! "success" = Some (VBool false).
Proof.
  intros Hpos Hfail. induction passwords as [|p ps IH]; intros result t Hres.
  - exists result, []. by rewrite app_nil_r.
  - destruct (password_retries_run connect transport_active self target port
                username p result t Hpos) as (r & tail & Hrun & Htail & Hr).
    destruct (Hfail (length (connects t))
                (call_of self target port username (Password p)))
      as (e & Hconn & He).
    rewrite Hconn in Hrun, Hr. rewrite He in Hr. destruct Hr as [err ->].
    simpl. unfold mbind, M_bind. rewrite Hrun.
    match goal with
    | |- context [for_in _ _ ?s ?t'] =>
        destruct (IH s t') as (d & ev & Hloop & Hatt & Hsl & Hd);
          [by rewrite lookup_insert_ne|]
    end.
    rewrite Hloop. eexists d, _. rewrite <- app_assoc. split; [reflexivity|].
    change (EConnect ?c ?o :: ?l) with ([EConnect c o] ++ l).
    split_and!.
    + by rewrite !attempts_app, Hatt, (silent_attempts _ Htail).
    + rewrite !sleeps_app, Hsl. by destruct Htail as [_ ->].
    + done.
Qed.

(** [detect] with passwords and no key, for a port within range and a target
    and a username that are not empty, against a server on which every call
    raises an exception that the password loop handles (a rejection among
    them), with [max_retries >= 1]: every password of the list is tried once,
    in order, no pause is made, and the result has [success] unset. *)
Lemma rejected_passwords_are_tried_once_each target port username passwords t :
  0 < max_retries self →
  1 ≤ port ≤ 65535 → target ≠ "" → username ≠ "" →
  (∀ k c, ∃ e, connect k c = Raises e ∧ handled e = true) →
  ∃ d ev,
    detect from_private_key_file connect transport_active random self target
      port username (Some passwords) None None t = (Val d, t ++ ev) ∧
    attempts ev = Password <$> passwords ∧ sleeps ev = [] ∧
    d !! "success" = Some (VBool false).
Proof.
  intros Hpos Hport Htarget Huser Hfail. unfold detect.
  replace ((1 <=? port) && (port <=? 65535)) with true by lia.
  change (negb true) with false. cbv iota.
  assert (Ht : truthy (VStr target) = true)
    by (simpl; apply negb_true_iff, String.eqb_neq, Htarget).
  assert (Hu : truthy (VStr username) = true)
    by (simpl; apply negb_true_iff, String.eqb_neq, Huser).
  rewrite Ht, Hu. change (negb true || negb true) with false. cbv iota.
  unfold mbind at 1. unfold M_bind at 1. unfold mret at 1. unfold M_ret at 1.
  cbv iota beta.
  destruct passwords as [|p ps].
  { simpl. unfold getitem, log, emit, mbind, M_bind, mret, M_ret. simpl.
    by eexists _, _. }
  change (nonempty (p :: ps)) with true. cbv iota.
  destruct (passwords_are_tried_once_each target port username Hpos Hfail
              (p :: ps)
              (result_dict target port username (VBool false) VNone VNone VNone)
              t eq_refl) as (d & ev & Hloop & Hatt & Hsl & Hd).
  unfold _try_password_authentication. unfold mbind, M_bind. rewrite Hloop.
  unfold mret at 1. unfold M_ret at 1. cbv beta iota.
  change (returned (inl d)) with d. unfold getitem. rewrite Hd.
  unfold log, emit, mret, M_ret. simpl. rewrite result_dict_success. simpl.
  eexists _, _. rewrite <- app_assoc. split; [reflexivity|].
  split_and!.
  - rewrite attempts_app, Hatt. simpl. by rewrite app_nil_r.
  - by rewrite sleeps_app, Hsl.
  - reflexivity.
Qed.

End retries.

(** ** Failing inputs *)

Lemma default_detector_constructed :
  ssh_detector.__init__ 10 2 (1 # 2) 2 = Val world.default_detector.
Proof. reflexivity. Qed.

Lemma detector_without_retries_constructed :
  ssh_detector.__init__ 10 0 (1 # 2) 2 = Val world.detector_without_retries.
Proof. reflexivity. Qed.

(** C1, at a failing input.  The default detector ([max_retries = 2]) against
    a server no connection to which can be established, with a key and two
    passwords: the key is tried twice and one pause is made, each password is
    tried once and no pause is made.  Three tries of each credential and two
    pauses for each were to be made. *)
Theorem connection_failures_are_retried_less_than_the_budget :
  let '(r, t) :=
    world.run (world.always (Raises (NoValidConnectionsError "Unable to connect")))
      world.default_detector "10.0.0.1" 22 "root" (Some ["123456"; "admin"])
      (Some "id_rsa") in
  attempts t = [Key "id_rsa"; Key "id_rsa"; Password "123456"; Password "admin"] ∧
  length (sleeps t) = 1%nat.
Proof. by vm_compute. Qed.


(** C5, at a failing input.  A detector with [max_retries = 0], which
    [__init__] accepts, against a server that rejects every credential: no
    password of the list is tried. *)
Theorem rejected_passwords_are_not_tried_without_retries :
  let '(r, t) :=
    world.run (world.always (Raises (AuthenticationException "Authentication failed.")))
      world.detector_without_retries "10.0.0.1" 22 "root"
      (Some ["123456"; "admin"]) None in
  attempts t = [] ∧
  ∃ d, r = Val d ∧ d !! "success" = Some (VBool false).
Proof. vm_compute. eauto. Qed.

(** ** The orchestrator *)

Section orchestration.

Import ssh_detector config main.

Variable from_private_key_file : key_type → string → option string → bool.
Variable connect : nat → connect_call → connect_outcome.
Variable transport_active : nat → bool.
Variable random : nat → Q.
Variable deadline : trace → option nat.
Variable now : trace → string.
Variable config : yaml.

#[local] Arguments String.append : simpl never.
#[local] Arguments pretty : simpl never.

Lemma wait_for_run {A} (body : M A) (t ev : trace) (r : res A) :
  body t = (r, t ++ ev) →
  wait_for deadline body t =
    match deadline ev with
    | Some n => if (n <? length ev)%nat then (Exc TimeoutError, t ++ take n ev)
                else (r, t ++ ev)
    | None => (r, t ++ ev)
    end.
Proof.
  intros Hbody. unfold wait_for. rewrite Hbody.
  by rewrite drop_app_length.
Qed.

Lemma run_detection_run protocol target username password_list results t detector :
  construct (get config "timeout" (YInt 10)) (get config "max_retries" (YInt 3))
    = Val detector →
  ∃ results' ev,
    run_detection from_private_key_file connect transport_active random
      deadline now config protocol target username password_list results t
    = (Val results', t ++ ev) ∧
    (results' = results
     ∨ ∃ p timestamp error,
         p ∈ password_list ∧
         results' = results ++
           [recorded timestamp protocol target
              (yaml_val (task_port config protocol)) username (VStr p)
              (VBool true) error]).
Proof.
  intros Hdet. unfold run_detection.
  destruct (negb (String.eqb protocol "ssh")).
  { eexists _, _. split; [reflexivity|]. by left. }
  destruct (negb (is_valid_ip target)).
  { eexists _, _. split; [reflexivity|]. by left. }
  rewrite Hdet. fold (task_port config protocol).
  set (body := match as_int (task_port config protocol) with
               | Some port => _
               | None => _
               end).
  assert (Hbody : ∃ r ev,
    body t = (r, t ++ ev) ∧
    (failed r ev
     ∨ ∃ port, succeeded detector target port username None password_list r ev)).
  { subst body. destruct (as_int (task_port config protocol)) as [port|].
    - destruct (detect_run from_private_key_file connect transport_active
                  random detector target port username (Some password_list)
                  None None t) as (r & ev & Hrun & Hr).
      exists r, ev. split; [done|]. destruct Hr as [Hr|Hr]; eauto.
    - exists (Exc (TypeError "'<=' not supported")), [].
      rewrite app_nil_r. split; [done|]. left.
      split; [constructor | by intros ? [=]]. }
  destruct Hbody as (r & ev & Hbody & Hr).
  pose proof (wait_for_run body t ev r Hbody) as Hwait.
  unfold try_except. unfold mbind at 1. unfold M_bind at 1. rewrite Hwait.
  assert (Hcut : ∀ t',
    (let (r0, t'0) := (Exc TimeoutError : res (list (gmap string pyval)), t') in
     match r0 with
     | Val a => (Val a, t'0)
     | Exc e =>
         (log logger ERROR ("检测过程中发生错误: " +:+ exn_str e);;
          mret results) t'0
     end) = (Val results,
             t' ++ [ELog logger ERROR ("检测过程中发生错误: " +:+ "")])) by done.
  assert (Hdone :
    ∃ results' ev',
      (let (r0, t'0) :=
         match r with
         | Val a =>
             (λ result : gmap string pyval,
                success ← getitem result "success";
                if truthy success
                then
                  password ← getitem result "password";
                  log logger WARNING
                    ("弱口令检测成功 - 协议: " +:+ protocol +:+ ", 目标: " +:+ target
                     +:+ ", 用户名: " +:+ username +:+ ", 密码: " +:+ str password);;
                  timestamp ← (λ t0 : trace, (Val (now t0), t0));
                  result_handler.add_result timestamp protocol target
                    (yaml_val (task_port config protocol)) username password
                    success (default VNone (result !! "error")) results
                else
                  log logger INFO
                    ("弱口令检测完成 - 协议: " +:+ protocol +:+ ", 目标: " +:+ target
                     +:+ ", 用户名: " +:+ username +:+ ", 未发现弱口令");;
                  mret results) a (t ++ ev)
         | Exc e => (Exc e, t ++ ev)
         end in
       match r0 with
       | Val a => (Val a, t'0)
       | Exc e =>
           (log logger ERROR ("检测过程中发生错误: " +:+ exn_str e);;
            mret results) t'0
       end) = (Val results', t ++ ev') ∧
      (results' = results
       ∨ ∃ p timestamp error,
           p ∈ password_list ∧
           results' = results ++
             [recorded timestamp protocol target
                (yaml_val (task_port config protocol)) username (VStr p)
                (VBool true) error])).
  { destruct Hr as [[Hno Hs] | (port & ev0 & cred & tail & d & Hev & _ & _ & -> & Hs & Hcred)].
    - destruct r as [d|e].
      + unfold getitem, mbind, M_bind. rewrite (Hs d eq_refl). simpl.
        unfold log, emit. eexists _, _. rewrite <- app_assoc.
        split; [reflexivity|]. by left.
      + unfold log, emit, mbind, M_bind. simpl. eexists _, _.
        rewrite <- app_assoc. split; [reflexivity|]. by left.
    - destruct cred as [p|k]; [|by destruct Hcred].
      destruct Hcred as (n & _ & Hn & Hp & _).
      unfold getitem, mbind, M_bind. rewrite Hs. simpl. rewrite Hp.
      unfold result_handler.add_result, log, emit, mbind, M_bind. simpl.
      eexists _, _. rewrite <- !app_assoc. split; [reflexivity|].
      right. eexists p, _, _. split; [|reflexivity].
      by eapply list_elem_of_lookup_2. }
  destruct (deadline ev) as [n|]; [destruct (n <? length ev)%nat|].
  - rewrite Hcut. eexists _, _. rewrite <- app_assoc.
    split; [reflexivity|]. by left.
  - exact Hdone.
  - exact Hdone.
Qed.


Lemma recorded_success timestamp protocol target port username password error :
  recorded timestamp protocol target port username password (VBool true) error
    !! "success" = Some (VBool true).
Proof. reflexivity. Qed.







End orchestration.

(** ** Instances of the properties *)

Import instances.

Lemma second_password_run :
  ssh_detector.detect world.loads (world.accepts "admin") world.inactive
    world.half world.default_detector "10.0.0.1" 22
    "root" (Some ["123456"; "admin"]) None None []
  = ((world.run (world.accepts "admin") world.default_detector "10.0.0.1" 22 "root"
        (Some ["123456"; "admin"]) None).1,
     [] ++ before_second_password
        ++ EConnect second_password Connected :: after_second_password).
Proof. by vm_compute. Qed.

Lemma first_success_ends_the_detection_witness :
  attempts after_second_password = [] ∧ no_success before_second_password ∧
  ∃ d, (world.run (world.accepts "admin") world.default_detector "10.0.0.1" 22
          "root" (Some ["123456"; "admin"]) None).1 = Val d ∧
       d !! "success" = Some (VBool true) ∧
       ∃ n, passwords_tried before_second_password
              = take n (default [] (Some ["123456"; "admin"])) ∧
            default [] (Some ["123456"; "admin"]) !! n = Some "admin" ∧
            passwords_tried after_second_password = [] ∧
            d !! "password" = Some (VStr "admin").
Proof.
  exact (first_success_ends_the_detection world.loads (world.accepts "admin")
           world.inactive world.half world.default_detector "10.0.0.1" 22 "root"
           (Some ["123456"; "admin"]) None None [] before_second_password
           after_second_password second_password _ second_password_run).
Defined.

Lemma invalid_port_fails_before_any_attempt_witness :
  (0 < 1 ∨ 65535 < 0) ∧
  world.run (world.always Connected) world.default_detector "10.0.0.1" 0 "root"
    (Some ["123456"]) (Some "id_rsa")
  = (Val (ssh_detector.result_dict "10.0.0.1" 0 "root" (VBool false) VNone VNone
            (VStr (invalid_port_message 0))),
     [] ++ [ELog ssh_detector.logger ERROR (invalid_port_message 0)]) ∧
  connects [ELog ssh_detector.logger ERROR (invalid_port_message 0)] = [].
Proof.
  split; [left; lia|].
  apply (invalid_port_fails_before_any_attempt world.loads
           (world.always Connected) world.inactive world.half
           world.default_detector "10.0.0.1" 0 "root" (Some ["123456"])
           (Some "id_rsa") None []).
  left. lia.
Defined.

Lemma zero_retries_detector_attempts_nothing_witness :
  ssh_detector.__init__ 10 0 (1 # 2) 2 = Val world.detector_without_retries ∧
  ∃ d ev,
    ssh_detector.detect world.loads (world.always Connected) world.inactive
      world.half world.detector_without_retries "10.0.0.1" 22 "root"
      (Some ["123456"; "admin"]) (Some "id_rsa") None []
    = (Val d, [] ++ ev) ∧
    attempts ev = [] ∧ sleeps ev = [] ∧ d !! "success" = Some (VBool false).
Proof.
  split; [reflexivity|].
  apply (zero_retries_detector_attempts_nothing world.loads
           (world.always Connected) world.inactive world.half 10 (1 # 2) 2
           world.detector_without_retries).
  reflexivity.
Defined.

Lemma empty_target_or_username_returns_two_fields_witness :
  ssh_detector.detect world.loads (world.always Connected) world.inactive
    world.half world.default_detector "" 22 "root" (Some ["123456"]) None None []
  = (Val empty_argument_result,
     [ELog ssh_detector.logger ERROR "目标地址和用户名不能为空"]) ∧
  Val empty_argument_result = Val empty_argument_result ∧
  [ELog ssh_detector.logger ERROR "目标地址和用户名不能为空"]
  = [] ++ [ELog ssh_detector.logger ERROR "目标地址和用户名不能为空"] ∧
  dom empty_argument_result = {[ "error"; "success" ]} ∧
  empty_argument_result !! "success" = Some (VBool false) ∧
  empty_argument_result !! "error" = Some (VStr "目标地址和用户名不能为空").
Proof.
  assert (Hrun :
    ssh_detector.detect world.loads (world.always Connected) world.inactive
      world.half world.default_detector "" 22 "root" (Some ["123456"]) None
      None []
    = (Val empty_argument_result,
       [ELog ssh_detector.logger ERROR "目标地址和用户名不能为空"]))
    by reflexivity.
  split; [exact Hrun|].
  apply (proj1 (empty_target_or_username_returns_two_fields world.loads
                  (world.always Connected) world.inactive world.half
                  world.default_detector "" 22 "root" (Some ["123456"]) None
                  None [] _ _ Hrun)).
  split; [lia | by left].
Defined.




(** ** Counterexamples *)



(** C10 as stated fails.  With an empty target and the port 0, the check of
    the port answers: the result holds the seven fields, [target] among
    them. *)
Lemma empty_target_with_invalid_port_returns_seven_fields :
  ∃ d, (world.run (world.always Connected) world.default_detector "" 0 "root"
          (Some ["123456"]) None).1 = Val d ∧
       d !! "target" = Some (VStr "") ∧
       dom d = result_fields ∧
       dom d ≠ {[ "error"; "success" ]}.
Proof.
  eexists. split; [by vm_compute|]. split_and!.
  - by vm_compute.
  - by vm_compute.
  - by vm_compute.
Qed.

(** * Further properties *)

(** ** How [detect] composes its two paths *)

Section composition.

Import ssh_detector.

Variable from_private_key_file : key_type → string → option string → bool.
Variable connect : nat → connect_call → connect_outcome.
Variable transport_active : nat → bool.
Variable random : nat → Q.
Variable self : SSHDetector.

#[local] Arguments String.append : simpl never.
#[local] Arguments pretty : simpl never.

Lemma truthy_str (s : string) : s ≠ "" → truthy (VStr s) = true.
Proof. intros H. simpl. by apply negb_true_iff, String.eqb_neq. Qed.

(** Without a key, [detect] is the password path: it raises what the path
    raises, returns the result of the path when it has [success] set, and
    otherwise logs the failure and returns the failure result. *)
Lemma detect_without_key target port username pws private_key_password t r t2 :
  checks_pass target port username →
  pws ≠ [] →
  _try_password_authentication connect transport_active self target port
    username pws t = (r, t2) →
  detect from_private_key_file connect transport_active random self target
    port username (Some pws) None private_key_password t
  = match r with
    | Exc e => (Exc e, t2)
    | Val pd =>
        match pd !! "success" with
        | Some v => if truthy v then (Val pd, t2)
                    else (Val (failure_result target port username),
                          t2 ++ [failure_log target port])
        | None => (Exc (KeyError "success"), t2)
        end
    end.
Proof.
  intros (Hport & Htarget & Huser) Hpws Hrun. unfold detect.
  replace ((1 <=? port) && (port <=? 65535)) with true by lia.
  change (negb true) with false. cbv iota.
  rewrite (truthy_str _ Htarget), (truthy_str _ Huser).
  change (negb true || negb true) with false. cbv iota.
  unfold mbind at 1. unfold M_bind at 1. unfold mret at 1. unfold M_ret at 1.
  cbv iota beta.
  destruct pws as [|p ps]; [done|].
  change (nonempty (p :: ps)) with true. cbv iota.
  unfold mbind, M_bind. rewrite Hrun.
  destruct r as [pd|e]; [|done].
  unfold getitem. destruct (pd !! "success") as [v|]; [|done].
  unfold mret, M_ret. destruct (truthy v); [done|].
  rewrite result_dict_success. reflexivity.
Qed.

(** Without a key and without a password, [detect] fails at once. *)
Lemma detect_without_credentials target port username passwords
    private_key_password t :
  checks_pass target port username →
  passwords = None ∨ passwords = Some [] →
  detect from_private_key_file connect transport_active random self target
    port username passwords None private_key_password t
  = (Val (failure_result target port username), t ++ [failure_log target port]).
Proof.
  intros (Hport & Htarget & Huser) Hpws. unfold detect.
  replace ((1 <=? port) && (port <=? 65535)) with true by lia.
  change (negb true) with false. cbv iota.
  rewrite (truthy_str _ Htarget), (truthy_str _ Huser).
  change (negb true || negb true) with false. cbv iota.
  by destruct Hpws as [-> | ->].
Qed.

(** With a key, [detect] is the key path, followed, when the key did not
    succeed, by [detect] without the key. *)
Lemma detect_with_key target port username passwords key_path
    private_key_password t kd t1 v :
  checks_pass target port username →
  key_path ≠ "" →
  _try_key_authentication from_private_key_file connect random self target
    port username key_path private_key_password t = (Val kd, t1) →
  kd !! "success" = Some v →
  detect from_private_key_file connect transport_active random self target
    port username passwords (Some key_path) private_key_password t
  = if truthy v then (Val kd, t1)
    else detect from_private_key_file connect transport_active random self
           target port username passwords None private_key_password t1.
Proof.
  intros (Hport & Htarget & Huser) Hkey Hrun Hv. unfold detect.
  replace ((1 <=? port) && (port <=? 65535)) with true by lia.
  change (negb true) with false. cbv iota.
  rewrite (truthy_str _ Htarget), (truthy_str _ Huser).
  change (negb true || negb true) with false. cbv iota.
  rewrite (truthy_str _ Hkey).
  unfold mbind at 1. unfold M_bind at 1.
  unfold mbind at 1. unfold M_bind at 1. rewrite Hrun.
  unfold getitem at 1. rewrite Hv.
  unfold mbind at 1. unfold M_bind at 1. unfold mret at 1. unfold M_ret at 1.
  cbv iota beta. unfold mret at 1. unfold M_ret at 1.
  by destruct (truthy v).
Qed.

(** [detect] for a port out of range. *)
Lemma detect_invalid_port target port username passwords private_key_path
    private_key_password t :
  port < 1 ∨ 65535 < port →
  detect from_private_key_file connect transport_active random self target
    port username passwords private_key_path private_key_password t
  = (Val (result_dict target port username (VBool false) VNone VNone
            (VStr (invalid_port_message port))),
     t ++ [ELog logger ERROR (invalid_port_message port)]).
Proof.
  intros Hport. unfold detect.
  by replace ((1 <=? port) && (port <=? 65535)) with false by lia.
Qed.

(** [detect] for an empty target or user name. *)
Lemma detect_empty_argument target port username passwords private_key_path
    private_key_password t :
  1 ≤ port ≤ 65535 →
  target = "" ∨ username = "" →
  detect from_private_key_file connect transport_active random self target
    port username passwords private_key_path private_key_password t
  = (Val empty_argument_result,
     t ++ [ELog logger ERROR "目标地址和用户名不能为空"]).
Proof.
  intros Hport Hempty. unfold detect.
  replace ((1 <=? port) && (port <=? 65535)) with true by lia.
  change (negb true) with false. cbv iota.
  replace (negb (truthy (VStr target)) || negb (truthy (VStr username)))
    with true; [done|].
  destruct Hempty as [-> | ->]; [done|]. simpl. by rewrite orb_true_r.
Qed.

End composition.

(** ** The events of a computation *)

Section events.

Import ssh_detector.

Context {P : event → Prop}.

Lemma emits_ret {A} (a : A) : emits P (mret a).
Proof. intros t. exists []. by rewrite app_nil_r. Qed.

Lemma emits_raise {A} (e : exn) : emits P (raise e : M A).
Proof. intros t. exists []. by rewrite app_nil_r. Qed.

Lemma emits_emit (e : event) : P e → emits P (emit e).
Proof. intros He t. exists [e]. split; [done|]. by constructor. Qed.

Lemma emits_bind {A B} (m : M A) (f : A → M B) :
  emits P m → (∀ a, emits P (f a)) → emits P (m ≫= f).
Proof.
  intros Hm Hf t. destruct (Hm t) as (ev & Ht & Hev).
  unfold mbind, M_bind. destruct (m t) as [[a|e] t1]; simpl in Ht; subst t1.
  - destruct (Hf a (t ++ ev)) as (ev' & Ht' & Hev').
    exists (ev ++ ev'). rewrite Ht', <- app_assoc. split; [done|].
    by apply Forall_app.
  - by exists ev.
Qed.

Lemma emits_try_except {A} (body : M A) (handler : exn → M A) :
  emits P body → (∀ e, emits P (handler e)) → emits P (try_except body handler).
Proof.
  intros Hm Hf t. destruct (Hm t) as (ev & Ht & Hev).
  unfold try_except. destruct (body t) as [[a|e] t1]; simpl in Ht; subst t1.
  - by exists ev.
  - destruct (Hf e (t ++ ev)) as (ev' & Ht' & Hev').
    exists (ev ++ ev'). rewrite Ht', <- app_assoc. split; [done|].
    by apply Forall_app.
Qed.

Lemma emits_try_finally {A} (body : M A) (fin : M unit) :
  emits P body → emits P fin → emits P (try_finally body fin).
Proof.
  intros Hm Hf t. destruct (Hm t) as (ev & Ht & Hev).
  unfold try_finally. destruct (body t) as [r t1]; simpl in Ht; subst t1.
  destruct (Hf (t ++ ev)) as (ev' & Ht' & Hev').
  exists (ev ++ ev'). split; [|by apply Forall_app].
  destruct (fin (t ++ ev)) as [[[]|e] t2]; simpl in *; subst t2;
    by rewrite <- app_assoc.
Qed.

Lemma emits_for_in {X S R} (xs : list X) (body : X → S → M (flow S R)) (s : S) :
  (∀ x s, x ∈ xs → emits P (body x s)) → emits P (for_in xs body s).
Proof.
  revert s. induction xs as [|x xs IH]; intros s Hbody.
  - apply emits_ret.
  - simpl. apply emits_bind.
    + apply Hbody. by left.
    + intros [s'|s'|r]; [|apply emits_ret..].
      apply IH. intros y s'' Hy. apply Hbody. by right.
Qed.

Lemma emits_getitem (d : gmap string pyval) (k : string) : emits P (getitem d k).
Proof. unfold getitem. destruct (d !! k); [apply emits_ret | apply emits_raise]. Qed.

Lemma emits_wait_for {A} (deadline : trace → option nat) (body : M A) :
  emits P body → emits P (main.wait_for deadline body).
Proof.
  intros Hm t. destruct (Hm t) as (ev & Ht & Hev).
  unfold main.wait_for. destruct (body t) as [r t1]; simpl in Ht; subst t1.
  rewrite drop_app_length.
  destruct (deadline ev) as [n|]; [|by exists ev].
  destruct (n <? length ev)%nat; [|by exists ev].
  exists (take n ev). split; [done|]. by apply Forall_take.
Qed.

End events.

(** ** The events of a detection *)

Section detection_events.

Import ssh_detector.

Variable from_private_key_file : key_type → string → option string → bool.
Variable connect : nat → connect_call → connect_outcome.
Variable transport_active : nat → bool.
Variable random : nat → Q.
Variable self : SSHDetector.

Variable P : event → Prop.
Hypothesis P_log : ∀ l v m, P (ELog l v m).
Hypothesis P_close : P EClose.
Hypothesis P_random : ∀ r, P (ERandom r).
Hypothesis P_sleep :
  ∀ k, P (ESleep (uniform (random k) (min_delay self) (max_delay self))).

#[local] Arguments String.append : simpl never.
#[local] Arguments pretty : simpl never.

Lemma emits_log l v m : emits P (log l v m).
Proof. apply emits_emit, P_log. Qed.

Lemma emits_load_private_key {A} key_path password (f : credential → M A) :
  emits P (f (Key key_path)) →
  emits P (_load_private_key from_private_key_file key_path password ≫= f).
Proof.
  intros Hf t. unfold mbind, M_bind. rewrite load_private_key_run.
  destruct (loadable _ _ _); [apply Hf|].
  eexists. split; [done|]. constructor; [apply P_log | done].
Qed.

Lemma emits_ssh_connect target port username cred :
  (∀ o, P (EConnect (call_of self target port username cred) o)) →
  emits P (ssh_connect connect self target port username cred).
Proof.
  intros Hc t. eexists. split; [done|]. constructor; [apply Hc | done].
Qed.

Lemma emits_pause :
  emits P (jitter ← random_uniform random (min_delay self) (max_delay self);
           sleep jitter).
Proof.
  intros t. eexists [_; _]. split.
  - unfold mbind, M_bind, random_uniform, sleep, emit. simpl.
    by rewrite <- app_assoc.
  - constructor; [apply P_random|]. constructor; [apply P_sleep | done].
Qed.

Lemma emits_finally_close : emits P (finally_close transport_active).
Proof.
  intros t. unfold finally_close. destruct (client_active _ _).
  - exists [EClose]. split; [done|]. by constructor.
  - exists []. by rewrite app_nil_r.
Qed.

Lemma emits_key_attempt target port username key_path key_password attempt
    result :
  (∀ o, P (EConnect (call_of self target port username (Key key_path)) o)) →
  emits P (key_attempt from_private_key_file connect random self target port
             username key_path key_password attempt result).
Proof.
  intros Hc. unfold key_attempt. apply emits_try_except.
  - apply emits_load_private_key.
    apply emits_bind; [by apply emits_ssh_connect|]. intros _.
    apply emits_bind; [apply emits_log|]. intros _.
    apply emits_bind; [by apply emits_emit|]. intros _. apply emits_ret.
  - intros e. destruct (is_AuthenticationException e).
    + apply emits_bind; [apply emits_log|]. intros _. apply emits_ret.
    + apply emits_bind; [apply emits_log|]. intros _.
      apply emits_bind; [|intros _; apply emits_ret].
      destruct (attempt <? max_retries self - 1);
        [apply emits_pause | apply emits_ret].
Qed.

Lemma emits_try_key_authentication target port username key_path key_password :
  (∀ o, P (EConnect (call_of self target port username (Key key_path)) o)) →
  emits P (_try_key_authentication from_private_key_file connect random self
             target port username key_path key_password).
Proof.
  intros Hc. unfold _try_key_authentication.
  apply emits_bind; [|intros r; apply emits_ret].
  apply emits_for_in. intros attempt result _. by apply emits_key_attempt.
Qed.

Lemma emits_password_attempt target port username password attempt result :
  (∀ o, P (EConnect (call_of self target port username (Password password)) o)) →
  emits P (password_attempt connect transport_active self target port username
             password attempt result).
Proof.
  intros Hc. unfold password_attempt.
  apply emits_try_finally; [|apply emits_finally_close].
  apply emits_try_except.
  - apply emits_bind; [by apply emits_ssh_connect|]. intros _.
    apply emits_bind; [apply emits_log|]. intros _.
    apply emits_bind; [by apply emits_emit|]. intros _. apply emits_ret.
  - intros e.
    destruct e; try apply emits_raise;
      (apply emits_bind; [apply emits_log | intros _; apply emits_ret]).
Qed.

Lemma emits_try_password_authentication target port username passwords :
  (∀ p o, p ∈ passwords →
          P (EConnect (call_of self target port username (Password p)) o)) →
  emits P (_try_password_authentication connect transport_active self target
             port username passwords).
Proof.
  intros Hc. unfold _try_password_authentication.
  apply emits_bind; [|intros r; apply emits_ret].
  apply emits_for_in. intros p result Hp. unfold password_retries.
  apply emits_bind; [|intros [d|d]; apply emits_ret].
  apply emits_for_in. intros attempt result' _.
  apply emits_password_attempt. intros o. by apply Hc.
Qed.

(** Every event of [detect] is a log line, the closing of the client, a
    pause of the length [uniform] gives for the two delays of the detector,
    or a call of [connect] with the target, the port, the user name and the
    timeout of the detection and a credential it was given. *)
Lemma emits_detect target port username passwords private_key_path
    private_key_password :
  (∀ cred o, given passwords private_key_path cred →
             P (EConnect (call_of self target port username cred) o)) →
  emits P (detect from_private_key_file connect transport_active random self
             target port username passwords private_key_path
             private_key_password).
Proof.
  intros Hc. unfold detect.
  destruct (negb _).
  { apply emits_bind; [apply emits_log | intros _; apply emits_ret]. }
  destruct (_ || _).
  { apply emits_bind; [apply emits_log | intros _; apply emits_ret]. }
  apply emits_bind.
  { destruct private_key_path as [key_path|]; [|apply emits_ret].
    destruct (truthy _); [|apply emits_ret].
    apply emits_bind.
    - apply emits_try_key_authentication. intros o. by apply Hc.
    - intros d. apply emits_bind; [apply emits_getitem|]. intros v.
      apply emits_ret. }
  intros [d|]; [apply emits_ret|].
  apply emits_bind.
  { destruct passwords as [passwords|]; [|apply emits_ret].
    destruct (nonempty _); [|apply emits_ret].
    apply emits_bind.
    - apply emits_try_password_authentication. intros p o Hp. by apply Hc.
    - intros d. apply emits_bind; [apply emits_getitem|]. intros v.
      apply emits_ret. }
  intros [d|]; [apply emits_ret|].
  apply emits_bind; [apply emits_getitem|]. intros v.
  apply emits_bind; [|intros _; apply emits_ret].
  destruct (truthy v); apply emits_log.
Qed.

End detection_events.

(** ** Runs of the two paths against given servers *)

Section paths.

Import ssh_detector.

Variable from_private_key_file : key_type → string → option string → bool.
Variable connect : nat → connect_call → connect_outcome.
Variable transport_active : nat → bool.
Variable random : nat → Q.
Variable self : SSHDetector.

#[local] Arguments String.append : simpl never.
#[local] Arguments pretty : simpl never.

(** The passwords of [ps] are tried once each, in order and without a pause,
    when the server answers each of them with an exception the loop
    handles. *)
Lemma rejected_passwords_run target port username :
  0 < max_retries self →
  ∀ ps result t,
    (∀ k p, p ∈ ps →
       ∃ e, connect k (call_of self target port username (Password p))
            = Raises e ∧ handled e = true) →
    result !! "success" = Some (VBool false) →
    ∃ d ev,
      for_in ps
        (password_retries connect transport_active self target port username)
        result t = (Val (inl d), t ++ ev) ∧
      attempts ev = Password <$> ps ∧ sleeps ev = [] ∧
      d !! "success" = Some (VBool false) ∧
      (ps = [] ∧ d = result ∨ ∃ err, d = <["error" := VStr err]> result) ∧
      ∀ ps' , for_in (ps ++ ps')
        (password_retries connect transport_active self target port username)
        result t
      = for_in ps'
        (password_retries connect transport_active self target port username)
        d (t ++ ev).
Proof.
  intros Hpos. induction ps as [|p ps IH]; intros result t Hfail Hres.
  - exists result, []. rewrite app_nil_r. split_and!; auto.
  - destruct (password_retries_run connect transport_active self target port
                username p result t Hpos) as (r & tail & Hrun & Htail & Hr).
    destruct (Hfail (length (connects t)) p ltac:(by left))
      as (e & Hconn & He).
    rewrite Hconn in Hrun, Hr. rewrite He in Hr. destruct Hr as [err ->].
    match type of Hrun with
    | _ = (Val (Next ?s), ?t') =>
        destruct (IH s t') as (d & ev & Hloop & Hatt & Hsl & Hd & Herr & Happ);
          [by intros k q Hq; apply Hfail; right
          |by rewrite lookup_insert_ne|]
    end.
    eexists d, _. split_and!.
    + rewrite for_in_cons, Hrun, Hloop, <- app_assoc. reflexivity.
    + change (EConnect ?c ?o :: ?l) with ([EConnect c o] ++ l).
      by rewrite !attempts_app, Hatt, (silent_attempts _ Htail).
    + change (EConnect ?c ?o :: ?l) with ([EConnect c o] ++ l).
      rewrite !sleeps_app, Hsl. by destruct Htail as [_ ->].
    + done.
    + right. destruct Herr as [[_ ->] | [err' ->]]; [by exists err|].
      exists err'. by rewrite insert_insert_eq.
    + intros ps'. rewrite <- app_comm_cons, for_in_cons, Hrun, Happ.
      by rewrite <- app_assoc.
Qed.

(** The password path when the passwords of [ps0] are answered with an
    exception the loop handles and the password after them with one it does
    not handle. *)
Lemma try_password_authentication_unhandled target port username ps0 p ps1 e t :
  0 < max_retries self →
  (∀ k q, q ∈ ps0 →
     ∃ e', connect k (call_of self target port username (Password q))
           = Raises e' ∧ handled e' = true) →
  (∀ k, connect k (call_of self target port username (Password p)) = Raises e) →
  handled e = false →
  ∃ ev,
    _try_password_authentication connect transport_active self target port
      username (ps0 ++ p :: ps1) t = (Exc e, t ++ ev) ∧
    attempts ev = Password <$> (ps0 ++ [p]) ∧ sleeps ev = [].
Proof.
  intros Hpos Hps0 Hp He. unfold _try_password_authentication.
  destruct (rejected_passwords_run target port username Hpos ps0
              (result_dict target port username (VBool false) VNone VNone VNone)
              t Hps0 (result_dict_success _ _ _ _ _ _))
    as (d & ev & _ & Hatt & Hsl & _ & _ & Happ).
  destruct (password_retries_run connect transport_active self target port
              username p d (t ++ ev) Hpos) as (r & tail & Hrun & Htail & Hr).
  rewrite Hp in Hrun, Hr. rewrite He in Hr. subst r.
  unfold mbind, M_bind. rewrite Happ, for_in_cons, Hrun.
  eexists. rewrite <- app_assoc. split; [reflexivity|].
  change (EConnect ?c ?o :: ?l) with ([EConnect c o] ++ l).
  rewrite !attempts_app, !sleeps_app, Hatt, Hsl, (silent_attempts _ Htail).
  destruct Htail as [_ ->]. by rewrite fmap_app.
Qed.

(** One iteration of the key loop when the key loads and the server answers
    with an [AuthenticationException]: the loop is left. *)
Lemma key_attempt_rejected target port username key_path key_password attempt
    result t e :
  loadable from_private_key_file key_path key_password = true →
  connect (length (connects t)) (call_of self target port username (Key key_path))
    = Raises e →
  is_AuthenticationException e = true →
  key_attempt from_private_key_file connect random self target port username
    key_path key_password attempt result t
  = (Val (Break (<["error" := VStr "密钥认证失败"]> result)),
     t ++ [EConnect (call_of self target port username (Key key_path)) (Raises e);
           ELog logger ERROR ("密钥认证失败: " +:+ exn_str e)]).
Proof.
  intros Hload Hconn Hauth.
  unfold key_attempt, try_except.
  unfold mbind at 1. unfold M_bind at 1.
  rewrite load_private_key_run, Hload.
  unfold ssh_connect. unfold mbind at 1. unfold M_bind at 1.
  rewrite Hconn, Hauth.
  unfold log, emit, mbind, M_bind, mret, M_ret. cbn.
  by rewrite <- app_assoc.
Qed.

(** The key path when the key loads and the server rejects it. *)
Lemma try_key_authentication_rejected target port username key_path
    key_password t e :
  0 < max_retries self →
  loadable from_private_key_file key_path key_password = true →
  connect (length (connects t)) (call_of self target port username (Key key_path))
    = Raises e →
  is_AuthenticationException e = true →
  _try_key_authentication from_private_key_file connect random self target
    port username key_path key_password t
  = (Val (<["error" := VStr "密钥认证失败"]>
            (result_dict target port username (VBool false) VNone
               (VStr key_path) VNone)),
     t ++ [EConnect (call_of self target port username (Key key_path)) (Raises e);
           ELog logger ERROR ("密钥认证失败: " +:+ exn_str e)]).
Proof.
  intros Hpos Hload Hconn Hauth. unfold _try_key_authentication.
  destruct (range_pos _ Hpos) as [rest ->].
  unfold mbind, M_bind.
  by rewrite for_in_cons, (key_attempt_rejected _ _ _ _ _ _ _ _ e).
Qed.

(** One iteration of the key loop when the key file does not load: no call
    of [connect] is made; the iteration logs the two errors, pauses unless it
    is the last of the loop, and falls through. *)
Lemma key_attempt_unloadable target port username key_path key_password
    attempt result t :
  loadable from_private_key_file key_path key_password = false →
  ∃ err,
    key_attempt from_private_key_file connect random self target port username
      key_path key_password attempt result t
    = (Val (Next (<["error" := VStr err]> result)),
       t ++ ELog logger ERROR
              ("无法加载私钥文件: " +:+ key_path +:+ "，尝试了所有支持的密钥类型")
         :: ELog logger WARNING err :: pause random self attempt t).
Proof.
  intros Hload.
  unfold key_attempt, try_except.
  unfold mbind at 1. unfold M_bind at 1.
  rewrite load_private_key_run, Hload.
  change (is_AuthenticationException (SSHException _)) with false. cbv iota.
  unfold pause.
  destruct (attempt <? max_retries self - 1).
  - unfold random_uniform, sleep, log, emit, mbind, M_bind, mret, M_ret. cbn.
    rewrite !draws_app. simpl. rewrite !app_nil_r.
    eexists. rewrite <- !app_assoc. reflexivity.
  - unfold log, emit, mbind, M_bind, mret, M_ret. cbn.
    eexists. rewrite <- !app_assoc. reflexivity.
Qed.

(** The key loop for a key file that does not load, from the try number [i]
    on. *)
Lemma key_loop_unloadable target port username key_path key_password :
  loadable from_private_key_file key_path key_password = false →
  ∀ (m i : nat) result t,
    (i + m)%nat = Z.to_nat (max_retries self) →
    result !! "success" = Some (VBool false) →
    ∃ d ev,
      for_in (Z.of_nat <$> seq i m)
        (key_attempt from_private_key_file connect random self target port
           username key_path key_password) result t
      = (Val (inl d), t ++ ev) ∧
      connects ev = [] ∧
      length (sleeps ev) = pred m ∧
      d !! "success" = Some (VBool false).
Proof.
  intros Hload. induction m as [|m IH]; intros i result t Hi Hres.
  - exists result, []. rewrite app_nil_r. by split_and!.
  - destruct (key_attempt_unloadable target port username key_path key_password
                (Z.of_nat i) result t Hload) as (err & Hrun).
    change (seq i (S m)) with (i :: seq (S i) m).
    rewrite fmap_cons, for_in_cons, Hrun.
    match goal with
    | |- context [for_in _ _ ?s ?t'] =>
        destruct (IH (S i) s t' ltac:(lia) ltac:(by rewrite lookup_insert_ne))
          as (d & ev & Hloop & Hconn & Hlen & Hd)
    end.
    rewrite Hloop. eexists d, _. rewrite <- app_assoc. split; [reflexivity|].
    assert (Hpause : connects (pause random self (Z.of_nat i) t) = [] ∧
                     length (sleeps (pause random self (Z.of_nat i) t))
                     = (if decide (m = 0%nat) then 0 else 1)%nat).
    { unfold pause. destruct (Z.ltb_spec (Z.of_nat i) (max_retries self - 1)).
      - split; [done|]. destruct (decide _); [lia | done].
      - split; [done|]. destruct (decide _); [done | lia]. }
    destruct Hpause as [Hpc Hps].
    change (ELog ?l ?v ?x :: ELog ?l' ?v' ?x' :: ?r)
      with ([ELog l v x; ELog l' v' x'] ++ r).
    rewrite !connects_app, !sleeps_app, !length_app, Hconn, Hpc, Hps, Hlen.
    split_and!; [done| |done].
    destruct (decide _); simpl; lia.
Qed.

End paths.

(** ** Properties of the detection *)

Section detection.

Import ssh_detector.

Variable from_private_key_file : key_type → string → option string → bool.
Variable connect : nat → connect_call → connect_outcome.
Variable transport_active : nat → bool.
Variable random : nat → Q.
Variable self : SSHDetector.

#[local] Arguments String.append : simpl never.
#[local] Arguments pretty : simpl never.


Lemma Forall_connects (P : connect_call * connect_outcome → Prop) (ev : trace) :
  Forall (λ e, match e with EConnect c o => P (c, o) | _ => True end) ev →
  Forall P (connects ev).
Proof.
  induction 1 as [|e ev He _ IH]; [constructor|].
  destruct e; try exact IH. by constructor.
Qed.

Lemma authentication_exception_handled (e : exn) :
  is_AuthenticationException e = true → handled e = true.
Proof. by destruct e. Qed.

Lemma detect_empty_key target port username passwords private_key_password t :
  detect from_private_key_file connect transport_active random self target
    port username passwords (Some "") private_key_password t
  = detect from_private_key_file connect transport_active random self target
      port username passwords None private_key_password t.
Proof. reflexivity. Qed.



(** X3.  Whatever the server does, every call of [connect] a detection makes
    is for the target, the port and the user name it was given, with the
    timeout of the detector, and tries the key or one of the passwords it was
    given. *)
Theorem detect_connects_only_as_asked target port username passwords
    private_key_path private_key_password t :
  ∃ ev,
    (detect from_private_key_file connect transport_active random self target
       port username passwords private_key_path private_key_password t).2
    = t ++ ev ∧
    Forall (λ co, ∃ cred,
              co.1 = {| hostname := target; call_port := port;
                        call_username := username; call_credential := cred;
                        call_timeout := timeout self |} ∧
              given passwords private_key_path cred)
      (connects ev).
Proof.
  destruct (emits_detect from_private_key_file connect transport_active random
              self
              (λ e, match e with
                    | EConnect c o =>
                        ∃ cred, c = call_of self target port username cred ∧
                                given passwords private_key_path cred
                    | _ => True
                    end)
              ltac:(done) ltac:(done) ltac:(done) ltac:(done))
    with
    (target := target) (port := port) (username := username)
    (passwords := passwords) (private_key_path := private_key_path)
    (private_key_password := private_key_password) (t := t)
    as (ev & Hrun & Hev).
  - intros cred o Hcred. by exists cred.
  - exists ev. split; [done|].
    by apply (Forall_connects
                (λ co, ∃ cred, co.1 = call_of self target port username cred ∧
                               given passwords private_key_path cred)).
Qed.

(** X4.  Against a server that rejects every credential (every call raises
    an [AuthenticationException]), a detection with [max_retries >= 1] tries
    the key once, then each password once in the order of the list, and makes
    no pause; it returns the failure result, whose [error] is [None]. *)
Theorem rejected_credentials_are_tried_once_each target port username
    passwords key_path private_key_password t :
  checks_pass target port username →
  0 < max_retries self →
  key_path ≠ "" →
  loadable from_private_key_file key_path private_key_password = true →
  (∀ k c, ∃ e, connect k c = Raises e ∧ is_AuthenticationException e = true) →
  ∃ ev,
    detect from_private_key_file connect transport_active random self target
      port username passwords (Some key_path) private_key_password t
    = (Val (failure_result target port username), t ++ ev) ∧
    attempts ev = Key key_path :: (Password <$> default [] passwords) ∧
    sleeps ev = [].
Proof.
  intros Hchecks Hpos Hkey Hload Hrej.
  destruct (Hrej (length (connects t))
              (call_of self target port username (Key key_path)))
    as (e & Hconn & He).
  rewrite (detect_with_key _ _ _ _ _ _ _ _ _ _ _ _ _ _ (VBool false) Hchecks Hkey
             (try_key_authentication_rejected from_private_key_file connect
                random self target port username key_path private_key_password
                t e Hpos Hload Hconn He))
    by done.
  cbv iota beta. change (truthy (VBool false)) with false. cbv iota.
  destruct passwords as [[|p ps]|].
  - rewrite detect_without_credentials by (done || by right).
    eexists. rewrite <- app_assoc. split; [reflexivity|]. done.
  - destruct (rejected_passwords_run connect transport_active self target port
                username Hpos (p :: ps)
                (result_dict target port username (VBool false) VNone VNone VNone)
                (t ++ [EConnect (call_of self target port username (Key key_path))
                         (Raises e);
                       ELog logger ERROR ("密钥认证失败: " +:+ exn_str e)]))
      as (d & ev & Hloop & Hatt & Hsl & Hd & _ & _).
    { intros k q _. destruct (Hrej k (call_of self target port username (Password q)))
        as (e' & -> & He'). exists e'. split; [done|].
      by apply authentication_exception_handled. }
    { apply result_dict_success. }
    rewrite (detect_without_key _ _ _ _ _ _ _ _ _ _ _ (Val d) (t ++ _ ++ ev))
      by (done || unfold _try_password_authentication, mbind, M_bind;
          by rewrite Hloop, <- app_assoc).
    rewrite Hd. change (truthy (VBool false)) with false. cbv iota.
    eexists. rewrite <- !app_assoc. split; [reflexivity|].
    rewrite !attempts_app, !sleeps_app, Hatt, Hsl. unfold failure_log.
    rewrite attempts_connect, !attempts_log. split; [|done].
    change (attempts []) with (@nil credential). simpl app.
    by rewrite app_nil_r.
  - rewrite detect_without_credentials by (done || by left).
    eexists. rewrite <- app_assoc. split; [reflexivity|]. done.
Qed.

(** X5.  An exception of [connect] that the password loop does not handle
    (a socket timeout, for one) leaves [detect] at once: the passwords after
    the one that raised it are not tried, whatever the server would answer
    to them. *)
Theorem unhandled_exception_ends_the_detection target port username ps0 p ps1
    private_key_password e t :
  checks_pass target port username →
  0 < max_retries self →
  (∀ k q, q ∈ ps0 →
     ∃ e', connect k (call_of self target port username (Password q))
           = Raises e' ∧ handled e' = true) →
  (∀ k, connect k (call_of self target port username (Password p)) = Raises e) →
  handled e = false →
  ∃ ev,
    detect from_private_key_file connect transport_active random self target
      port username (Some (ps0 ++ p :: ps1)) None private_key_password t
    = (Exc e, t ++ ev) ∧
    attempts ev = Password <$> (ps0 ++ [p]) ∧ sleeps ev = [].
Proof.
  intros Hchecks Hpos Hps0 Hp He.
  destruct (try_password_authentication_unhandled connect transport_active
              self target port username ps0 p ps1 e t Hpos Hps0 Hp He)
    as (ev & Hrun & Hatt & Hsl).
  exists ev. split; [|done].
  rewrite (detect_without_key from_private_key_file connect transport_active
             random self target port username (ps0 ++ p :: ps1)
             private_key_password t (Exc e) (t ++ ev) Hchecks);
    [done | by destruct ps0 | exact Hrun].
Qed.

(** X6.  For a key file that loads as a key of none of the four types, the
    key path makes no call of [connect], yet goes through the [max_retries]
    iterations of its loop and pauses [max_retries - 1] times before it
    returns a result with [success] unset. *)
Theorem unloadable_key_is_retried_without_a_connection target port username
    key_path key_password t :
  loadable from_private_key_file key_path key_password = false →
  ∃ d ev,
    _try_key_authentication from_private_key_file connect random self target
      port username key_path key_password t = (Val d, t ++ ev) ∧
    connects ev = [] ∧
    length (sleeps ev) = pred (Z.to_nat (max_retries self)) ∧
    d !! "success" = Some (VBool false).
Proof.
  intros Hload. unfold _try_key_authentication, range.
  destruct (key_loop_unloadable from_private_key_file connect random self
              target port username key_path key_password Hload
              (Z.to_nat (max_retries self)) 0
              (result_dict target port username (VBool false) VNone
                 (VStr key_path) VNone) t eq_refl
              (result_dict_success _ _ _ _ _ _))
    as (d & ev & Hloop & H).
  unfold mbind, M_bind. rewrite Hloop. by exists d, ev.
Qed.

(** X7.  When the two checks pass, a detection that returns without a
    success returns the failure result built before the credentials were
    tried and logs the failure with the error [None]: the [error] the key
    path or the password path recorded is lost. *)
Theorem failure_discards_the_error target port username passwords
    private_key_path private_key_password t :
  checks_pass target port username →
  match detect from_private_key_file connect transport_active random self
          target port username passwords private_key_path private_key_password t
  with
  | (Val d, t') =>
      d !! "success" = Some (VBool true) ∨
      d = failure_result target port username ∧
      d !! "error" = Some VNone ∧
      ∃ t0, t' = t0 ++ [failure_log target port]
  | (Exc _, _) => True
  end.
Proof.
  intros Hchecks.
  assert (Hnokey : ∀ t1,
    match detect from_private_key_file connect transport_active random self
            target port username passwords None private_key_password t1
    with
    | (Val d, t') =>
        d !! "success" = Some (VBool true) ∨
        d = failure_result target port username ∧
        d !! "error" = Some VNone ∧
        ∃ t0, t' = t0 ++ [failure_log target port]
    | (Exc _, _) => True
    end).
  { intros t1. destruct passwords as [[|p ps]|].
    - rewrite detect_without_credentials by (done || by right).
      right. split_and!; [done|done|by eexists].
    - destruct (try_password_authentication_run connect transport_active self
                  target port username (p :: ps) t1) as (r & ev & Hrun & _ & Hr).
      rewrite (detect_without_key from_private_key_file connect
                 transport_active random self target port username (p :: ps)
                 private_key_password t1 r (t1 ++ ev) Hchecks);
        [|done|exact Hrun].
      destruct r as [pd|e]; [|done].
      destruct Hr as [[_ Hfail] | (? & ? & ? & d & _ & _ & _ & Hd & Hsucc & _)].
      + rewrite (Hfail pd eq_refl). change (truthy (VBool false)) with false.
        cbv iota. right. split_and!; [done|done|by eexists].
      + injection Hd as <-. rewrite Hsucc.
        change (truthy (VBool true)) with true. cbv iota. by left.
    - rewrite detect_without_credentials by (done || by left).
      right. split_and!; [done|done|by eexists]. }
  destruct private_key_path as [key_path|]; [|apply Hnokey].
  destruct (decide (key_path = "")) as [->|Hkey].
  { rewrite detect_empty_key. apply Hnokey. }
  destruct (try_key_authentication_run from_private_key_file connect random
              self target port username key_path private_key_password t)
    as (kd & ev & Hrun & _ & Hr).
  destruct Hr as [[_ Hfail] | (? & ? & ? & d & _ & _ & _ & Hd & Hsucc & _)].
  - rewrite (detect_with_key _ _ _ _ _ _ _ _ _ _ _ _ _ _ _ Hchecks Hkey Hrun Hfail).
    change (truthy (VBool false)) with false. cbv iota. apply Hnokey.
  - injection Hd as <-.
    rewrite (detect_with_key _ _ _ _ _ _ _ _ _ _ _ _ _ _ _ Hchecks Hkey Hrun Hsucc).
    change (truthy (VBool true)) with true. cbv iota. by left.
Qed.

End detection.

(** ** Instances of the properties of the detection *)



Lemma rejected_credentials_are_tried_once_each_witness :
  ∃ ev,
    world.run servers.rejects world.default_detector "10.0.0.1" 22 "root"
      (Some ["123456"; "admin"]) (Some "id_rsa")
    = (Val (failure_result "10.0.0.1" 22 "root"), [] ++ ev) ∧
    attempts ev = [Key "id_rsa"; Password "123456"; Password "admin"] ∧
    sleeps ev = [].
Proof.
  apply (rejected_credentials_are_tried_once_each world.loads servers.rejects
           world.inactive world.half world.default_detector "10.0.0.1" 22
           "root" (Some ["123456"; "admin"]) "id_rsa" None []).
  - by split_and!.
  - reflexivity.
  - done.
  - reflexivity.
  - intros k c. eexists. split; reflexivity.
Defined.

Lemma unhandled_exception_ends_the_detection_witness :
  ∃ ev,
    world.run (servers.times_out_on "admin") world.default_detector "10.0.0.1"
      22 "root" (Some (["123456"] ++ "admin" :: ["root"; "toor"])) None
    = (Exc (OtherException "timed out"), [] ++ ev) ∧
    attempts ev = Password <$> (["123456"] ++ ["admin"]) ∧ sleeps ev = [].
Proof.
  apply (unhandled_exception_ends_the_detection world.loads
           (servers.times_out_on "admin") world.inactive world.half
           world.default_detector "10.0.0.1" 22 "root" ["123456"] "admin"
           ["root"; "toor"] None (OtherException "timed out") []).
  - by split_and!.
  - reflexivity.
  - intros k q Hq. apply list_elem_of_singleton in Hq as ->.
    eexists. split; reflexivity.
  - intros k. reflexivity.
  - reflexivity.
Defined.

Lemma unloadable_key_is_retried_without_a_connection_witness :
  ∃ d ev,
    ssh_detector._try_key_authentication servers.unloadable
      (world.always Connected) world.half world.default_detector "10.0.0.1" 22
      "root" "id_rsa" None []
    = (Val d, [] ++ ev) ∧
    connects ev = [] ∧
    length (sleeps ev) = pred (Z.to_nat 2) ∧
    d !! "success" = Some (VBool false).
Proof.
  apply (unloadable_key_is_retried_without_a_connection servers.unloadable
           (world.always Connected) world.half world.default_detector
           "10.0.0.1" 22 "root" "id_rsa" None []).
  reflexivity.
Defined.

Lemma failure_discards_the_error_witness :
  match world.run servers.unreachable world.default_detector "10.0.0.1" 22
          "root" (Some ["123456"; "admin"]) (Some "id_rsa")
  with
  | (Val d, t') =>
      d !! "success" = Some (VBool true) ∨
      d = failure_result "10.0.0.1" 22 "root" ∧
      d !! "error" = Some VNone ∧
      ∃ t0, t' = t0 ++ [failure_log "10.0.0.1" 22]
  | (Exc _, _) => True
  end.
Proof.
  apply (failure_discards_the_error world.loads servers.unreachable
           world.inactive world.half world.default_detector "10.0.0.1" 22
           "root" (Some ["123456"; "admin"]) (Some "id_rsa") None []).
  by split_and!.
Defined.

(** ** More of the orchestrator *)

Section tasks.

Import ssh_detector config main.

Variable from_private_key_file : key_type → string → option string → bool.
Variable connect : nat → connect_call → connect_outcome.
Variable transport_active : nat → bool.
Variable random : nat → Q.
Variable deadline : trace → option nat.
Variable now : trace → string.
Variable config : yaml.

#[local] Arguments String.append : simpl never.
#[local] Arguments pretty : simpl never.


(** A task whose detection raises, or is cancelled at the deadline: the
    exception is logged and nothing is recorded. *)
Lemma run_detection_raised target username password_list results t detector e t' :
  is_valid_ip target = true →
  construct (get config "timeout" (YInt 10)) (get config "max_retries" (YInt 3))
    = Val detector →
  wait_for deadline (task.awaited from_private_key_file connect
       transport_active random config detector target username password_list) t
    = (Exc e, t') →
  run_detection from_private_key_file connect transport_active random deadline
    now config "ssh" target username password_list results t
  = (Val results,
     t' ++ [ELog main.logger ERROR ("检测过程中发生错误: " +:+ exn_str e)]).
Proof.
  intros Hip Hdet Hwait. unfold run_detection.
  change (negb ("ssh" =? "ssh")%string) with false. cbv iota.
  rewrite Hip. change (negb true) with false. cbv iota.
  rewrite Hdet. unfold try_except. unfold mbind at 1. unfold M_bind at 1.
  unfold task.awaited, task_port in Hwait. rewrite Hwait. reflexivity.
Qed.



(** A task under a configuration [__init__] refuses: the exception of
    [__init__] leaves the task, unless the protocol or the target was
    refused before the detector is constructed. *)
Lemma run_detection_unconstructed protocol target username password_list
    results t e :
  construct (get config "timeout" (YInt 10)) (get config "max_retries" (YInt 3))
    = Exc e →
  ∃ ev,
    run_detection from_private_key_file connect transport_active random deadline
      now config protocol target username password_list results t
    = (if String.eqb protocol "ssh" && is_valid_ip target then Exc e
       else Val results, t ++ ev) ∧
    connects ev = [].
Proof.
  intros Hdet. unfold run_detection.
  destruct (String.eqb protocol "ssh").
  - destruct (is_valid_ip target).
    + rewrite Hdet. exists []. by rewrite app_nil_r.
    + eexists. split; reflexivity.
  - eexists. split; reflexivity.
Qed.

(** X9.  Under a configuration whose timeout or number of retries
    [SSHDetector.__init__] refuses, a run makes no call of [connect] and
    records nothing; the exception of [__init__] leaves [gather] at the
    first task for SSH whose target is an IP address. *)
Theorem refused_configuration_attempts_nothing ts password_list results t e :
  construct (get config "timeout" (YInt 10)) (get config "max_retries" (YInt 3))
    = Exc e →
  ∃ ev,
    gather from_private_key_file connect transport_active random deadline now
      config ts password_list results t
    = (if existsb (λ task : string * string * string,
                     String.eqb task.1.1 "ssh" && is_valid_ip task.1.2) ts
       then Exc e else Val results, t ++ ev) ∧
    connects ev = [].
Proof.
  intros Hdet. revert t.
  induction ts as [|[[protocol target] username] ts IH]; intros t.
  - exists []. by rewrite app_nil_r.
  - destruct (run_detection_unconstructed protocol target username
                password_list results t e Hdet) as (ev & Hrun & Hev).
    simpl. unfold mbind, M_bind. rewrite Hrun.
    destruct (String.eqb protocol "ssh" && is_valid_ip target).
    + by exists ev.
    + destruct (IH (t ++ ev)) as (ev' & Hrest & Hev').
      exists (ev ++ ev'). rewrite Hrest, <- app_assoc. split; [done|].
      by rewrite connects_app, Hev, Hev'.
Qed.

Lemma attempts_take_prefix (n : nat) (ev : trace) :
  attempts (take n ev) `prefix_of` attempts ev.
Proof.
  exists (attempts (drop n ev)). by rewrite <- attempts_app, take_drop.
Qed.

Lemma is_valid_ip_nonempty (target : string) :
  is_valid_ip target = true → target ≠ "".
Proof. by intros H ->. Qed.

(** X10.  A task in which [connect] raises an exception the password loop
    does not handle logs the error and records nothing; the passwords after
    the one that raised it are not tried, whatever the server would answer to
    them. *)
Theorem unhandled_exception_ends_the_task target username ps0 p ps1 results t
    detector port e :
  construct (get config "timeout" (YInt 10)) (get config "max_retries" (YInt 3))
    = Val detector →
  0 < max_retries detector →
  as_int (task_port config "ssh") = Some port →
  1 ≤ port ≤ 65535 →
  is_valid_ip target = true →
  username ≠ "" →
  (∀ k q, q ∈ ps0 →
     ∃ e', connect k (call_of detector target port username (Password q))
           = Raises e' ∧ handled e' = true) →
  (∀ k, connect k (call_of detector target port username (Password p))
        = Raises e) →
  handled e = false →
  ∃ ev,
    run_detection from_private_key_file connect transport_active random deadline
      now config "ssh" target username (ps0 ++ p :: ps1) results t
    = (Val results, t ++ ev) ∧
    attempts ev `prefix_of` Password <$> (ps0 ++ [p]).
Proof.
  intros Hdet Hpos Hp Hport Hip Huser Hps0 Hraise He.
  destruct (try_password_authentication_unhandled connect transport_active
              detector target port username ps0 p ps1 e t Hpos Hps0 Hraise He)
    as (ev & Hrun & Hatt & _).
  assert (Hbody : task.awaited from_private_key_file connect transport_active
      random config detector target username (ps0 ++ p :: ps1) t
                  = (Exc e, t ++ ev)).
  { unfold task.awaited. rewrite Hp.
    rewrite (detect_without_key from_private_key_file connect transport_active
               random detector target port username (ps0 ++ p :: ps1) None t
               (Exc e) (t ++ ev));
      [done | | by destruct ps0 | exact Hrun].
    split; [done|]. split; [by apply is_valid_ip_nonempty | done]. }
  pose proof (wait_for_run deadline _ t ev _ Hbody) as Hwait.
  assert (Hcut : ∃ e' n,
    wait_for deadline (task.awaited from_private_key_file connect
       transport_active random config detector target username (ps0 ++ p :: ps1)) t
      = (Exc e', t ++ take n ev)).
  { rewrite Hwait. destruct (deadline ev) as [n|].
    - destruct (n <? length ev)%nat; [by exists TimeoutError, n|].
      exists e, (length ev). by rewrite firstn_all.
    - exists e, (length ev). by rewrite firstn_all. }
  destruct Hcut as (e' & n & Hcut).
  rewrite (run_detection_raised _ _ _ _ _ _ _ _ Hip Hdet Hcut).
  eexists. rewrite <- app_assoc. split; [reflexivity|].
  rewrite attempts_app. change (attempts [ELog _ _ _]) with (@nil credential).
  rewrite app_nil_r, <- Hatt. apply attempts_take_prefix.
Qed.

End tasks.

(** ** Instances of the properties of the orchestrator *)


Lemma refused_configuration_attempts_nothing_witness :
  ∃ ev,
    main.gather world.loads (world.always Connected) world.inactive world.half
      instances.in_time instances.clock
      (config.YMap [("max_retries", config.YInt (-1))])
      (main.tasks ["10.0.0.1"] ["root"] ["ssh"]) ["123456"; "admin"] [] []
    = (if existsb (λ task : string * string * string,
                     String.eqb task.1.1 "ssh" && main.is_valid_ip task.1.2)
            (main.tasks ["10.0.0.1"] ["root"] ["ssh"])
       then Exc (ValueError "重试次数不能为负数") else Val [], [] ++ ev) ∧
    connects ev = [].
Proof.
  apply (refused_configuration_attempts_nothing world.loads
           (world.always Connected) world.inactive world.half instances.in_time
           instances.clock (config.YMap [("max_retries", config.YInt (-1))])
           (main.tasks ["10.0.0.1"] ["root"] ["ssh"]) ["123456"; "admin"] [] []
           (ValueError "重试次数不能为负数")).
  reflexivity.
Defined.

Lemma unhandled_exception_ends_the_task_witness :
  ∃ ev,
    main.run_detection world.loads (servers.times_out_on "admin")
      world.inactive world.half instances.in_time instances.clock
      instances.ssh_config "ssh" "10.0.0.1" "root"
      (["123456"] ++ "admin" :: ["root"; "toor"]) [] []
    = (Val [], [] ++ ev) ∧
    attempts ev `prefix_of` Password <$> (["123456"] ++ ["admin"]).
Proof.
  apply (unhandled_exception_ends_the_task world.loads
           (servers.times_out_on "admin") world.inactive world.half
           instances.in_time instances.clock instances.ssh_config "10.0.0.1"
           "root" ["123456"] "admin" ["root"; "toor"] [] []
           {| ssh_detector.timeout := 10; ssh_detector.max_retries := 3;
              ssh_detector.min_delay := 1 # 2; ssh_detector.max_delay := 2 |}
           22 (OtherException "timed out")).
  - reflexivity.
  - reflexivity.
  - reflexivity.
  - lia.
  - reflexivity.
  - done.
  - intros k q Hq. apply list_elem_of_singleton in Hq as ->.
    eexists. split; reflexivity.
  - intros k. reflexivity.
  - reflexivity.
Defined.

(** ** [Config.set] and [Config.get] *)

Section configuration.

Import config Config.

Lemma subscript_setitem entries key value :
  subscript (setitem entries key value) key = Some value.
Proof.
  induction entries as [|[k v] rest IH]; simpl.
  - by rewrite String.eqb_refl.
  - destruct (String.eqb k key) eqn:Hk; simpl; by rewrite Hk.
Qed.


Lemma split_dot_go_nonempty (s acc : string) : split_dot_go s acc ≠ [].
Proof.
  revert acc. induction s as [|c s IH]; intros acc; simpl; [done|].
  destruct (Ascii.eqb c "."); [done | apply IH].
Qed.

Lemma split_dot_last (key : string) :
  split_dot key = removelast (split_dot key) ++ [List.last (split_dot key) ""].
Proof. apply app_removelast_last, split_dot_go_nonempty. Qed.

(** What was set on a path is found on the path. *)
Lemma walk_set_keys keys last value config config' :
  set_keys keys last value config = Some config' →
  walk (keys ++ [last]) config' = Some value.
Proof.
  revert config config'. induction keys as [|k keys IH]; intros config config'.
  - destruct config as [| |entries]; simpl; try done.
    intros [= <-]. simpl. by rewrite subscript_setitem.
  - destruct config as [| |entries]; simpl; try done.
    destruct (set_keys keys last value _) as [child'|] eqn:Hchild; [|done].
    intros [= <-]. simpl. rewrite subscript_setitem. by eapply IH.
Qed.

Lemma walk_empty_map key keys : walk (key :: keys) (YMap []) = None.
Proof. reflexivity. Qed.


(** Where the loop and the assignment of [Config.set] raise. *)
Lemma set_keys_raises value last keys :
  ∀ config,
    set_keys keys last value config = None ↔
    ∃ n v, (n ≤ length keys)%nat ∧ walk (take n keys) config = Some v ∧
           scalar v = true.
Proof.
  induction keys as [|k keys IH]; intros config.
  - destruct config as [z|s|entries]; simpl.
    + split; [|done]. intros _. by exists 0%nat, (YInt z).
    + split; [|done]. intros _. by exists 0%nat, (YStr s).
    + split; [done|]. intros (n & v & _ & Hw & Hv).
      rewrite take_nil in Hw. by injection Hw as <-.
  - destruct config as [z|s|entries].
    + split; [|done]. intros _. exists 0%nat, (YInt z). split_and!; [lia|done..].
    + split; [|done]. intros _. exists 0%nat, (YStr s). split_and!; [lia|done..].
    + simpl set_keys.
      destruct (set_keys keys last value _) as [child'|] eqn:Hchild.
      * split; [done|]. intros ([|n] & v & Hn & Hw & Hv).
        { by injection Hw as <-. }
        simpl in Hw, Hn.
        destruct (subscript entries k) as [c|]; [|done].
        assert (set_keys keys last value c = None); [|simpl in *; congruence].
        apply IH. exists n, v. split_and!; [lia|done..].
      * split; [|done]. intros _.
        apply IH in Hchild as (n & v & Hn & Hw & Hv).
        exists (S n), v. split_and!; [simpl; lia| |done].
        simpl. destruct (subscript entries k) as [c|]; [done|].
        destruct n; [by injection Hw as <-|].
        destruct keys; [by rewrite take_nil in Hw; injection Hw as <- | done].
Qed.

(** X11.  What [Config.set] stores under a key, [Config.get] returns for the
    key, whatever the default: a dotted key names the same path for both. *)
Theorem get_returns_what_was_set config key value config' default :
  set config key value = Some config' →
  get config' key default = value.
Proof.
  unfold set, get. intros Hset.
  rewrite split_dot_last. by rewrite (walk_set_keys _ _ _ _ _ Hset).
Qed.


(** X13.  [Config.set] raises (a [TypeError]) exactly when the path of the
    key, its last key left out, meets a scalar of the document: a key of the
    path that is missing is created, a scalar on the path is not replaced. *)
Theorem set_raises_on_a_scalar config key value :
  set config key value = None ↔
  ∃ n v, (n < length (split_dot key))%nat ∧
         walk (take n (split_dot key)) config = Some v ∧ scalar v = true.
Proof.
  unfold set. rewrite set_keys_raises.
  assert (Hlen : length (split_dot key)
                 = S (length (removelast (split_dot key)))).
  { rewrite (split_dot_last key) at 1. rewrite length_app. simpl. lia. }
  split; intros (n & v & Hn & Hw & Hv); exists n, v.
  - split_and!; [lia| |done].
    rewrite split_dot_last, take_app_le by done. exact Hw.
  - split_and!; [lia| |done].
    rewrite split_dot_last, take_app_le in Hw by lia. exact Hw.
Qed.

End configuration.

Lemma get_returns_what_was_set_witness :
  config.get
    (config.YMap [("timeout", config.YInt 10);
                  ("protocols",
                    config.YMap [("ssh", config.YMap [("port", config.YInt 2222)])])])
    "protocols.ssh.port" (config.YInt 0)
  = config.YInt 2222.
Proof.
  apply (get_returns_what_was_set (config.YMap [("timeout", config.YInt 10)])
           "protocols.ssh.port" (config.YInt 2222)).
  reflexivity.
Defined.


(** ** The password dictionary *)

Section dictionary.

Import dictionary_loader.

Variable strip : string → string.
Variable exists_ : string → bool.
Variable read : string → list string * option exn.

#[local] Arguments String.append : simpl never.
#[local] Arguments pretty : simpl never.

Lemma add_line_cases passwords line :
  add_line strip passwords line = passwords ∧
    (strip line = "" ∨ strip line ∈ passwords)
  ∨ add_line strip passwords line = passwords ++ [strip line] ∧
    strip line ≠ "" ∧ strip line ∉ passwords.
Proof.
  unfold add_line. simpl.
  destruct (String.eqb_spec (strip line) "") as [Hs|Hs]; simpl.
  - left. auto.
  - destruct (bool_decide_reflect (strip line ∈ passwords)); simpl; auto.
Qed.

(** The loop of [load_passwords] over the lines read. *)
Lemma load_loop lines :
  let passwords := foldl (add_line strip) [] lines in
  NoDup passwords ∧ ("" ∉ passwords) ∧
  (passwords `sublist_of` (strip <$> lines)) ∧
  ∀ line, line ∈ lines → strip line ≠ "" → strip line ∈ passwords.
Proof.
  induction lines as [|line lines IH] using rev_ind; simpl.
  { split_and!; [constructor | by intros ?%elem_of_nil | done
                | by intros ? ?%elem_of_nil]. }
  rewrite foldl_app, fmap_app. simpl.
  destruct IH as (Hnd & Hne & Hsub & Hall).
  destruct (add_line_cases (foldl (add_line strip) [] lines) line)
    as [[-> Hold] | (-> & Hs & Hnew)].
  - split_and!; [done | done | by apply sublist_inserts_r |].
    intros l [Hl | ->%list_elem_of_singleton]%elem_of_app Hl'; [by apply Hall|].
    by destruct Hold.
  - split_and!.
    + apply NoDup_app. split_and!; [done| |apply NoDup_singleton].
      by intros x Hx ->%list_elem_of_singleton.
    + intros [H | H%list_elem_of_singleton]%elem_of_app; [done|]. by apply Hs.
    + by apply sublist_app.
    + intros l [Hl | ->%list_elem_of_singleton]%elem_of_app Hl'.
      * apply elem_of_app. left. by apply Hall.
      * apply elem_of_app. right. by apply list_elem_of_singleton.
Qed.

(** X14.  [load_passwords] never raises.  The list it returns holds no
    password twice and no empty password; its passwords are stripped lines of
    the file, in the order of the file.  For a path that is empty or does
    not exist the list is empty; otherwise every line read that is not blank
    has its stripped text in the list. *)
Theorem loaded_passwords_are_distinct_stripped_lines file_path t :
  ∃ passwords ev,
    load_passwords strip exists_ read file_path t = (Val passwords, t ++ ev) ∧
    connects ev = [] ∧
    NoDup passwords ∧ ("" ∉ passwords) ∧
    (passwords `sublist_of` (strip <$> (read file_path).1)) ∧
    if decide (file_path = "" ∨ exists_ file_path = false)
    then passwords = []
    else ∀ line, line ∈ (read file_path).1 → strip line ≠ "" →
                 strip line ∈ passwords.
Proof.
  destruct (decide (file_path = "" ∨ exists_ file_path = false)) as [Hbad|Hgood].
  - assert (Hcheck : negb (truthy (VStr file_path)) || negb (exists_ file_path)
                     = true).
    { destruct Hbad as [-> | ->]; [done | apply orb_true_r]. }
    unfold load_passwords. rewrite Hcheck.
    eexists _, _. split; [reflexivity|].
    split_and!; [done | constructor | by intros ?%elem_of_nil
                | apply sublist_nil_l | done].
  - assert (Hcheck : negb (truthy (VStr file_path)) || negb (exists_ file_path)
                     = false).
    { apply orb_false_iff. split.
      - apply negb_false_iff, negb_true_iff, String.eqb_neq. tauto.
      - destruct (exists_ file_path); [done | tauto]. }
    unfold load_passwords. rewrite Hcheck.
    destruct (read file_path) as [lines failure]. cbv iota beta zeta.
    destruct (load_loop lines) as (Hnd & Hne & Hsub & Hall).
    destruct failure as [e|]; eexists _, _; (split; [reflexivity|]);
      by split_and!.
Qed.

End dictionary.

(** ** The targets [is_valid_ip] accepts *)

Section addresses.

Import main language.

Lemma matches_eps_inv s : matches Eps s → s = "".
Proof. by inversion 1. Qed.

Lemma matches_chr_inv c s : matches (Chr c) s → s = String c "".
Proof. by inversion 1. Qed.

Lemma matches_class_inv lo hi s :
  matches (Class lo hi) s → ∃ c, s = String c "" ∧ in_class lo hi c = true.
Proof. inversion 1; subst. eauto. Qed.

Lemma matches_cat_inv r1 r2 s :
  matches (Cat r1 r2) s →
  ∃ s1 s2, s = s1 +:+ s2 ∧ matches r1 s1 ∧ matches r2 s2.
Proof. inversion 1; subst. eauto. Qed.

Lemma matches_alt_inv r1 r2 s :
  matches (Alt r1 r2) s → matches r1 s ∨ matches r2 s.
Proof. inversion 1; subst; auto. Qed.

Lemma matches_void_inv s : ¬ matches Void s.
Proof. by inversion 1. Qed.

Lemma append_empty (s1 s2 : string) : s1 +:+ s2 = "" → s1 = "" ∧ s2 = "".
Proof. by destruct s1. Qed.

Lemma nullable_matches r : nullable r = true ↔ matches r "".
Proof.
  split.
  - induction r; simpl; try done.
    + intros _. constructor.
    + intros [H1 H2]%andb_true_iff.
      apply (matches_cat _ _ "" ""); auto.
    + intros [H|H]%orb_true_iff; [apply matches_alt_l | apply matches_alt_r];
        auto.
  - intros H. remember "" as s eqn:Hs.
    induction H; simpl; try done.
    + apply append_empty in Hs as [-> ->]. apply andb_true_iff. auto.
    + apply orb_true_iff. auto.
    + apply orb_true_iff. auto.
Qed.

Lemma deriv_matches c r s : matches (deriv c r) s ↔ matches r (String c s).
Proof.
  split.
  - revert s. induction r; intros s; simpl.
    + by intros ?%matches_void_inv.
    + by intros ?%matches_void_inv.
    + destruct (Ascii.eqb_spec c c0) as [->|]; [|by intros ?%matches_void_inv].
      intros ->%matches_eps_inv. constructor.
    + destruct (in_class lo hi c) eqn:Hc; [|by intros ?%matches_void_inv].
      intros ->%matches_eps_inv. by constructor.
    + destruct (nullable r1) eqn:Hnull.
      * intros [H|H]%matches_alt_inv.
        -- apply matches_cat_inv in H as (s1 & s2 & -> & H1 & H2).
           apply (matches_cat _ _ (String c s1) s2); auto.
        -- apply (matches_cat _ _ "" (String c s)); [|auto].
           by apply nullable_matches.
      * intros (s1 & s2 & -> & H1 & H2)%matches_cat_inv.
        apply (matches_cat _ _ (String c s1) s2); auto.
    + intros [H|H]%matches_alt_inv;
        [apply matches_alt_l | apply matches_alt_r]; auto.
  - intros H. remember (String c s) as s0 eqn:Hs. revert s Hs.
    induction H as [|c0|lo hi c0 Hc|r1 r2 s1 s2 H1 IH1 H2 IH2|r1 r2 s0 H IH
                   |r1 r2 s0 H IH]; intros s' Hs; simpl; try done.
    + injection Hs as -> <-. rewrite Ascii.eqb_refl. constructor.
    + injection Hs as -> <-. rewrite Hc. constructor.
    + destruct s1 as [|c1 s1].
      * change ("" +:+ s2) with s2 in Hs. subst s2.
        apply nullable_matches in H1 as ->.
        apply matches_alt_r. auto.
      * change (String c1 s1 +:+ s2) with (String c1 (s1 +:+ s2)) in Hs.
        injection Hs as -> <-.
        assert (matches (Cat (deriv c r1) r2) (s1 +:+ s2))
          by (constructor; auto).
        destruct (nullable r1); [by apply matches_alt_l | done].
    + apply matches_alt_l. auto.
    + apply matches_alt_r. auto.
Qed.

(** The matcher decides the language. *)
Lemma fullmatch_matches r s : fullmatch r s = true ↔ matches r s.
Proof.
  revert r. induction s as [|c s IH]; intros r; simpl.
  - apply nullable_matches.
  - rewrite IH. apply deriv_matches.
Qed.

(** The tests on characters, as comparisons of their codes. *)
Ltac codes :=
  unfold octet_text, is_digit, digit_value, in_class in *;
  try change (N_of_ascii "0") with 48%N in *;
  try change (N_of_ascii "1") with 49%N in *;
  try change (N_of_ascii "2") with 50%N in *;
  try change (N_of_ascii "4") with 52%N in *;
  try change (N_of_ascii "5") with 53%N in *;
  try change (N_of_ascii "9") with 57%N in *;
  rewrite ?andb_true_iff, ?N.leb_le in *.

Lemma ascii_of_code (c : ascii) (n : N) : N_of_ascii c = n → c = ascii_of_N n.
Proof. intros <-. by rewrite ascii_N_embedding. Qed.

Lemma matches_opt_empty r : matches (Opt r) "".
Proof. apply matches_alt_r. constructor. Qed.

Lemma matches_opt_class lo hi c :
  in_class lo hi c = true → matches (Opt (Class lo hi)) (String c "").
Proof. intros H. apply matches_alt_l. by constructor. Qed.

(** The language of one number of the pattern. *)
Lemma octet_matches s : matches octet s ↔ octet_text s = true.
Proof.
  split.
  - unfold octet. intros [H | [H | H]%matches_alt_inv]%matches_alt_inv.
    + apply matches_cat_inv in H as (s1 & s2 & -> & ->%matches_chr_inv & H).
      apply matches_cat_inv in H as (s3 & s4 & -> & ->%matches_chr_inv & H).
      apply matches_class_inv in H as (c & -> & Hc).
      change (octet_text (String "2" (String "5" (String c ""))) = true).
      codes. lia.
    + apply matches_cat_inv in H as (s1 & s2 & -> & ->%matches_chr_inv & H).
      apply matches_cat_inv in H as (s3 & s4 & -> & H1 & H2).
      apply matches_class_inv in H1 as (b & -> & Hb).
      apply matches_class_inv in H2 as (c & -> & Hc).
      change (octet_text (String "2" (String b (String c ""))) = true).
      codes. lia.
    + apply matches_cat_inv in H as (s1 & s2 & -> & H1 & H).
      apply matches_cat_inv in H as (s2' & s3 & -> & H2 & H3).
      apply matches_class_inv in H2 as (b & -> & Hb).
      apply matches_alt_inv in H1 as [H1 | ->%matches_eps_inv];
        apply matches_alt_inv in H3 as [H3 | ->%matches_eps_inv].
      * apply matches_class_inv in H1 as (a & -> & Ha).
        apply matches_class_inv in H3 as (c & -> & Hc).
        change (octet_text (String a (String b (String c ""))) = true).
        codes. lia.
      * apply matches_class_inv in H1 as (a & -> & Ha).
        change (octet_text (String a (String b "")) = true).
        codes. lia.
      * apply matches_class_inv in H3 as (c & -> & Hc).
        change (octet_text (String b (String c "")) = true).
        codes. lia.
      * change (octet_text (String b "") = true).
        codes. lia.
  - destruct s as [|a [|b [|c [|]]]]; try done.
    + intros Ha. apply matches_alt_r, matches_alt_r.
      apply (matches_cat _ _ "" (String a "")); [apply matches_opt_empty|].
      apply (matches_cat _ _ (String a "") ""); [by constructor|].
      apply matches_opt_empty.
    + intros [Ha Hb]%andb_true_iff. apply matches_alt_r, matches_alt_r.
      apply (matches_cat _ _ "" (String a (String b "")));
        [apply matches_opt_empty|].
      apply (matches_cat _ _ (String a "") (String b "")); [by constructor|].
      by apply matches_opt_class.
    + intros H. unfold octet.
      destruct (N_of_ascii a <=? 49)%N eqn:Ha49.
      * apply matches_alt_r, matches_alt_r.
        apply (matches_cat _ _ (String a "") (String b (String c ""))).
        { apply matches_opt_class. codes. lia. }
        apply (matches_cat _ _ (String b "") (String c "")).
        { constructor. codes. lia. }
        apply matches_opt_class. codes. lia.
      * apply N.leb_gt in Ha49.
        assert (a = "2"%char) as ->.
        { apply (ascii_of_code a 50). codes. lia. }
        destruct (N_of_ascii b <=? 52)%N eqn:Hb52.
        -- apply matches_alt_r, matches_alt_l.
           apply (matches_cat _ _ (String "2" "") (String b (String c "")));
             [constructor|].
           apply (matches_cat _ _ (String b "") (String c ""));
             constructor; codes; lia.
        -- apply N.leb_gt in Hb52.
           assert (b = "5"%char) as ->.
           { apply (ascii_of_code b 53). codes. lia. }
           apply matches_alt_l.
           apply (matches_cat _ _ (String "2" "") (String "5" (String c "")));
             [constructor|].
           apply (matches_cat _ _ (String "5" "") (String c ""));
             constructor; codes; lia.
Qed.

Lemma append_empty_r (s : string) : s +:+ "" = s.
Proof.
  induction s as [|c s IH]; [done|].
  change (String c s +:+ "") with (String c (s +:+ "")). by rewrite IH.
Qed.

(** The language of the pattern, between [^] and [$]. *)
Lemma ip_pattern_matches s :
  matches ip_pattern s ↔
  ∃ a b c d, octet_text a = true ∧ octet_text b = true ∧
             octet_text c = true ∧ octet_text d = true ∧ s = dotted a b c d.
Proof.
  unfold ip_pattern, dotted. split.
  - intros H.
    apply matches_cat_inv in H as (a & s1 & -> & Ha & H).
    apply matches_cat_inv in H as (? & s2 & -> & ->%matches_chr_inv & H).
    apply matches_cat_inv in H as (b & s3 & -> & Hb & H).
    apply matches_cat_inv in H as (? & s4 & -> & ->%matches_chr_inv & H).
    apply matches_cat_inv in H as (c & s5 & -> & Hc & H).
    apply matches_cat_inv in H as (? & d & -> & ->%matches_chr_inv & Hd).
    exists a, b, c, d. by rewrite <- !octet_matches.
  - intros (a & b & c & d & Ha & Hb & Hc & Hd & ->).
    repeat (apply matches_cat; [by apply octet_matches || constructor|]).
    by apply octet_matches.
Qed.

(** X15.  [is_valid_ip] accepts exactly the dotted quads: four texts of one
    to three decimal digits, each writing a number of 0..255 (leading zeros
    are accepted), separated by dots and followed by nothing or by one line
    feed.  Host names and IPv6 addresses are refused. *)
Theorem is_valid_ip_accepts_the_dotted_quads ip :
  is_valid_ip ip = true ↔
  ∃ a b c d, octet_text a = true ∧ octet_text b = true ∧
             octet_text c = true ∧ octet_text d = true ∧
             (ip = dotted a b c d ∨ ip = dotted a b c d +:+ newline).
Proof.
  unfold is_valid_ip. rewrite fullmatch_matches. split.
  - intros (s & tail & -> & Hs & Htail)%matches_cat_inv.
    apply ip_pattern_matches in Hs as (a & b & c & d & Ha & Hb & Hc & Hd & ->).
    exists a, b, c, d. split_and!; [done..|].
    apply matches_alt_inv in Htail as [->%matches_chr_inv | ->%matches_eps_inv].
    + by right.
    + left. apply append_empty_r.
  - intros (a & b & c & d & Ha & Hb & Hc & Hd & [-> | ->]).
    + rewrite <- (append_empty_r (dotted a b c d)).
      apply matches_cat; [|apply matches_opt_empty].
      apply ip_pattern_matches. by exists a, b, c, d.
    + apply matches_cat; [|apply matches_alt_l; constructor].
      apply ip_pattern_matches. by exists a, b, c, d.
Qed.

Lemma octet_text_pretty (n : N) : (n < 256)%N → octet_text (pretty n) = true.
Proof.
  intros Hn.
  assert (Hall : forallb (λ k, octet_text (pretty (N.of_nat k))) (seq 0 256)
                 = true) by (by vm_compute).
  rewrite forallb_forall in Hall.
  rewrite <- (N2Nat.id n). apply Hall, in_seq. lia.
Qed.

(** X16.  [is_valid_ip] accepts every IPv4 address in the usual notation:
    four numbers of 0..255 in decimal, separated by dots. *)
Theorem is_valid_ip_accepts_decimal_addresses (a b c d : N) :
  (a < 256)%N → (b < 256)%N → (c < 256)%N → (d < 256)%N →
  is_valid_ip (pretty a +:+ "." +:+ pretty b +:+ "." +:+ pretty c +:+ "."
               +:+ pretty d) = true.
Proof.
  intros Ha Hb Hc Hd. unfold is_valid_ip. apply fullmatch_matches.
  rewrite <- (append_empty_r (_ +:+ _)).
  apply matches_cat; [|apply matches_opt_empty].
  apply ip_pattern_matches.
  exists (pretty a), (pretty b), (pretty c), (pretty d).
  by rewrite !octet_text_pretty.
Qed.

End addresses.

Lemma is_valid_ip_accepts_decimal_addresses_witness :
  main.is_valid_ip (pretty 192%N +:+ "." +:+ pretty 168%N +:+ "." +:+ pretty 0%N
                    +:+ "." +:+ pretty 1%N) = true.
Proof.
  apply (is_valid_ip_accepts_decimal_addresses 192 168 0 1); reflexivity.
Defined.

(** ** The RDP detector *)

Section rdp.

Import rdp_detector.

Variable LogonUser : nat → logon_call → logon_outcome.
Variable self : RDPDetector.

#[local] Arguments String.append : simpl never.

Lemma logons_app (t1 t2 : list rdp_event) :
  logons (t1 ++ t2) = logons t1 ++ logons t2.
Proof. apply omap_app. Qed.

Lemma tried_app (t1 t2 : list rdp_event) : tried (t1 ++ t2) = tried t1 ++ tried t2.
Proof. unfold tried. by rewrite logons_app, fmap_app. Qed.

(** The loop over passwords that give no token. *)
Lemma try_passwords_no_token ps :
  ∀ result t,
    (∀ k q, q ∈ ps → LogonUser k (call_of self q) ≠ Token true) →
    ∃ ev,
      (∀ rest, try_passwords LogonUser self (ps ++ rest) result t
               = try_passwords LogonUser self rest result (t ++ ev)) ∧
      tried ev = ps ∧
      Forall (λ e, match e with
                   | ELogonUser c (LogonRaises e) =>
                       rdp_failure_log (logon_password c) e ∈ ev
                   | _ => True
                   end) ev.
Proof.
  induction ps as [|p ps IH]; intros result t Hno.
  - exists []. split_and!; [|done|done]. intros rest. by rewrite app_nil_r.
  - pose proof (Hno (length (logons t)) p ltac:(by left)) as Hp.
    destruct (LogonUser (length (logons t)) (call_of self p)) as [[|]|e] eqn:Ho;
      [done|..].
    + destruct (IH result (t ++ [ELogonUser (call_of self p) (Token false)]))
        as (ev & Hloop & Htried & Hlog).
      { intros k q Hq. apply Hno. by right. }
      exists (ELogonUser (call_of self p) (Token false) :: ev). split_and!.
      * intros rest. simpl. rewrite Ho, Hloop. by rewrite <- app_assoc.
      * change (ELogonUser ?c ?o :: ev) with ([ELogonUser c o] ++ ev).
        by rewrite tried_app, Htried.
      * constructor; [done|].
        eapply Forall_impl; [exact Hlog|]. intros [c [v|e]| |]; try done.
        intros He. by right.
    + destruct (IH result
                  (t ++ [ELogonUser (call_of self p) (LogonRaises e)]
                     ++ [ERdpLog DEBUG ("尝试密码 " +:+ p +:+ " 失败: "
                                        +:+ exn_str e)]))
        as (ev & Hloop & Htried & Hlog).
      { intros k q Hq. apply Hno. by right. }
      exists ([ELogonUser (call_of self p) (LogonRaises e);
               ERdpLog DEBUG ("尝试密码 " +:+ p +:+ " 失败: " +:+ exn_str e)]
              ++ ev).
      split_and!.
      * intros rest. simpl. rewrite Ho.
        rewrite <- app_assoc. simpl. rewrite Hloop.
        by rewrite <- !app_assoc.
      * by rewrite tried_app, Htried.
      * constructor; [right; by left|]. constructor; [done|].
        eapply Forall_impl; [exact Hlog|]. intros [c [v|e']| |]; try done.
        intros He. right. by right.
Qed.

(** X17.  [RDPDetector.detect] stops at the first password for which
    [LogonUser] returns a token: the passwords before it were tried once
    each, in order, those after it are not tried; the result has [success]
    set and holds the password, which the log shows in clear; [error] stays
    [None]. *)
Theorem rdp_first_token_ends_the_detection ps0 p ps1 t :
  passwords self = ps0 ++ p :: ps1 →
  (∀ k q, q ∈ ps0 → LogonUser k (call_of self q) ≠ Token true) →
  (∀ k, LogonUser k (call_of self p) = Token true) →
  ∃ ev,
    detect LogonUser self t = (rdp_success self p, t ++ ev) ∧
    tried ev = ps0 ++ [p] ∧
    rdp_success_log self p ∈ ev.
Proof.
  intros Hps Hno Hyes. unfold detect. rewrite Hps.
  destruct (try_passwords_no_token ps0 (rdp_failure self) t Hno)
    as (ev & Hloop & Htried & _).
  change (try_passwords LogonUser self (ps0 ++ p :: ps1) _ t)
    with (try_passwords LogonUser self (ps0 ++ p :: ps1) (rdp_failure self) t).
  rewrite Hloop. simpl. rewrite Hyes.
  eexists. rewrite <- !app_assoc. split; [reflexivity|]. split.
  - rewrite !tried_app, Htried. done.
  - apply elem_of_app. right. right. by left.
Qed.

(** X18.  When [LogonUser] returns a token for no password of the list,
    [RDPDetector.detect] tries every password once, in order, and returns
    the result it started from: [success] unset, no password and no error,
    whatever [LogonUser] raised.  Every password on which it raised is
    written in clear in the debug log. *)
Theorem rdp_without_token_tries_every_password t :
  (∀ k q, q ∈ passwords self → LogonUser k (call_of self q) ≠ Token true) →
  ∃ ev,
    detect LogonUser self t = (rdp_failure self, t ++ ev) ∧
    tried ev = passwords self ∧
    ∀ c e, ELogonUser c (LogonRaises e) ∈ ev →
           rdp_failure_log (logon_password c) e ∈ ev.
Proof.
  intros Hno. unfold detect.
  destruct (try_passwords_no_token (passwords self) (rdp_failure self) t Hno)
    as (ev & Hloop & Htried & Hlog).
  specialize (Hloop []). rewrite app_nil_r in Hloop.
  exists ev. split_and!; [exact Hloop | done |].
  intros c e Hin. rewrite Forall_forall in Hlog. exact (Hlog _ Hin).
Qed.

End rdp.

Lemma rdp_first_token_ends_the_detection_witness :
  ∃ ev,
    rdp_detector.detect (logon_accepts "admin") rdp_instance []
    = (rdp_success rdp_instance "admin", [] ++ ev) ∧
    rdp_detector.tried ev = ["123456"] ++ ["admin"] ∧
    rdp_success_log rdp_instance "admin" ∈ ev.
Proof.
  apply (rdp_first_token_ends_the_detection (logon_accepts "admin")
           rdp_instance ["123456"] "admin" ["root"] []).
  - reflexivity.
  - intros k q Hq. apply list_elem_of_singleton in Hq as ->. done.
  - intros k. reflexivity.
Defined.

Lemma rdp_without_token_tries_every_password_witness :
  ∃ ev,
    rdp_detector.detect logon_denied rdp_instance []
    = (rdp_failure rdp_instance, [] ++ ev) ∧
    rdp_detector.tried ev = ["123456"; "admin"; "root"] ∧
    ∀ c e, rdp_detector.ELogonUser c (rdp_detector.LogonRaises e) ∈ ev →
           rdp_failure_log (rdp_detector.logon_password c) e ∈ ev.
Proof.
  apply (rdp_without_token_tries_every_password logon_denied rdp_instance []).
  intros k q _. done.
Defined.

(** ** The report of a run *)

Section reports.

Import ssh_detector config main report.

Variable from_private_key_file : key_type → string → option string → bool.
Variable connect : nat → connect_call → connect_outcome.
Variable transport_active : nat → bool.
Variable random : nat → Q.
Variable deadline : trace → option nat.
Variable now : trace → string.
Variable config : yaml.

#[local] Arguments String.append : simpl never.
#[local] Arguments pretty : simpl never.

(** The entries a run records. *)
Lemma gather_records detector :
  construct (get config "timeout" (YInt 10)) (get config "max_retries" (YInt 3))
    = Val detector →
  ∀ ts password_list results t,
    ∃ new t',
      gather from_private_key_file connect transport_active random deadline now
        config ts password_list results t = (Val (results ++ new), t') ∧
      (length new ≤ length ts)%nat ∧
      Forall (λ entry, result_handler.field entry "success" = VBool true) new.
Proof.
  intros Hdet.
  induction ts as [|[[protocol target] username] ts IH];
    intros password_list results t.
  - exists [], t. rewrite app_nil_r. split_and!; [done | done | constructor].
  - destruct (run_detection_run from_private_key_file connect transport_active
                random deadline now config protocol target username
                password_list results t detector Hdet)
      as (results' & ev & Hrun & Hres).
    simpl. unfold mbind, M_bind. rewrite Hrun.
    destruct (IH password_list results' (t ++ ev))
      as (new & t' & Hg & Hlen & Hall).
    rewrite Hg.
    destruct Hres as [-> | (p & timestamp & error & _ & ->)].
    + exists new, t'. split_and!; [done | simpl; lia | done].
    + eexists (_ :: new), t'. rewrite <- app_assoc. split_and!.
      * reflexivity.
      * simpl. lia.
      * constructor; [|done].
        unfold result_handler.field. by rewrite recorded_success.
Qed.

Lemma counts_of_successes (results : list (gmap string pyval)) :
  Forall (λ entry, result_handler.field entry "success" = VBool true) results →
  successes results = length results ∧ failures results = 0%nat.
Proof.
  unfold successes, failures.
  induction 1 as [|entry results Hentry _ [IH1 IH2]]; [done|].
  simpl. rewrite Hentry. simpl. by rewrite IH1, IH2.
Qed.

(** X19.  The report of a run that starts without results counts every entry
    as a success and no failure: a run records only the detections that
    succeed, so that the line of the failures of the report always shows 0,
    whatever the number of tasks that found no password. *)
Theorem report_of_a_run_counts_no_failure detector ts password_list t
    timestamp :
  construct (get config "timeout" (YInt 10)) (get config "max_retries" (YInt 3))
    = Val detector →
  ∃ results t',
    gather from_private_key_file connect transport_active random deadline now
      config ts password_list [] t = (Val results, t') ∧
    (length results ≤ length ts)%nat ∧
    html_content timestamp results
    = template timestamp (pretty (length results)) (pretty (length results))
        (pretty 0%nat) (result_handler._generate_table_rows results).
Proof.
  intros Hdet.
  destruct (gather_records detector Hdet ts password_list [] t)
    as (new & t' & Hg & Hlen & Hall).
  exists new, t'. split_and!; [done | done |].
  destruct (counts_of_successes new Hall) as [Hs Hf].
  unfold html_content. by rewrite Hs, Hf.
Qed.

End reports.

Lemma report_of_a_run_counts_no_failure_witness :
  ∃ results t',
    instances.run_main servers.rejects instances.in_time ["123456"; "admin"]
    = (Val results, t') ∧
    (length results ≤ length (main.tasks ["10.0.0.1"] ["root"] ["ssh"]))%nat ∧
    report.html_content "2024-01-01 00:00:00" results
    = report.template "2024-01-01 00:00:00" (pretty (length results))
        (pretty (length results)) (pretty 0%nat)
        (result_handler._generate_table_rows results).
Proof.
  apply (report_of_a_run_counts_no_failure world.loads servers.rejects
           world.inactive world.half instances.in_time instances.clock
           instances.ssh_config
           {| ssh_detector.timeout := 10; ssh_detector.max_retries := 3;
              ssh_detector.min_delay := 1 # 2; ssh_detector.max_delay := 2 |}
           (main.tasks ["10.0.0.1"] ["root"] ["ssh"]) ["123456"; "admin"] []
           "2024-01-01 00:00:00").
  reflexivity.
Defined.

(** ** The calls of a run *)

Section run_events.

Import ssh_detector config main.

Variable from_private_key_file : key_type → string → option string → bool.
Variable connect : nat → connect_call → connect_outcome.
Variable transport_active : nat → bool.
Variable random : nat → Q.
Variable deadline : trace → option nat.
Variable now : trace → string.
Variable config : yaml.

Variable P : event → Prop.
Hypothesis P_other : ∀ e, connect_of e = None → P e.

#[local] Arguments String.append : simpl never.
#[local] Arguments pretty : simpl never.

Lemma emits_add_result timestamp protocol target port username password
    success error results :
  emits P (result_handler.add_result timestamp protocol target port username
             password success error results).
Proof.
  unfold result_handler.add_result.
  apply emits_bind; [by apply emits_emit, P_other | intros _; apply emits_ret].
Qed.

Lemma emits_run_detection protocol target username password_list results :
  (∀ detector port p o,
     protocol = "ssh" →
     is_valid_ip target = true →
     construct (get config "timeout" (YInt 10))
       (get config "max_retries" (YInt 3)) = Val detector →
     as_int (task_port config "ssh") = Some port →
     p ∈ password_list →
     P (EConnect (call_of detector target port username (Password p)) o)) →
  emits P (run_detection from_private_key_file connect transport_active random
             deadline now config protocol target username password_list
             results).
Proof.
  intros Hc. unfold run_detection.
  destruct (String.eqb_spec protocol "ssh") as [->|Hproto]; simpl negb; cbv iota.
  2:{ apply emits_bind; [by apply emits_emit, P_other|].
      intros _. apply emits_ret. }
  destruct (is_valid_ip target) eqn:Hip; simpl negb; cbv iota.
  2:{ apply emits_bind; [by apply emits_emit, P_other|].
      intros _. apply emits_ret. }
  destruct (construct _ _) as [detector|e] eqn:Hdet; [|apply emits_raise].
  apply emits_try_except.
  - apply emits_bind.
    + apply emits_wait_for. fold (task_port config "ssh").
      destruct (as_int (task_port config "ssh")) as [port|] eqn:Hport;
        [|apply emits_raise].
      apply emits_detect; try (intros; by apply P_other).
      intros [p|k] o Hgiven; [|done]. by apply Hc.
    + intros result. apply emits_bind; [apply emits_getitem|]. intros success.
      destruct (truthy success).
      * apply emits_bind; [apply emits_getitem|]. intros password.
        apply emits_bind; [by apply emits_emit, P_other|]. intros _.
        apply emits_bind.
        { intros t. exists []. by rewrite app_nil_r. }
        intros timestamp. apply emits_add_result.
      * apply emits_bind; [by apply emits_emit, P_other|].
        intros _. apply emits_ret.
  - intros e. apply emits_bind; [by apply emits_emit, P_other|].
    intros _. apply emits_ret.
Qed.

Lemma emits_gather ts password_list :
  (∀ target username detector port p o,
     ("ssh", target, username) ∈ ts →
     is_valid_ip target = true →
     construct (get config "timeout" (YInt 10))
       (get config "max_retries" (YInt 3)) = Val detector →
     as_int (task_port config "ssh") = Some port →
     p ∈ password_list →
     P (EConnect (call_of detector target port username (Password p)) o)) →
  ∀ results,
    emits P (gather from_private_key_file connect transport_active random
               deadline now config ts password_list results).
Proof.
  induction ts as [|[[protocol target] username] ts IH]; intros Hc results.
  - apply emits_ret.
  - simpl. apply emits_bind.
    + apply emits_run_detection. intros detector port p o -> Hip Hdet Hport Hp.
      eapply Hc; [by left | done..].
    + intros results'. apply IH. intros ? ? ? ? ? ? Hin. apply Hc. by right.
Qed.

End run_events.

Section run_calls.

Import ssh_detector config main.

Variable from_private_key_file : key_type → string → option string → bool.
Variable connect : nat → connect_call → connect_outcome.
Variable transport_active : nat → bool.
Variable random : nat → Q.
Variable deadline : trace → option nat.
Variable now : trace → string.
Variable config : yaml.

(** X20.  Whatever the servers answer, every call of [connect] of a run is
    for the target and the user name of one of its tasks for SSH, tries a
    password of the dictionary, and uses the port and the timeout of the
    configuration: a run contacts no other host and tries no other
    credential. *)
Theorem run_connects_only_for_its_tasks ts password_list results t :
  ∃ ev,
    (gather from_private_key_file connect transport_active random deadline now
       config ts password_list results t).2 = t ++ ev ∧
    Forall (λ co : connect_call * connect_outcome,
              ∃ p, ("ssh", hostname co.1, call_username co.1) ∈ ts ∧
                   is_valid_ip (hostname co.1) = true ∧
                   p ∈ password_list ∧
                   call_credential co.1 = Password p ∧
                   as_int (task_port config "ssh") = Some (call_port co.1) ∧
                   as_int (get config "timeout" (YInt 10))
                   = Some (call_timeout co.1))
      (connects ev).
Proof.
  destruct (emits_gather from_private_key_file connect transport_active random
              deadline now config
              (λ e, match e with
                    | EConnect c o =>
                        ∃ p, ("ssh", hostname c, call_username c) ∈ ts ∧
                             is_valid_ip (hostname c) = true ∧
                             p ∈ password_list ∧
                             call_credential c = Password p ∧
                             as_int (task_port config "ssh") = Some (call_port c) ∧
                             as_int (get config "timeout" (YInt 10))
                             = Some (call_timeout c)
                    | _ => True
                    end)
              ltac:(by intros []) ts password_list) with (results := results)
    (t := t) as (ev & Hrun & Hev).
  - intros target username detector port p o Hin Hip Hdet Hport Hp.
    exists p. split_and!; [done..|].
    simpl. unfold construct in Hdet.
    destruct (as_int (get config "max_retries" (YInt 3))) as [r|]; [|done].
    destruct (as_int (get config "timeout" (YInt 10))) as [tm|];
      [|by destruct (r <? 0)].
    unfold __init__ in Hdet.
    repeat case_match; try done. by injection Hdet as <-.
  - exists ev. split; [done|].
    by apply (Forall_connects
                (λ co, ∃ p, ("ssh", hostname co.1, call_username co.1) ∈ ts ∧
                            is_valid_ip (hostname co.1) = true ∧
                            p ∈ password_list ∧
                            call_credential co.1 = Password p ∧
                            as_int (task_port config "ssh")
                            = Some (call_port co.1) ∧
                            as_int (get config "timeout" (YInt 10))
                            = Some (call_timeout co.1))).
Qed.

End run_calls.

(** ** The pauses and the errors of a detection *)

Section pauses.

Import ssh_detector.

Variable from_private_key_file : key_type → string → option string → bool.
Variable connect : nat → connect_call → connect_outcome.
Variable transport_active : nat → bool.
Variable random : nat → Q.
Variable self : SSHDetector.

#[local] Arguments String.append : simpl never.
#[local] Arguments pretty : simpl never.

(** One iteration of the key loop pauses at most once, and not at all when
    it is the last of the loop. *)
Lemma key_attempt_sleeps target port username key_path key_password attempt
    result t :
  ∃ r ev,
    key_attempt from_private_key_file connect random self target port username
      key_path key_password attempt result t = (Val r, t ++ ev) ∧
    (length (sleeps ev)
     ≤ if (attempt <? max_retries self - 1)%Z then 1 else 0)%nat.
Proof.
  unfold key_attempt, try_except.
  unfold mbind at 1. unfold M_bind at 1.
  rewrite load_private_key_run.
  destruct (loadable from_private_key_file key_path key_password).
  - unfold ssh_connect.
    unfold mbind at 1. unfold M_bind at 1.
    destruct (connect (length (connects t)) _) as [|e].
    + unfold log, ssh_close, emit, mbind, M_bind, mret, M_ret. cbn.
      eexists _, _. rewrite <- !app_assoc. split; [reflexivity|].
      simpl. lia.
    + destruct (is_AuthenticationException e);
        [|destruct (attempt <? max_retries self - 1)];
        unfold random_uniform, sleep, log, emit, mbind, M_bind, mret, M_ret;
        cbn; eexists _, _; rewrite <- !app_assoc; (split; [reflexivity|]);
        simpl; lia.
  - destruct (attempt <? max_retries self - 1);
      unfold random_uniform, sleep, log, emit, mbind, M_bind, mret, M_ret;
      cbn; eexists _, _; rewrite <- !app_assoc; (split; [reflexivity|]);
      simpl; lia.
Qed.

Lemma key_loop_sleeps target port username key_path key_password attempts_left :
  ∀ result t,
    ∃ r ev,
      for_in attempts_left
        (key_attempt from_private_key_file connect random self target port
           username key_path key_password) result t = (Val r, t ++ ev) ∧
      (length (sleeps ev)
       ≤ length (List.filter (λ a, (a <? max_retries self - 1)%Z)
                   attempts_left))%nat.
Proof.
  induction attempts_left as [|a rest IH]; intros result t.
  - exists (inl result), []. rewrite app_nil_r. split; [done | simpl; lia].
  - destruct (key_attempt_sleeps target port username key_path key_password a
                result t) as (r & ev & Hrun & Hlen).
    rewrite for_in_cons, Hrun. simpl List.filter.
    destruct r as [result'|result'|result'].
    + destruct (IH result' (t ++ ev)) as (r' & ev' & Hloop & Hlen').
      exists r', (ev ++ ev'). rewrite Hloop, <- app_assoc. split; [done|].
      rewrite sleeps_app, length_app.
      destruct (a <? max_retries self - 1); simpl; lia.
    + eexists _, ev. split; [done|].
      destruct (a <? max_retries self - 1); simpl; lia.
    + eexists _, ev. split; [done|].
      destruct (a <? max_retries self - 1); simpl; lia.
Qed.

Lemma range_before_last (n : Z) :
  (length (List.filter (λ a, (a <? n - 1)%Z) (range n))
   ≤ pred (Z.to_nat n))%nat.
Proof.
  unfold range. destruct (Z.to_nat n) as [|m] eqn:Hm; [simpl; lia|].
  rewrite seq_S, fmap_app, List.filter_app, length_app. simpl.
  replace (Z.of_nat m <? n - 1) with false by lia. simpl.
  etrans; [apply Nat.add_le_mono_r, List.filter_length_le|].
  rewrite length_fmap, length_seq. lia.
Qed.

(** The pauses of the key path. *)
Lemma try_key_authentication_sleeps target port username key_path key_password t :
  ∃ d ev,
    _try_key_authentication from_private_key_file connect random self target
      port username key_path key_password t = (Val d, t ++ ev) ∧
    (length (sleeps ev) ≤ pred (Z.to_nat (max_retries self)))%nat.
Proof.
  unfold _try_key_authentication.
  destruct (key_loop_sleeps target port username key_path key_password
              (range (max_retries self))
              (result_dict target port username (VBool false) VNone
                 (VStr key_path) VNone) t) as (r & ev & Hloop & Hlen).
  unfold mbind, M_bind. rewrite Hloop. eexists _, ev. split; [done|].
  etrans; [exact Hlen | apply range_before_last].
Qed.

(** The pauses of a detection without a key: none. *)
Lemma detect_without_key_sleeps target port username passwords
    private_key_password t :
  checks_pass target port username →
  ∃ ev,
    (detect from_private_key_file connect transport_active random self target
       port username passwords None private_key_password t).2 = t ++ ev ∧
    sleeps ev = [].
Proof.
  intros Hchecks. destruct passwords as [[|p ps]|].
  - rewrite detect_without_credentials by (done || by right). by eexists.
  - destruct (try_password_authentication_run connect transport_active self
                target port username (p :: ps) t) as (r & ev & Hrun & Hsl & _).
    rewrite (detect_without_key from_private_key_file connect transport_active
               random self target port username (p :: ps) private_key_password
               t r (t ++ ev) Hchecks); [|done|exact Hrun].
    destruct r as [pd|e]; [|by exists ev].
    destruct (pd !! "success") as [v|]; [|by exists ev].
    destruct (truthy v); [by exists ev|].
    eexists. rewrite <- app_assoc. split; [reflexivity|].
    by rewrite sleeps_app, Hsl.
  - rewrite detect_without_credentials by (done || by left). by eexists.
Qed.

(** X21.  Whatever the server answers and however many passwords are tried,
    a detection pauses at most [max_retries - 1] times: the pauses are those
    between the tries of the key, and no pause is made between two
    passwords. *)
Theorem detection_pauses_less_than_max_retries_times target port username
    passwords private_key_path private_key_password t :
  ∃ ev,
    (detect from_private_key_file connect transport_active random self target
       port username passwords private_key_path private_key_password t).2
    = t ++ ev ∧
    (length (sleeps ev) ≤ pred (Z.to_nat (max_retries self)))%nat ∧
    (private_key_path = None → sleeps ev = []).
Proof.
  destruct (decide (1 ≤ port ≤ 65535)) as [Hport|Hport]; cycle 1.
  { rewrite detect_invalid_port by lia. eexists. split; [reflexivity|].
    split; [simpl; lia | done]. }
  destruct (decide (target = "" ∨ username = "")) as [Hempty|Hfull].
  { rewrite detect_empty_argument by done. eexists. split; [reflexivity|].
    split; [simpl; lia | done]. }
  assert (Hchecks : checks_pass target port username).
  { split; [done|]. split; intros ->; tauto. }
  assert (Hnokey : ∀ t1, ∃ ev,
    (detect from_private_key_file connect transport_active random self target
       port username passwords None private_key_password t1).2 = t1 ++ ev ∧
    sleeps ev = []) by (intros t1; by apply detect_without_key_sleeps).
  destruct private_key_path as [key_path|]; cycle 1.
  { destruct (Hnokey t) as (ev & Hrun & Hsl). exists ev.
    rewrite Hsl. split_and!; [done | simpl; lia | done]. }
  destruct (decide (key_path = "")) as [->|Hkey].
  { rewrite detect_empty_key. destruct (Hnokey t) as (ev & Hrun & Hsl).
    exists ev. rewrite Hsl. split_and!; [done | simpl; lia | done]. }
  destruct (try_key_authentication_sleeps target port username key_path
              private_key_password t) as (kd & ev & Hrun & Hlen).
  destruct (try_key_authentication_run from_private_key_file connect random
              self target port username key_path private_key_password t)
    as (kd' & ev' & Hrun' & _ & Hr).
  rewrite Hrun in Hrun'. injection Hrun' as <- <-%app_inv_head.
  assert (Hsucc : ∃ b, kd !! "success" = Some (VBool b)).
  { destruct Hr as [[_ ?] | (? & ? & ? & d & _ & _ & _ & [= <-] & ? & _)]; eauto. }
  destruct Hsucc as [b Hsucc].
  rewrite (detect_with_key _ _ _ _ _ _ _ _ _ _ _ _ _ _ _ Hchecks Hkey Hrun Hsucc).
  destruct b; simpl truthy; cbv iota.
  - exists ev. split_and!; done.
  - destruct (Hnokey (t ++ ev)) as (ev1 & Hrun1 & Hsl1).
    exists (ev ++ ev1). rewrite Hrun1, <- app_assoc. split; [done|].
    rewrite sleeps_app, length_app, Hsl1. simpl. split; [lia | done].
Qed.


(** X25.  Against a server on which every call raises an exception of one
    of the four classes the password loop handles (a rejection, a connection
    that cannot be established, a host key or protocol error), a detection
    with [max_retries >= 1] tries each password once, in the order of the
    list, whatever [max_retries] is, and makes no pause; it returns the
    failure result. *)
Theorem handled_failures_are_not_retried_for_passwords target port username
    passwords private_key_password t :
  checks_pass target port username →
  0 < max_retries self →
  (∀ k c, ∃ e, connect k c = Raises e ∧ handled e = true) →
  ∃ ev,
    detect from_private_key_file connect transport_active random self target
      port username (Some passwords) None private_key_password t
    = (Val (failure_result target port username), t ++ ev) ∧
    attempts ev = Password <$> passwords ∧ sleeps ev = [].
Proof.
  intros Hchecks Hpos Hfail. destruct passwords as [|p ps].
  { rewrite detect_without_credentials by (done || by right).
    by eexists. }
  destruct (rejected_passwords_run connect transport_active self target port
              username Hpos (p :: ps) (failure_result target port username) t
              ltac:(intros; apply Hfail) (result_dict_success _ _ _ _ _ _))
    as (d & ev & Hloop & Hatt & Hsl & Hd & _).
  rewrite (detect_without_key from_private_key_file connect transport_active
             random self target port username (p :: ps) private_key_password
             t (Val d) (t ++ ev) Hchecks); [|done|].
  - rewrite Hd. change (truthy (VBool false)) with false. cbv iota.
    eexists. rewrite <- app_assoc. split; [reflexivity|].
    rewrite attempts_app, sleeps_app, Hatt, Hsl. split; [|done].
    apply app_nil_r.
  - unfold _try_password_authentication, mbind, M_bind.
    change (result_dict target port username (VBool false) VNone VNone VNone)
      with (failure_result target port username).
    by rewrite Hloop.
Qed.

End pauses.

Lemma detection_pauses_less_than_max_retries_times_witness :
  ∃ ev,
    (world.run servers.unreachable world.default_detector "10.0.0.1" 22 "root"
       (Some ["123456"; "admin"]) (Some "id_rsa")).2 = [] ++ ev ∧
    (length (sleeps ev) ≤ pred (Z.to_nat 2))%nat ∧
    (Some "id_rsa" = None → sleeps ev = []).
Proof.
  apply (detection_pauses_less_than_max_retries_times world.loads
           servers.unreachable world.inactive world.half world.default_detector
           "10.0.0.1" 22 "root" (Some ["123456"; "admin"]) (Some "id_rsa") None
           []).
Defined.

Lemma handled_failures_are_not_retried_for_passwords_witness :
  ∃ ev,
    world.run servers.unreachable world.default_detector "10.0.0.1" 22 "root"
      (Some ["123456"; "admin"]) None
    = (Val (failure_result "10.0.0.1" 22 "root"), [] ++ ev) ∧
    attempts ev = Password <$> ["123456"; "admin"] ∧ sleeps ev = [].
Proof.
  apply (handled_failures_are_not_retried_for_passwords world.loads
           servers.unreachable world.inactive world.half world.default_detector
           "10.0.0.1" 22 "root" ["123456"; "admin"] None []).
  - by split_and!.
  - reflexivity.
  - intros k c. eexists. split; reflexivity.
Defined.


(** ** The program *)

Section values.

Context {P : event → Prop}.

Lemma returns_ret {A} (Q : A → Prop) (a : A) : Q a → returns Q (mret a).
Proof. by intros Ha t a' t' [= <- _]. Qed.

Lemma returns_raise {A} (Q : A → Prop) (e : exn) : returns Q (raise e).
Proof. by intros t a t'. Qed.

Lemma returns_bind {A B} (Q : A → Prop) (R : B → Prop) (m : M A) (f : A → M B) :
  returns Q m → (∀ a, Q a → returns R (f a)) → returns R (m ≫= f).
Proof.
  intros Hm Hf t b t'. unfold mbind, M_bind.
  destruct (m t) as [[a|e] t1] eqn:Hrun; [|done].
  intros Hb. exact (Hf a (Hm t a t1 Hrun) t1 b t' Hb).
Qed.

Lemma returns_impl {A} (Q R : A → Prop) (m : M A) :
  (∀ a, Q a → R a) → returns Q m → returns R m.
Proof. intros HQR Hm t a t' Hrun. by eapply HQR, Hm. Qed.

(** A computation followed by another, which runs on the values the first
    returns. *)
Lemma emits_bind_returns {A B} (Q : A → Prop) (m : M A) (f : A → M B) :
  emits P m → returns Q m → (∀ a, Q a → emits P (f a)) → emits P (m ≫= f).
Proof.
  intros Hm HQ Hf t. destruct (Hm t) as (ev & Ht & Hev).
  unfold mbind, M_bind.
  destruct (m t) as [[a|e] t1] eqn:Hrun; simpl in Ht; subst t1.
  - destruct (Hf a (HQ t a _ Hrun) (t ++ ev)) as (ev' & Ht' & Hev').
    exists (ev ++ ev'). rewrite Ht', <- app_assoc. split; [done|].
    by apply Forall_app.
  - by exists ev.
Qed.

End values.

Section program.

Import config main WeakPasswordDetector.

Variable strip : string → string.
Variable isfile : string → bool.
Variable open_ : string → file_outcome.
Variable exists_ : string → bool.
Variable read : string → list string * option exn.
Variable load : string → config_file.
Variable write : string → string → option exn.
Variable from_private_key_file :
  ssh_detector.key_type → string → option string → bool.
Variable connect : nat → connect_call → connect_outcome.
Variable transport_active : nat → bool.
Variable random : nat → Q.
Variable deadline : trace → option nat.
Variable now : trace → string.

Variable P : event → Prop.
Hypothesis P_other : ∀ e, connect_of e = None → P e.

#[local] Arguments String.append : simpl never.
#[local] Arguments pretty : simpl never.

Lemma emits_log_other l v m : emits P (log l v m).
Proof. by apply emits_emit, P_other. Qed.

Lemma emits_load_from_file config_path : emits P (load_from_file load config_path).
Proof.
  unfold load_from_file.
  destruct (load config_path);
    (apply emits_bind; [apply emits_log_other | intros _; apply emits_ret]).
Qed.

Lemma emits_load_targets target_source :
  emits P (load_targets strip isfile open_ target_source).
Proof.
  unfold load_targets. destruct (isfile _); [|apply emits_ret].
  destruct (open_ _); [apply emits_ret | | apply emits_raise].
  apply emits_bind; [apply emits_log_other | intros _; apply emits_ret].
Qed.

Lemma emits_load_usernames username_source :
  emits P (load_usernames strip isfile open_ username_source).
Proof.
  unfold load_usernames. destruct (isfile _); [|apply emits_ret].
  destruct (open_ _); [apply emits_ret | | apply emits_raise].
  apply emits_bind; [apply emits_log_other | intros _; apply emits_ret].
Qed.

Lemma emits_load_passwords file_path :
  emits P (dictionary_loader.load_password_dictionary strip exists_ read
             file_path).
Proof.
  unfold dictionary_loader.load_password_dictionary,
    dictionary_loader.load_passwords.
  destruct (_ || _).
  { apply emits_bind; [apply emits_log_other | intros _; apply emits_ret]. }
  destruct (read file_path) as [lines [e|]];
    (apply emits_bind; [apply emits_log_other | intros _; apply emits_ret]).
Qed.

Lemma emits_generate_report report_file results :
  emits P (report.generate_report now write report_file results).
Proof.
  intros t. unfold report.generate_report.
  destruct (write _ _);
    (eexists [_]; split; [reflexivity|]; constructor; [by apply P_other|done]).
Qed.

(** The passwords [load_password_dictionary] returns. *)
Lemma returns_load_passwords file_path :
  returns (λ passwords,
             (exists_ file_path = false → passwords = []) ∧
             ∀ p, p ∈ passwords → p ≠ "" ∧ p ∈ strip <$> (read file_path).1)
    (dictionary_loader.load_password_dictionary strip exists_ read file_path).
Proof.
  intros t passwords t'.
  unfold dictionary_loader.load_password_dictionary,
    dictionary_loader.load_passwords.
  destruct (negb (truthy (VStr file_path))); simpl orb; cbv iota.
  { intros [= <- _]. split; [done|]. by intros p ?%elem_of_nil. }
  destruct (exists_ file_path); simpl negb; cbv iota.
  2:{ intros [= <- _]. split; [done|]. by intros p ?%elem_of_nil. }
  destruct (read file_path) as [lines failure]. cbv iota beta zeta.
  destruct (load_loop strip lines) as (_ & Hne & Hsub & _).
  assert (Hall : ∀ p, p ∈ foldl (dictionary_loader.add_line strip) [] lines →
                      p ≠ "" ∧ p ∈ strip <$> lines).
  { intros p Hp. split; [by intros -> | by eapply elem_of_sublist]. }
  destruct failure as [e|]; intros [= <- _]; by split.
Qed.

(** [main] emits what its tasks emit. *)
Lemma emits_main password_file a results :
  (∀ detector target port username p o,
     is_valid_ip target = true →
     p ≠ "" → p ∈ strip <$> (read password_file).1 →
     P (EConnect (ssh_detector.call_of detector target port username (Password p))
          o)) →
  emits P (WeakPasswordDetector.main strip isfile open_ exists_ read load write
             from_private_key_file connect transport_active random deadline now
             password_file a results).
Proof.
  intros Hc. unfold WeakPasswordDetector.main.
  apply emits_bind; [apply emits_load_from_file|]. intros [config loaded].
  apply emits_bind.
  { destruct (given_argument (target_file a));
      [apply emits_load_targets | apply emits_ret]. }
  intros targets. destruct (negb (nonempty targets)).
  { apply emits_bind; [apply emits_log_other | intros _; apply emits_ret]. }
  apply emits_bind.
  { destruct (given_argument (username_file a));
      [apply emits_load_usernames | apply emits_ret]. }
  intros usernames.
  eapply emits_bind_returns;
    [apply emits_load_passwords | apply returns_load_passwords|].
  intros passwords [_ Hpasswords]. destruct (negb (nonempty passwords)).
  { apply emits_bind; [apply emits_log_other | intros _; apply emits_ret]. }
  apply emits_bind.
  { apply emits_gather; [exact P_other|].
    intros target username detector port p o _ Hip _ _ Hp.
    destruct (Hpasswords p Hp). by apply Hc. }
  intros results'. apply emits_bind.
  { destruct (nonempty results'); apply emits_log_other. }
  intros _. apply emits_bind; [apply emits_generate_report|].
  intros written. apply emits_ret.
Qed.

End program.

Section program_properties.

Import config main WeakPasswordDetector.

Variable strip : string → string.
Variable isfile : string → bool.
Variable open_ : string → file_outcome.
Variable exists_ : string → bool.
Variable read : string → list string * option exn.
Variable load : string → config_file.
Variable write : string → string → option exn.
Variable from_private_key_file :
  ssh_detector.key_type → string → option string → bool.
Variable connect : nat → connect_call → connect_outcome.
Variable transport_active : nat → bool.
Variable random : nat → Q.
Variable deadline : trace → option nat.
Variable now : trace → string.

(** X23.  Whatever the files hold and the servers answer, every call of
    [connect] of [main] is for a target [is_valid_ip] accepts and tries a
    password that is the stripped text of a line of the dictionary file, and
    is not empty. *)
Theorem main_tries_only_the_passwords_of_the_dictionary password_file a
    results t :
  ∃ ev,
    (WeakPasswordDetector.main strip isfile open_ exists_ read load write
       from_private_key_file connect transport_active random deadline now
       password_file a results t).2 = t ++ ev ∧
    Forall (λ co : connect_call * connect_outcome,
              is_valid_ip (hostname co.1) = true ∧
              ∃ p, call_credential co.1 = Password p ∧ p ≠ "" ∧
                   p ∈ strip <$> (read password_file).1)
      (connects ev).
Proof.
  destruct (emits_main strip isfile open_ exists_ read load write
              from_private_key_file connect transport_active random deadline
              now
              (λ e, match e with
                    | EConnect c o =>
                        is_valid_ip (hostname c) = true ∧
                        ∃ p, call_credential c = Password p ∧ p ≠ "" ∧
                             p ∈ strip <$> (read password_file).1
                    | _ => True
                    end)
              ltac:(by intros []) password_file a results) with (t := t)
    as (ev & Hrun & Hev).
  - intros detector target port username p o Hip Hne Hp. split; [done|].
    by exists p.
  - exists ev. split; [done|].
    by apply (Forall_connects
                (λ co, is_valid_ip (hostname co.1) = true ∧
                       ∃ p, call_credential co.1 = Password p ∧ p ≠ "" ∧
                            p ∈ strip <$> (read password_file).1)).
Qed.

Lemma connects_none (ev : trace) :
  Forall (λ e, connect_of e = None) ev → connects ev = [].
Proof.
  induction 1 as [|e ev He _ IH]; [done|].
  unfold connects in *. simpl. by rewrite He.
Qed.

(** X24.  Without a target on the command line, or when the dictionary file
    does not exist or holds blank lines only, [main] makes no call of
    [connect], records nothing and writes no report. *)
Theorem main_without_a_target_or_a_password_attempts_nothing password_file a
    results t :
  given_argument (target_file a) = false ∧ given_argument (target a) = false
  ∨ exists_ password_file = false
  ∨ (∀ line, line ∈ (read password_file).1 → strip line = "") →
  ∃ r ev,
    WeakPasswordDetector.main strip isfile open_ exists_ read load write
      from_private_key_file connect transport_active random deadline now
      password_file a results t = (r, t ++ ev) ∧
    connects ev = [] ∧
    ∀ v, r = Val v → v = (results, None).
Proof.
  intros Hnone.
  assert (Hpasswords :
    given_argument (target_file a) = false ∧ given_argument (target a) = false
    ∨ returns (λ passwords, passwords = [])
        (dictionary_loader.load_password_dictionary strip exists_ read
           password_file)).
  { destruct Hnone as [?|Hnone]; [by left|right].
    eapply returns_impl; [|apply returns_load_passwords].
    intros passwords [Hmissing Hall].
    destruct Hnone as [Hex|Hblank]; [by apply Hmissing|].
    destruct passwords as [|p ps]; [done|].
    destruct (Hall p ltac:(by left))
      as [Hne (line & -> & Hline)%list_elem_of_fmap].
    destruct Hne. by apply Hblank. }
  clear Hnone.
  assert (Hemits :
    emits (λ e, connect_of e = None)
      (WeakPasswordDetector.main strip isfile open_ exists_ read load write
         from_private_key_file connect transport_active random deadline now
         password_file a results)).
  { unfold WeakPasswordDetector.main.
    apply emits_bind; [by apply emits_load_from_file|]. intros [config loaded].
    eapply (emits_bind_returns
              (λ targets, given_argument (target_file a) = false ∧
                          given_argument (target a) = false → targets = [])).
    { destruct (given_argument (target_file a));
        [by apply emits_load_targets | apply emits_ret]. }
    { destruct (given_argument (target_file a)).
      - intros ? ? ? _ [? _]. done.
      - apply returns_ret. by intros [_ ->]. }
    intros targets Htargets. destruct targets as [|target targets]; simpl.
    { apply emits_bind; [by apply emits_log_other | intros _; apply emits_ret]. }
    destruct Hpasswords as [Hno|Hpasswords]; [by specialize (Htargets Hno)|].
    apply emits_bind.
    { destruct (given_argument (username_file a));
        [by apply emits_load_usernames | apply emits_ret]. }
    intros usernames.
    eapply emits_bind_returns;
      [by apply emits_load_passwords | exact Hpasswords|].
    intros passwords ->. simpl.
    apply emits_bind; [by apply emits_log_other | intros _; apply emits_ret]. }
  assert (Hreturns :
    returns (λ v, v = (results, None))
      (WeakPasswordDetector.main strip isfile open_ exists_ read load write
         from_private_key_file connect transport_active random deadline now
         password_file a results)).
  { unfold WeakPasswordDetector.main.
    apply (returns_bind (λ _, True)); [done|]. intros [config loaded] _.
    apply (returns_bind
             (λ targets, given_argument (target_file a) = false ∧
                         given_argument (target a) = false → targets = [])).
    { destruct (given_argument (target_file a)).
      - intros ? ? ? _ [? _]. done.
      - apply returns_ret. by intros [_ ->]. }
    intros targets Htargets. destruct targets as [|target targets]; simpl.
    { apply (returns_bind (λ _, True)); [done|]. intros _ _.
      by apply returns_ret. }
    destruct Hpasswords as [Hno|Hpasswords]; [by specialize (Htargets Hno)|].
    apply (returns_bind (λ _, True)); [done|]. intros usernames _.
    apply (returns_bind (λ passwords, passwords = [])); [exact Hpasswords|].
    intros passwords ->. simpl.
    apply (returns_bind (λ _, True)); [done|]. intros _ _.
    by apply returns_ret. }
  destruct (Hemits t) as (ev & Hrun & Hev).
  destruct (WeakPasswordDetector.main _ _ _ _ _ _ _ _ _ _ _ _ _ _ _ _ t)
    as [r t'] eqn:Hmain.
  simpl in Hrun. subst t'. exists r, ev. split_and!; [done| |].
  - by apply connects_none.
  - intros v ->. by eapply Hreturns.
Qed.

End program_properties.

Lemma main_without_a_target_or_a_password_attempts_nothing_witness :
  ∃ r ev,
    WeakPasswordDetector.main unstripped no_file nothing_to_open no_file
      nothing_to_read no_configuration writable world.loads
      (world.always Connected) world.inactive world.half instances.in_time
      instances.clock "passwords.txt" one_target [] []
    = (r, [] ++ ev) ∧
    connects ev = [] ∧
    ∀ v, r = Val v → v = ([], None).
Proof.
  apply (main_without_a_target_or_a_password_attempts_nothing unstripped
           no_file nothing_to_open no_file nothing_to_read no_configuration
           writable world.loads (world.always Connected) world.inactive
           world.half instances.in_time instances.clock "passwords.txt"
           one_target [] []).
  right. left. reflexivity.
Defined.
